(** * zhos: a shallow embedding of the kernel core

    The development follows the C sources of the kernel: the task manager
    (task.c), the sleeping synchronisation primitives (mutex.c, sem.c), the
    physical/virtual memory manager (memory.c), the descriptor table
    allocator (cpu.c), the TTY input path (tty.c) and the ELF loader that
    lives in task.c.  Kernel state is threaded explicitly: every C function
    that mutates global state becomes a function [kernel -> ... * kernel]. *)

From Stdlib Require Import ZArith Lia List String Ascii.
From stdpp Require Import base option list gmap strings.
Import ListNotations.
Local Open Scope Z_scope.

(** ** Machine integers *)

Module Word.

(** [uint32_t]: arithmetic modulo 2^32. *)
Definition u32 (x : Z) : Z := x mod 4294967296.

(** [int]: two's complement wrap-around on 32 bits. *)
Definition s32 (x : Z) : Z := (x + 2147483648) mod 4294967296 - 2147483648.

(** [uint16_t] truncation. *)
Definition u16 (x : Z) : Z := x mod 65536.

Definition INT_MAX : Z := 2147483647.

End Word.
Export Word.

(** ** Configuration (os_cfg.h, task.h, mmu.h, syscall.h) *)

Definition OS_TICK_MS : Z := 10.
Definition TASK_NR : nat := 128.
Definition GDT_TABLE_SIZE : nat := 256.
Definition KERNEL_SELECTOR_CS : Z := 1 * 8.
Definition KERNEL_SELECTOR_DS : Z := 2 * 8.
Definition TASK_NAME_SIZE : nat := 32.
Definition TASK_TIME_SLICE_DEFAULT : Z := 10.
Definition TASK_OFILE_NR : nat := 128.
Definition TASK_FLAG_SYSTEM : Z := 1.
Definition SYSCALL_PARAM_COUNT : Z := 5.
Definition PDE_CNT : nat := 1024.
Definition PTE_CNT : nat := 1024.
Definition PTE_P : Z := 1.
Definition PDE_P : Z := 1.
Definition PTE_W : Z := 2.
Definition PDE_W : Z := 2.
Definition PTE_U : Z := 4.
Definition PDE_U : Z := 4.
Definition SEG_P_PRESENT : Z := 128.
Definition SEG_DPL0 : Z := 0.
Definition SEG_CPL0 : Z := 0.
Definition SEG_CPL3 : Z := 3.
Definition SEG_TYPE_TSS : Z := 9.
Definition EFLAGS_IF : Z := 512.
Definition EFLAGS_DEFAULT : Z := 2.

(** sizeof(tss_t): 26 packed 32-bit words; sizeof(syscall_frame_t): 22. *)
Definition SIZEOF_TSS : Z := 104.
Definition SIZEOF_SYSCALL_FRAME : Z := 88.

(** Constants of core/memory.h, a header that is not part of the sources.
    [MEM_PAGE_SIZE] and [MEMORY_TASK_BASE] are fixed by the page-table
    layout of mmu.h and by the memory map documented in memory.c (4 KiB
    pages, user space from 2 GiB); the placement of the user stack, the size
    of the TTY input buffer (dev/tty.h) and the link-time addresses of the
    task structures are left open. *)
Definition MEM_PAGE_SIZE : Z := 4096.
Definition MEMORY_TASK_BASE : Z := 2147483648.

Class Layout := {
  MEM_TASK_STACK_TOP : Z;
  MEM_TASK_STACK_SIZE : Z;
  MEM_TASK_ARG_SIZE : Z;
  TTY_IBUF_SIZE : Z;
  (** fs/file.h: number of entries of the system file table *)
  FILE_TABLE_SIZE : nat;
  (** address of a [task_t]; [task_init] stores it as the pid *)
  task_addr : nat -> Z;
  (** address of the [tss] member of a [task_t] *)
  tss_addr : nat -> Z;
}.

(** ** Data model *)

(** Tasks are referred to by the slot that holds their [task_t]: the two
    structures embedded in [task_manager] and the 128 entries of
    [task_table].  A null [task_t *] is [None]. *)
Abbreviation tid := nat (only parsing).
Definition first_task : tid := 0%nat.
Definition idle_task : tid := 1%nat.
Definition task_table (i : nat) : tid := (2 + i)%nat.

Inductive task_state :=
  | TASK_CREATED | TASK_RUNNING | TASK_SLEEP
  | TASK_READY | TASK_WAITING | TASK_ZOMBIE.

#[global] Instance task_state_eq_dec : EqDecision task_state.
Proof. solve_decision. Defined.

Record tss_t := mk_tss {
  tss_esp0 : Z; tss_ss0 : Z; tss_cr3 : Z;
  tss_eip : Z; tss_eflags : Z;
  tss_eax : Z; tss_ecx : Z; tss_edx : Z; tss_ebx : Z;
  tss_esp : Z; tss_ebp : Z; tss_esi : Z; tss_edi : Z;
  tss_es : Z; tss_cs : Z; tss_ss : Z; tss_ds : Z; tss_fs : Z; tss_gs : Z;
  tss_iomap : Z;
}.

Definition tss_zero : tss_t :=
  mk_tss 0 0 0 0 0 0 0 0 0 0 0 0 0 0 0 0 0 0 0 0.

Definition tss_set_cr3 (v : Z) (t : tss_t) : tss_t :=
  mk_tss (tss_esp0 t) (tss_ss0 t) v (tss_eip t) (tss_eflags t)
         (tss_eax t) (tss_ecx t) (tss_edx t) (tss_ebx t)
         (tss_esp t) (tss_ebp t) (tss_esi t) (tss_edi t)
         (tss_es t) (tss_cs t) (tss_ss t) (tss_ds t) (tss_fs t) (tss_gs t)
         (tss_iomap t).

Record syscall_frame_t := mk_frame {
  frame_eflags : Z;
  frame_gs : Z; frame_fs : Z; frame_es : Z; frame_ds : Z;
  frame_edi : Z; frame_esi : Z; frame_ebp : Z; frame_dummy : Z;
  frame_ebx : Z; frame_edx : Z; frame_ecx : Z; frame_eax : Z;
  frame_eip : Z; frame_cs : Z;
  frame_func_id : Z;
  frame_arg0 : Z; frame_arg1 : Z; frame_arg2 : Z; frame_arg3 : Z;
  frame_esp : Z; frame_ss : Z;
}.

Definition frame_zero : syscall_frame_t :=
  mk_frame 0 0 0 0 0 0 0 0 0 0 0 0 0 0 0 0 0 0 0 0 0 0.

Record task_t := mk_task {
  state : task_state;
  name : string;
  pid : Z;
  parent : option tid;
  heap_start : Z;
  heap_end : Z;
  status : Z;
  sleep_ticks : Z;
  time_slice : Z;
  slice_ticks : Z;
  (** fd -> index of the [file_t] in the system file table *)
  file_table : gmap nat nat;
  tss : tss_t;
  tss_sel : Z;
}.

(** What [kernel_memset(task, 0, sizeof(task_t))] leaves behind. *)
Definition task_zero : task_t :=
  mk_task TASK_CREATED EmptyString 0 None 0 0 0 0 0 0 ∅ tss_zero 0.

Definition set_state (v : task_state) (t : task_t) : task_t :=
  mk_task v (name t) (pid t) (parent t) (heap_start t) (heap_end t) (status t)
          (sleep_ticks t) (time_slice t) (slice_ticks t) (file_table t) (tss t) (tss_sel t).
Definition set_name (v : string) (t : task_t) : task_t :=
  mk_task (state t) v (pid t) (parent t) (heap_start t) (heap_end t) (status t)
          (sleep_ticks t) (time_slice t) (slice_ticks t) (file_table t) (tss t) (tss_sel t).
Definition set_pid (v : Z) (t : task_t) : task_t :=
  mk_task (state t) (name t) v (parent t) (heap_start t) (heap_end t) (status t)
          (sleep_ticks t) (time_slice t) (slice_ticks t) (file_table t) (tss t) (tss_sel t).
Definition set_parent (v : option tid) (t : task_t) : task_t :=
  mk_task (state t) (name t) (pid t) v (heap_start t) (heap_end t) (status t)
          (sleep_ticks t) (time_slice t) (slice_ticks t) (file_table t) (tss t) (tss_sel t).
Definition set_heap (hs he : Z) (t : task_t) : task_t :=
  mk_task (state t) (name t) (pid t) (parent t) hs he (status t)
          (sleep_ticks t) (time_slice t) (slice_ticks t) (file_table t) (tss t) (tss_sel t).
Definition set_heap_end (v : Z) (t : task_t) : task_t :=
  set_heap (heap_start t) v t.
Definition set_sleep_ticks (v : Z) (t : task_t) : task_t :=
  mk_task (state t) (name t) (pid t) (parent t) (heap_start t) (heap_end t) (status t)
          v (time_slice t) (slice_ticks t) (file_table t) (tss t) (tss_sel t).
Definition set_slice_ticks (v : Z) (t : task_t) : task_t :=
  mk_task (state t) (name t) (pid t) (parent t) (heap_start t) (heap_end t) (status t)
          (sleep_ticks t) (time_slice t) v (file_table t) (tss t) (tss_sel t).
Definition set_file_table (v : gmap nat nat) (t : task_t) : task_t :=
  mk_task (state t) (name t) (pid t) (parent t) (heap_start t) (heap_end t) (status t)
          (sleep_ticks t) (time_slice t) (slice_ticks t) v (tss t) (tss_sel t).
Definition set_tss (v : tss_t) (t : task_t) : task_t :=
  mk_task (state t) (name t) (pid t) (parent t) (heap_start t) (heap_end t) (status t)
          (sleep_ticks t) (time_slice t) (slice_ticks t) (file_table t) v (tss_sel t).
Definition set_tss_sel (v : Z) (t : task_t) : task_t :=
  mk_task (state t) (name t) (pid t) (parent t) (heap_start t) (heap_end t) (status t)
          (sleep_ticks t) (time_slice t) (slice_ticks t) (file_table t) (tss t) v.

(** cpu.h: a GDT descriptor. *)
Record segment_desc_t := mk_desc {
  limit15_0 : Z; base15_0 : Z; base23_16 : Z; attr : Z; base31_24 : Z;
}.

Definition set_attr (v : Z) (d : segment_desc_t) : segment_desc_t :=
  mk_desc (limit15_0 d) (base15_0 d) (base23_16 d) v (base31_24 d).

(** memory.h: the physical page allocator.  The bitmap is the list of its
    bits, [true] meaning allocated. *)
Record addr_alloc_t := mk_alloc {
  alloc_start : Z;
  alloc_size : Z;
  alloc_page_size : Z;
  bitmap : list bool;
}.

Definition set_bitmap (b : list bool) (a : addr_alloc_t) : addr_alloc_t :=
  mk_alloc (alloc_start a) (alloc_size a) (alloc_page_size a) b.

(** file.h: an entry of the system file table, reduced to what the image
    loader observes (content, position) and the reference count. *)
Record file_t := mk_file {
  f_data : list Z;
  f_pos : Z;
  f_ref : Z;
}.

(** The global state of the kernel. *)
Record kernel := mk_kernel {
  (* task_manager and task_table *)
  curr_task : option tid;
  ready_list : list tid;
  sleep_list : list tid;
  task_list : list tid;
  tasks : gmap nat task_t;
  app_code_sel : Z;
  app_data_sel : Z;
  (* cpu.c *)
  gdt_table : list segment_desc_t;
  cr3_reg : Z;
  (* memory.c *)
  paddr_alloc : addr_alloc_t;
  kernel_page_dir : gmap Z Z;
  (** physical pages used as page directories / page tables:
      page address -> entry index -> 32-bit entry *)
  pages : gmap Z (gmap Z Z);
  (** syscall frames saved on kernel stacks, by frame address *)
  kstack : gmap Z syscall_frame_t;
  (* file layer *)
  disk : gmap string (list Z);
  sys_file_table : gmap nat file_t;
  (** set when an ASSERT fails (the kernel halts there) *)
  panicked : bool;
}.

Definition set_curr_task v (s : kernel) : kernel :=
  mk_kernel v (ready_list s) (sleep_list s) (task_list s) (tasks s)
    (app_code_sel s) (app_data_sel s) (gdt_table s) (cr3_reg s) (paddr_alloc s)
    (kernel_page_dir s) (pages s) (kstack s) (disk s) (sys_file_table s) (panicked s).
Definition set_ready_list v (s : kernel) : kernel :=
  mk_kernel (curr_task s) v (sleep_list s) (task_list s) (tasks s)
    (app_code_sel s) (app_data_sel s) (gdt_table s) (cr3_reg s) (paddr_alloc s)
    (kernel_page_dir s) (pages s) (kstack s) (disk s) (sys_file_table s) (panicked s).
Definition set_sleep_list v (s : kernel) : kernel :=
  mk_kernel (curr_task s) (ready_list s) v (task_list s) (tasks s)
    (app_code_sel s) (app_data_sel s) (gdt_table s) (cr3_reg s) (paddr_alloc s)
    (kernel_page_dir s) (pages s) (kstack s) (disk s) (sys_file_table s) (panicked s).
Definition set_task_list v (s : kernel) : kernel :=
  mk_kernel (curr_task s) (ready_list s) (sleep_list s) v (tasks s)
    (app_code_sel s) (app_data_sel s) (gdt_table s) (cr3_reg s) (paddr_alloc s)
    (kernel_page_dir s) (pages s) (kstack s) (disk s) (sys_file_table s) (panicked s).
Definition set_tasks v (s : kernel) : kernel :=
  mk_kernel (curr_task s) (ready_list s) (sleep_list s) (task_list s) v
    (app_code_sel s) (app_data_sel s) (gdt_table s) (cr3_reg s) (paddr_alloc s)
    (kernel_page_dir s) (pages s) (kstack s) (disk s) (sys_file_table s) (panicked s).
Definition set_gdt_table v (s : kernel) : kernel :=
  mk_kernel (curr_task s) (ready_list s) (sleep_list s) (task_list s) (tasks s)
    (app_code_sel s) (app_data_sel s) v (cr3_reg s) (paddr_alloc s)
    (kernel_page_dir s) (pages s) (kstack s) (disk s) (sys_file_table s) (panicked s).
Definition set_cr3_reg v (s : kernel) : kernel :=
  mk_kernel (curr_task s) (ready_list s) (sleep_list s) (task_list s) (tasks s)
    (app_code_sel s) (app_data_sel s) (gdt_table s) v (paddr_alloc s)
    (kernel_page_dir s) (pages s) (kstack s) (disk s) (sys_file_table s) (panicked s).
Definition set_paddr_alloc v (s : kernel) : kernel :=
  mk_kernel (curr_task s) (ready_list s) (sleep_list s) (task_list s) (tasks s)
    (app_code_sel s) (app_data_sel s) (gdt_table s) (cr3_reg s) v
    (kernel_page_dir s) (pages s) (kstack s) (disk s) (sys_file_table s) (panicked s).
Definition set_pages v (s : kernel) : kernel :=
  mk_kernel (curr_task s) (ready_list s) (sleep_list s) (task_list s) (tasks s)
    (app_code_sel s) (app_data_sel s) (gdt_table s) (cr3_reg s) (paddr_alloc s)
    (kernel_page_dir s) v (kstack s) (disk s) (sys_file_table s) (panicked s).
Definition set_sys_file_table v (s : kernel) : kernel :=
  mk_kernel (curr_task s) (ready_list s) (sleep_list s) (task_list s) (tasks s)
    (app_code_sel s) (app_data_sel s) (gdt_table s) (cr3_reg s) (paddr_alloc s)
    (kernel_page_dir s) (pages s) (kstack s) (disk s) v (panicked s).
Definition set_panicked v (s : kernel) : kernel :=
  mk_kernel (curr_task s) (ready_list s) (sleep_list s) (task_list s) (tasks s)
    (app_code_sel s) (app_data_sel s) (gdt_table s) (cr3_reg s) (paddr_alloc s)
    (kernel_page_dir s) (pages s) (kstack s) (disk s) (sys_file_table s) v.

(** Dereferencing a [task_t *]: every slot always exists; a slot that was
    never written holds zeroes. *)
Definition task_at (s : kernel) (t : tid) : task_t :=
  default task_zero (tasks s !! t).

(** [*task = f( *task )] *)
Definition upd_task (t : tid) (f : task_t -> task_t) (s : kernel) : kernel :=
  set_tasks (<[t := f (task_at s t)]> (tasks s)) s.

(** [ASSERT(b)].  A failed ASSERT ends in [panic], which halts the kernel;
    the model sets [panicked] and lets the function run on.  The flag is
    never cleared, so what a function of the model returns is what the code
    returns only for a run that ends with [panicked] clear. *)
Definition kassert (b : bool) (s : kernel) : kernel :=
  if b then s else set_panicked true s.

(** ** list.c

    A [list_t] is modelled by the sequence of the nodes it links, first to
    last.  A node carries a single [pre]/[next] pair, so it occurs at most
    once in a well-formed list; under that condition [list_remove] deletes
    exactly the given node.  The insertions are exact for a node that is on
    no list: the code overwrites the links of the node it inserts. *)
Module KList.

Definition list_count (l : list tid) : Z := Z.of_nat (length l).
Definition list_first (l : list tid) : option tid := head l.
Definition list_insert_last (l : list tid) (n : tid) : list tid := l ++ [n].
Definition list_remove (l : list tid) (n : tid) : list tid :=
  filter (λ x, x ≠ n) l.
Definition list_remove_first (l : list tid) : option tid * list tid :=
  match l with
  | [] => (None, [])
  | n :: l' => (Some n, l')
  end.

End KList.
Export KList.

(** ** task.c: the scheduler *)

Definition task_current (s : kernel) : option tid := curr_task s.

(** A function that dereferences [task_current()] while no task is current
    dereferences a null pointer; the model records it as a halt. *)
Definition with_current (s : kernel) (f : tid -> kernel) : kernel :=
  match task_current s with
  | Some curr => f curr
  | None => set_panicked true s
  end.

Definition task_set_ready (task : tid) (s : kernel) : kernel :=
  if decide (task ≠ idle_task) then
    upd_task task (set_state TASK_READY)
      (set_ready_list (list_insert_last (ready_list s) task) s)
  else s.

Definition task_set_block (task : tid) (s : kernel) : kernel :=
  if decide (task ≠ idle_task) then
    set_ready_list (list_remove (ready_list s) task) s
  else s.

(** [list_count(&ready_list) == 0] selects the idle task, otherwise the
    owner of [list_first(&ready_list)]. *)
Definition task_next_run (s : kernel) : tid :=
  match ready_list s with
  | [] => idle_task
  | task :: _ => task
  end.

Definition task_set_sleep (task : tid) (ticks : Z) (s : kernel) : kernel :=
  if decide (ticks <= 0) then s
  else
    upd_task task (λ t, set_state TASK_SLEEP (set_sleep_ticks (s32 ticks) t))
      (set_sleep_list (list_insert_last (sleep_list s) task) s).

Definition task_set_wakeup (task : tid) (s : kernel) : kernel :=
  set_sleep_list (list_remove (sleep_list s) task) s.

(** [switch_to_tss(to->tss_sel)]: the far jump makes the CPU load the
    register state saved in the target TSS, CR3 included. *)
Definition task_switch_from_to (to : tid) (s : kernel) : kernel :=
  set_cr3_reg (tss_cr3 (tss (task_at s to))) s.

Definition task_dispatch (s : kernel) : kernel :=
  let to := task_next_run s in
  if decide (Some to ≠ curr_task s) then
    task_switch_from_to to
      (upd_task to (set_state TASK_RUNNING) (set_curr_task (Some to) s))
  else s.

Definition sys_yield (s : kernel) : Z * kernel :=
  (0,
   if decide (list_count (ready_list s) > 1) then
     with_current s (λ curr,
       task_dispatch (task_set_ready curr (task_set_block curr s)))
   else s).

(** One iteration of the sleep-list walk of [task_time_tick]. *)
Definition sleep_tick (s : kernel) (task : tid) : kernel :=
  let n := s32 (sleep_ticks (task_at s task) - 1) in
  let s1 := upd_task task (set_sleep_ticks n) s in
  if decide (n = 0) then task_set_ready task (task_set_wakeup task s1) else s1.

Definition task_time_tick (s : kernel) : kernel :=
  with_current s (λ curr,
    let n := s32 (slice_ticks (task_at s curr) - 1) in
    let s1 := upd_task curr (set_slice_ticks n) s in
    let s2 :=
      if decide (n = 0) then
        task_set_ready curr
          (task_set_block curr
             (upd_task curr (λ t, set_slice_ticks (time_slice t) t) s1))
      else s1 in
    (* the walk reads [next] before it unlinks a node: it visits the nodes
       the sleep list had when the walk started *)
    let s3 := fold_left sleep_tick (sleep_list s2) s2 in
    task_dispatch s3).

(** The tick count [sys_msleep] hands to [task_set_sleep]; [ms] is a
    [uint32_t] and the sum is computed modulo 2^32. *)
Definition msleep_ticks (ms : Z) : Z :=
  let ms := u32 ms in
  let ms := if decide (ms < OS_TICK_MS) then OS_TICK_MS else ms in
  u32 (ms + (OS_TICK_MS - 1)) / OS_TICK_MS.

Definition sys_msleep (ms : Z) (s : kernel) : kernel :=
  with_current s (λ curr,
    task_dispatch (task_set_sleep curr (msleep_ticks ms) (task_set_block curr s))).

(** ** sem.c *)

Record sem_t := mk_sem {
  count : Z;
  wait_list : list tid;
}.

Definition sem_init (init_count : Z) : sem_t := mk_sem init_count [].

Definition sem_wait (sem : sem_t) (s : kernel) : sem_t * kernel :=
  if decide (count sem > 0) then
    (mk_sem (s32 (count sem - 1)) (wait_list sem), s)
  else
    match task_current s with
    | Some curr =>
        (mk_sem (count sem) (list_insert_last (wait_list sem) curr),
         task_dispatch (task_set_block curr s))
    | None => (sem, set_panicked true s)
    end.

Definition sem_notify (sem : sem_t) (s : kernel) : sem_t * kernel :=
  if decide (list_count (wait_list sem) ≠ 0) then
    match list_remove_first (wait_list sem) with
    | (Some task, rest) =>
        (mk_sem (count sem) rest, task_dispatch (task_set_ready task s))
    | (None, rest) => (mk_sem (count sem) rest, set_panicked true s)
    end
  else (mk_sem (s32 (count sem + 1)) (wait_list sem), s).

Definition sem_count (sem : sem_t) : Z := count sem.

(** Whether a call suspends the caller ([sem_wait]) or readies a waiter
    ([sem_notify]). *)
Definition sem_wait_blocks (sem : sem_t) : bool := bool_decide (¬ count sem > 0).
Definition sem_notify_wakes (sem : sem_t) : bool :=
  bool_decide (list_count (wait_list sem) ≠ 0).

(** ** mutex.c *)

Record mutex_t := mk_mutex {
  owner : option tid;
  locked_count : Z;
  mutex_wait_list : list tid;
}.

Definition mutex_init : mutex_t := mk_mutex None 0 [].

(** The caller of [mutex_lock] is suspended exactly on the third branch. *)
Definition mutex_lock_blocks (mutex : mutex_t) (s : kernel) : bool :=
  bool_decide (locked_count mutex ≠ 0 ∧ owner mutex ≠ task_current s).

Definition mutex_lock (mutex : mutex_t) (s : kernel) : mutex_t * kernel :=
  let curr := task_current s in
  if decide (locked_count mutex = 0) then
    (mk_mutex curr (s32 (locked_count mutex + 1)) (mutex_wait_list mutex), s)
  else if decide (owner mutex = curr) then
    (mk_mutex (owner mutex) (s32 (locked_count mutex + 1)) (mutex_wait_list mutex), s)
  else
    match curr with
    | Some c =>
        (mk_mutex (owner mutex) (locked_count mutex)
           (list_insert_last (mutex_wait_list mutex) c),
         task_dispatch (task_set_block c s))
    | None => (mutex, set_panicked true s)
    end.

Definition mutex_unlock (mutex : mutex_t) (s : kernel) : mutex_t * kernel :=
  let curr := task_current s in
  if decide (owner mutex = curr) then
    let n := s32 (locked_count mutex - 1) in
    if decide (n = 0) then
      if decide (list_count (mutex_wait_list mutex) ≠ 0) then
        match list_remove_first (mutex_wait_list mutex) with
        | (Some task, rest) =>
            (mk_mutex (Some task) 1 rest, task_dispatch (task_set_ready task s))
        | (None, rest) => (mk_mutex None n rest, set_panicked true s)
        end
      else (mk_mutex None n (mutex_wait_list mutex), s)
    else (mk_mutex (owner mutex) n (mutex_wait_list mutex), s)
  else (mutex, s).

(** ** tty.c: the input path *)

Record tty_fifo_t := mk_fifo {
  fifo_buf : list Z;
  fifo_size : Z;
  fifo_read : Z;
  fifo_write : Z;
  fifo_count : Z;
}.

Record tty_t := mk_tty {
  ofifo : tty_fifo_t;
  osem : sem_t;
  ififo : tty_fifo_t;
  isem : sem_t;
  console_idx : Z;
  iflags : Z;
  oflags : Z;
}.

Definition set_input (f : tty_fifo_t) (sem : sem_t) (tty : tty_t) : tty_t :=
  mk_tty (ofifo tty) (osem tty) f sem (console_idx tty) (iflags tty) (oflags tty).

Record tty_sys := mk_tty_sys {
  tty_devs : list tty_t;
  curr_tty : nat;
}.

Definition tty_fifo_init (buf : list Z) (size : Z) : tty_fifo_t :=
  mk_fifo buf size 0 0 0.

(** Returns the status (0 or -1) and the fifo. *)
Definition tty_fifo_put (fifo : tty_fifo_t) (c : Z) : Z * tty_fifo_t :=
  if decide (fifo_count fifo >= fifo_size fifo) then (-1, fifo)
  else
    let buf := <[Z.to_nat (fifo_write fifo) := c]> (fifo_buf fifo) in
    let w := fifo_write fifo + 1 in
    let w := if decide (w >= fifo_size fifo) then 0 else w in
    (0, mk_fifo buf (fifo_size fifo) (fifo_read fifo) w (fifo_count fifo + 1)).

(** Returns the status, the byte read (if any) and the fifo. *)
Definition tty_fifo_get (fifo : tty_fifo_t) : Z * option Z * tty_fifo_t :=
  if decide (fifo_count fifo <= 0) then (-1, None, fifo)
  else
    let c := fifo_buf fifo !! Z.to_nat (fifo_read fifo) in
    let r := fifo_read fifo + 1 in
    let r := if decide (r >= fifo_size fifo) then 0 else r in
    (0, c, mk_fifo (fifo_buf fifo) (fifo_size fifo) r (fifo_write fifo) (fifo_count fifo - 1)).

(** [tty_in] on the focused terminal. *)
Definition tty_in_dev `{Layout} (ch : Z) (tty : tty_t) (s : kernel) : tty_t * kernel :=
  if decide (sem_count (isem tty) >= TTY_IBUF_SIZE) then (tty, s)
  else
    let '(_, fifo) := tty_fifo_put (ififo tty) ch in
    let '(sem, s') := sem_notify (isem tty) s in
    (set_input fifo sem tty, s').

Definition tty_in `{Layout} (ch : Z) (ts : tty_sys) (s : kernel) : tty_sys * kernel :=
  match tty_devs ts !! curr_tty ts with
  | Some tty =>
      let '(tty', s') := tty_in_dev ch tty s in
      (mk_tty_sys (<[curr_tty ts := tty']> (tty_devs ts)) (curr_tty ts), s')
  | None => (ts, s)
  end.

(** ** cpu.c: the descriptor table *)

Definition segment_desc_set (selector base limit attr0 : Z) (s : kernel) : kernel :=
  let big := bool_decide (limit > 1048575) in
  let attr1 := if big then u16 (Z.lor attr0 32768) else attr0 in
  let limit1 := if big then limit / 4096 else limit in
  let desc :=
    mk_desc (Z.land limit1 65535)
            (Z.land base 65535)
            (Z.land (Z.shiftr base 16) 255)
            (u16 (Z.lor attr1 (Z.shiftl (Z.land (Z.shiftr limit1 16) 15) 8)))
            (Z.land (Z.shiftr base 24) 255) in
  set_gdt_table (<[Z.to_nat (Z.shiftr selector 3) := desc]> (gdt_table s)) s.

(** [gdt_table[sel / sizeof(segment_desc_t)].attr = 0] *)
Definition gdt_free_sel (sel : Z) (s : kernel) : kernel :=
  set_gdt_table (alter (set_attr 0) (Z.to_nat (u32 sel / 8)) (gdt_table s)) s.

(** The scan starts at slot 1 (slot 0 is reserved by the CPU) and stops at
    the end of the table; the result is the selector, or -1. *)
Definition gdt_alloc_desc (s : kernel) : Z * kernel :=
  match list_find (λ d, attr d = 0) (drop 1 (gdt_table s)) with
  | Some (k, _) =>
      let i := S k in
      (Z.of_nat i * 8,
       set_gdt_table (alter (set_attr SEG_P_PRESENT) i (gdt_table s)) s)
  | None => (-1, s)
  end.

(** ** memory.c *)

(** Modelled from the spec: bitmap.c is not part of the sources.  The
    allocation "scans the bitmap for the lowest n consecutive clear bits,
    sets them", and yields the index of the first one; deallocation "clears
    the corresponding bits".  Bits outside the bitmap are never written. *)
Fixpoint bitmap_set_bit (bits : list bool) (index count : nat) (bit : bool) : list bool :=
  match count with
  | O => bits
  | S c => bitmap_set_bit (<[index := bit]> bits) (S index) c bit
  end.

Definition run_is_clear (bits : list bool) (n : nat) : bool :=
  bool_decide (take n bits = replicate n false).

Fixpoint bitmap_lowest_run (bits : list bool) (n : nat) : option nat :=
  match bits with
  | [] => None
  | _ :: rest =>
      if run_is_clear bits n then Some O else S <$> bitmap_lowest_run rest n
  end.

Definition bitmap_alloc_nbits (bits : list bool) (n : nat) : option (nat * list bool) :=
  match bitmap_lowest_run bits n with
  | Some i => Some (i, bitmap_set_bit bits i n true)
  | None => None
  end.

(** Modelled from the spec: klib.h is not part of the sources; [down2] and
    [up2] round a 32-bit value down and up to a multiple of [bound] (a power
    of two), as the page counts of the spec require ("rounded down to a
    page", "ceil(p_memsz / 4 KiB) pages"). *)
Definition down2 (size bound : Z) : Z := size - size mod bound.
Definition up2 (size bound : Z) : Z := down2 (u32 (size + bound - 1)) bound.

(** In [addr_alloc_page] and [addr_free_page] the allocator's mutex brackets
    the bitmap update.  Every call of the model runs to completion, so the
    mutex is free on entry and is left free (see [mutex_lock_unlock_free]). *)
Definition addr_alloc_page (page_count : nat) (s : kernel) : Z * kernel :=
  let a := paddr_alloc s in
  match bitmap_alloc_nbits (bitmap a) page_count with
  | Some (page_index, bits) =>
      (u32 (alloc_start a + Z.of_nat page_index * alloc_page_size a),
       set_paddr_alloc (set_bitmap bits a) s)
  | None => (0, s)
  end.

Definition addr_free_page (addr : Z) (page_count : nat) (s : kernel) : kernel :=
  let a := paddr_alloc s in
  let page_index := u32 (addr - alloc_start a) / alloc_page_size a in
  set_paddr_alloc
    (set_bitmap (bitmap_set_bit (bitmap a) (Z.to_nat page_index) page_count false) a) s.

(** Page-directory and page-table entries (mmu.h). *)
Definition pde_index (vaddr : Z) : Z := Z.land (Z.shiftr vaddr 22) 1023.
Definition pte_index (vaddr : Z) : Z := Z.land (Z.shiftr vaddr 12) 1023.
Definition present (v : Z) : bool := Z.testbit v 0.
Definition pde_paddr (v : Z) : Z := Z.shiftl (Z.shiftr v 12) 12.
Definition pte_paddr (v : Z) : Z := Z.shiftl (Z.shiftr v 12) 12.
Definition get_pte_perm (v : Z) : Z := Z.land v 511.

(** The 32-bit word [v] of entry [idx] of the table in page [pg]. *)
Definition entry_at (s : kernel) (pg idx : Z) : Z :=
  default 0 (pages s !! pg ≫= λ tbl, tbl !! idx).

Definition write_entry (pg idx v : Z) (s : kernel) : kernel :=
  set_pages (<[pg := <[idx := v]> (default ∅ (pages s !! pg))]> (pages s)) s.

(** [kernel_memset(page, 0, MEM_PAGE_SIZE)] *)
Definition clear_page (pg : Z) (s : kernel) : kernel :=
  set_pages (<[pg := ∅]> (pages s)) s.

(** Returns the entry found, as (table page, index).  The pointer
    [pte_table + pte_index(vaddr)] of the code is the null pointer for a
    table at address 0 and index 0, which its callers take for a failure;
    the model is exact for a table at any other address. *)
Definition find_pte (page_dir vaddr : Z) (alloc : bool) (s : kernel)
  : option (Z * Z) * kernel :=
  let pde := entry_at s page_dir (pde_index vaddr) in
  if present pde then (Some (pde_paddr pde, pte_index vaddr), s)
  else if negb alloc then (None, s)
  else
    let '(pg_paddr, s1) := addr_alloc_page 1 s in
    if decide (pg_paddr = 0) then (None, s1)
    else
      let s2 := write_entry page_dir (pde_index vaddr)
                  (Z.lor pg_paddr (Z.lor (Z.lor PDE_P PDE_W) PDE_U)) s1 in
      (Some (pg_paddr, pte_index vaddr), clear_page pg_paddr s2).

Fixpoint memory_create_map (page_dir vaddr paddr : Z) (count : nat) (perm : Z)
    (s : kernel) {struct count} : Z * kernel :=
  match count with
  | O => (0, s)
  | S n =>
      match find_pte page_dir vaddr true s with
      | (None, s1) => (-1, s1)
      | (Some (tbl, idx), s1) =>
          let s2 := kassert (negb (present (entry_at s1 tbl idx))) s1 in
          let s3 := write_entry tbl idx (Z.lor (Z.lor paddr perm) PTE_P) s2 in
          memory_create_map page_dir (u32 (vaddr + MEM_PAGE_SIZE))
            (u32 (paddr + MEM_PAGE_SIZE)) n perm s3
      end
  end.

Definition memory_create_uvm (s : kernel) : Z * kernel :=
  let '(page_dir, s1) := addr_alloc_page 1 s in
  if decide (page_dir = 0) then (0, s1)
  else
    let s2 := clear_page page_dir s1 in
    let user_pde_start := pde_index MEMORY_TASK_BASE in
    (page_dir,
     fold_left
       (λ st i, write_entry page_dir i (default 0 (kernel_page_dir st !! i)) st)
       (seqZ 0 user_pde_start) s2).

(** The inner loop of [memory_destroy_uvm]: frees every present leaf page of
    one page table. *)
Definition destroy_table (tbl : Z) (s : kernel) : kernel :=
  fold_left
    (λ st j,
       let pte := entry_at st tbl j in
       if present pte then addr_free_page (pte_paddr pte) 1 st else st)
    (seqZ 0 (Z.of_nat PTE_CNT)) s.

Definition memory_destroy_uvm (page_dir : Z) (s : kernel) : kernel :=
  let user_pde_start := pde_index MEMORY_TASK_BASE in
  let s0 := kassert (bool_decide (page_dir ≠ 0)) s in
  let s1 :=
    fold_left
      (λ st i,
         let pde := entry_at st page_dir i in
         if present pde then
           addr_free_page (pde_paddr pde) 1 (destroy_table (pde_paddr pde) st)
         else st)
      (seqZ user_pde_start (Z.of_nat PDE_CNT - user_pde_start)) s0 in
  addr_free_page page_dir 1 s1.

(** One leaf of [memory_copy_uvm]: [false] stands for [goto copy_uvm_failed].
    The page content copied by [kernel_memcpy] is not part of the model. *)
Definition copy_pte (to_page_dir tbl i : Z) (acc : bool * kernel) (j : Z) : bool * kernel :=
  let '(ok, s) := acc in
  if negb ok then acc
  else
    let pte := entry_at s tbl j in
    if negb (present pte) then acc
    else
      let '(page, s1) := addr_alloc_page 1 s in
      if decide (page = 0) then (false, s1)
      else
        let vaddr := u32 (Z.lor (Z.shiftl i 22) (Z.shiftl j 12)) in
        let '(err, s2) := memory_create_map to_page_dir vaddr page 1 (get_pte_perm pte) s1 in
        if decide (err < 0) then (false, s2) else (true, s2).

Definition copy_pde (page_dir to_page_dir : Z) (acc : bool * kernel) (i : Z) : bool * kernel :=
  let '(ok, s) := acc in
  if negb ok then acc
  else
    let pde := entry_at s page_dir i in
    if negb (present pde) then acc
    else
      fold_left (copy_pte to_page_dir (pde_paddr pde) i)
        (seqZ 0 (Z.of_nat PTE_CNT)) (true, s).

(** The result is a [uint32_t]: the failure value [-1] reads 0xFFFFFFFF. *)
Definition memory_copy_uvm (page_dir : Z) (s : kernel) : Z * kernel :=
  let '(to_page_dir, s1) := memory_create_uvm s in
  if decide (to_page_dir = 0) then (u32 (-1), s1)
  else
    let user_pde_start := pde_index MEMORY_TASK_BASE in
    let '(ok, s2) :=
      fold_left (copy_pde page_dir to_page_dir)
        (seqZ user_pde_start (Z.of_nat PDE_CNT - user_pde_start)) (true, s1) in
    if ok then (to_page_dir, s2)
    else (u32 (-1), memory_destroy_uvm to_page_dir s2).

Definition memory_get_paddr (page_dir vaddr : Z) (s : kernel) : Z :=
  match fst (find_pte page_dir vaddr false s) with
  | None => 0
  | Some (tbl, idx) =>
      u32 (pte_paddr (entry_at s tbl idx) + Z.land vaddr (MEM_PAGE_SIZE - 1))
  end.

(** The loop of [memory_copy_uvm_data]; only the address translation is
    modelled, the bytes are not.  Every round consumes at least one byte, so
    [Z.to_nat size] rounds always suffice. *)
Fixpoint memory_copy_uvm_data_loop (rounds : nat) (to page_dir from size : Z)
    (s : kernel) : Z :=
  if decide (size > 0) then
    match rounds with
    | O => 0
    | S r =>
        let to_paddr := memory_get_paddr page_dir to s in
        if decide (to_paddr = 0) then -1
        else
          let offset_in_page := Z.land to_paddr (MEM_PAGE_SIZE - 1) in
          let curr_size := MEM_PAGE_SIZE - offset_in_page in
          let curr_size := if decide (curr_size > size) then size else curr_size in
          memory_copy_uvm_data_loop r (u32 (to + curr_size)) page_dir
            (u32 (from + curr_size)) (size - curr_size) s
    end
  else 0.


(** The loop of [memory_alloc_for_page_dir], [i] counting the rounds done. *)
Fixpoint memory_alloc_loop (page_dir vaddr curr_vaddr : Z) (i rounds : nat) (perm : Z)
    (s : kernel) {struct rounds} : Z * kernel :=
  match rounds with
  | O => (0, s)
  | S r =>
      let '(paddr, s1) := addr_alloc_page 1 s in
      if decide (paddr = 0) then (0, s1)
      else
        let '(err, s2) := memory_create_map page_dir curr_vaddr paddr 1 perm s1 in
        if decide (err < 0) then (u32 (-1), addr_free_page vaddr (i + 1) s2)
        else
          memory_alloc_loop page_dir vaddr (u32 (curr_vaddr + MEM_PAGE_SIZE))
            (S i) r perm s2
  end.

(** Returns a [uint32_t]. *)
Definition memory_alloc_for_page_dir (page_dir vaddr size perm : Z) (s : kernel)
  : Z * kernel :=
  let page_count := up2 size MEM_PAGE_SIZE / MEM_PAGE_SIZE in
  memory_alloc_loop page_dir (down2 vaddr MEM_PAGE_SIZE) vaddr 0
    (Z.to_nat (s32 page_count)) perm s.

(** Returns an [int]. *)
Definition memory_alloc_page_for (addr size perm : Z) (s : kernel) : Z * kernel :=
  match task_current s with
  | Some curr =>
      let '(r, s1) :=
        memory_alloc_for_page_dir (tss_cr3 (tss (task_at s curr))) addr size perm s in
      (s32 r, s1)
  | None => (-1, set_panicked true s)
  end.

Definition memory_alloc_page (s : kernel) : Z * kernel := addr_alloc_page 1 s.

Definition memory_free_page (addr : Z) (s : kernel) : kernel :=
  if decide (addr < MEMORY_TASK_BASE) then addr_free_page addr 1 s
  else
    match task_current s with
    | Some curr =>
        match fst (find_pte (tss_cr3 (tss (task_at s curr))) addr false s) with
        | Some (tbl, idx) =>
            let pte := entry_at s tbl idx in
            let s1 := kassert (present pte) s in
            write_entry tbl idx 0 (addr_free_page (pte_paddr pte) 1 s1)
        | None => set_panicked true s
        end
    | None => set_panicked true s
    end.

(** [sys_sbrk]; the result is the [char *] returned, as a 32-bit value, so
    the error sentinel [(char * )-1] reads 0xFFFFFFFF. *)
Definition SBRK_FAILED : Z := u32 (-1).

(** The part of [sys_sbrk] after the partial first page has been dealt with. *)
Definition sbrk_pages (task : tid) (pre_heap_end end_ start incr : Z) (s : kernel)
  : Z * kernel :=
  if decide (incr ≠ 0) then
    let curr_size := u32 (end_ - start) in
    let '(err, s1) :=
      memory_alloc_page_for start curr_size (Z.lor (Z.lor PTE_P PTE_U) PTE_W) s in
    if decide (err < 0) then (SBRK_FAILED, s1)
    else (pre_heap_end, upd_task task (set_heap_end end_) s1)
  else (pre_heap_end, upd_task task (set_heap_end end_) s).

Definition sys_sbrk (incr : Z) (s : kernel) : Z * kernel :=
  match task_current s with
  | None => (SBRK_FAILED, set_panicked true s)
  | Some task =>
      let pre_heap_end := heap_end (task_at s task) in
      let s0 := kassert (bool_decide (incr >= 0)) s in
      if decide (incr = 0) then (pre_heap_end, s0)
      else
        let start := heap_end (task_at s0 task) in
        let end_ := u32 (start + incr) in
        let start_offset := start mod MEM_PAGE_SIZE in
        if decide (start_offset ≠ 0) then
          if decide (start_offset + incr <= MEM_PAGE_SIZE) then
            (pre_heap_end, upd_task task (set_heap_end end_) s0)
          else
            let curr_size := MEM_PAGE_SIZE - start_offset in
            sbrk_pages task pre_heap_end end_ (u32 (start + curr_size))
              (s32 (incr - curr_size)) s0
        else sbrk_pages task pre_heap_end end_ start incr s0
  end.

(** ** file.c and the per-task file table (task.c) *)

Definition file_zero : file_t := mk_file [] 0 0.

Definition file_at (s : kernel) (f : nat) : file_t :=
  default file_zero (sys_file_table s !! f).

Definition upd_file (f : nat) (g : file_t -> file_t) (s : kernel) : kernel :=
  set_sys_file_table (<[f := g (file_at s f)]> (sys_file_table s)) s.

Definition file_alloc `{Layout} (s : kernel) : option nat * kernel :=
  match find (λ i, bool_decide (f_ref (file_at s i) = 0)) (seq 0 FILE_TABLE_SIZE) with
  | Some i => (Some i, upd_file i (λ _, mk_file [] 0 1) s)
  | None => (None, s)
  end.

Definition file_free (f : nat) (s : kernel) : kernel :=
  if decide (f_ref (file_at s f) ≠ 0) then
    upd_file f (λ x, mk_file (f_data x) (f_pos x) (s32 (f_ref x - 1))) s
  else s.

Definition file_inc_ref (f : nat) (s : kernel) : kernel :=
  upd_file f (λ x, mk_file (f_data x) (f_pos x) (s32 (f_ref x + 1))) s.

Definition task_file (fd : Z) (s : kernel) : option nat :=
  if decide (fd >= 0 ∧ fd < Z.of_nat TASK_OFILE_NR) then
    match task_current s with
    | Some curr => file_table (task_at s curr) !! Z.to_nat fd
    | None => None
    end
  else None.

Definition task_alloc_fd (file : nat) (s : kernel) : Z * kernel :=
  match task_current s with
  | Some task =>
      match find (λ i, bool_decide (file_table (task_at s task) !! i = None))
                 (seq 0 TASK_OFILE_NR) with
      | Some i =>
          (Z.of_nat i,
           upd_task task (λ t, set_file_table (<[i := file]> (file_table t)) t) s)
      | None => (-1, s)
      end
  | None => (-1, set_panicked true s)
  end.

Definition task_remove_fd (fd : Z) (s : kernel) : kernel :=
  if decide (fd >= 0 ∧ fd < Z.of_nat TASK_OFILE_NR) then
    with_current s (λ curr,
      upd_task curr (λ t, set_file_table (delete (Z.to_nat fd) (file_table t)) t) s)
  else s.


Definition sys_read (fd len : Z) (s : kernel) : Z * list Z * kernel :=
  match task_file fd s with
  | None => (-1, [], s)
  | Some f =>
      let file := file_at s f in
      let bytes := take (Z.to_nat len) (drop (Z.to_nat (f_pos file)) (f_data file)) in
      let n := Z.of_nat (length bytes) in
      (n, bytes, upd_file f (λ x, mk_file (f_data x) (f_pos x + n) (f_ref x)) s)
  end.

Definition sys_lseek (fd offset whence : Z) (s : kernel) : Z * kernel :=
  match task_file fd s with
  | None => (-1, s)
  | Some f => (0, upd_file f (λ x, mk_file (f_data x) offset (f_ref x)) s)
  end.

Definition sys_close (fd : Z) (s : kernel) : Z * kernel :=
  match task_file fd s with
  | None => (-1, s)
  | Some f => (0, task_remove_fd fd (file_free f s))
  end.

(** Modelled from the spec: klib.c is not part of the sources.  A task name
    is a "short null-terminated identifier (≤ 32 bytes)": [kernel_strncpy]
    keeps at most [size - 1] characters of the source.  [get_file_name]
    yields the last component of a path, the whole path when it has no
    slash. *)
Definition kernel_strncpy (src : string) (size : nat) : string :=
  substring 0 (size - 1) src.



(** ** task.c: task life cycle *)

Definition tss_init `{Layout} (task : tid) (flag entry esp : Z) (s : kernel) : Z * kernel :=
  let '(tss_sel, s1) := gdt_alloc_desc s in
  if decide (tss_sel < 0) then (-1, s1)
  else
    let s2 := segment_desc_set tss_sel (tss_addr task) SIZEOF_TSS
                (Z.lor (Z.lor SEG_P_PRESENT SEG_DPL0) SEG_TYPE_TSS) s1 in
    let s3 := upd_task task (set_tss tss_zero) s2 in
    let '(kernel_stack, s4) := memory_alloc_page s3 in
    if decide (kernel_stack = 0) then
      (* tss_init_failed, no kernel stack to free *)
      (-1, gdt_free_sel tss_sel s4)
    else
      let system := bool_decide (Z.land flag TASK_FLAG_SYSTEM ≠ 0) in
      let code_sel :=
        if system then Z.lor KERNEL_SELECTOR_CS SEG_CPL0
        else Z.lor (app_code_sel s4) SEG_CPL3 in
      let data_sel :=
        if system then Z.lor KERNEL_SELECTOR_DS SEG_CPL0
        else Z.lor (app_data_sel s4) SEG_CPL3 in
      let stack0 := u32 (kernel_stack + MEM_PAGE_SIZE) in
      let t0 :=
        mk_tss stack0 KERNEL_SELECTOR_DS 0
               entry (Z.lor EFLAGS_DEFAULT EFLAGS_IF)
               0 0 0 0 (if decide (esp ≠ 0) then esp else stack0) 0 0 0
               data_sel code_sel data_sel data_sel data_sel data_sel 0 in
      let s5 := upd_task task (set_tss t0) s4 in
      let '(page_dir, s6) := memory_create_uvm s5 in
      if decide (page_dir = 0) then
        (* tss_init_failed *)
        (-1, memory_free_page kernel_stack (gdt_free_sel tss_sel s6))
      else
        (0, upd_task task
              (λ t, set_tss_sel (u16 tss_sel) (set_tss (tss_set_cr3 page_dir (tss t)) t))
              s6).

Definition task_init `{Layout} (task : tid) (nm : string) (flag entry esp : Z)
    (s : kernel) : Z * kernel :=
  let '(err, s1) := tss_init task flag entry esp s in
  if decide (err < 0) then (err, s1)
  else
    let s2 :=
      upd_task task
        (λ t, mk_task TASK_CREATED (kernel_strncpy nm TASK_NAME_SIZE)
                (s32 (task_addr task)) None 0 0 (status t)
                0 TASK_TIME_SLICE_DEFAULT TASK_TIME_SLICE_DEFAULT ∅
                (tss t) (tss_sel t)) s1 in
    (0, set_task_list (list_insert_last (task_list s2) task) s2).

Definition task_start (task : tid) (s : kernel) : kernel := task_set_ready task s.

Definition task_uninit (task : tid) (s : kernel) : kernel :=
  let t := task_at s task in
  let s1 := if decide (tss_sel t ≠ 0) then gdt_free_sel (tss_sel t) s else s in
  let s2 :=
    if decide (tss_esp0 (tss t) ≠ 0) then
      memory_free_page (u32 (tss_esp0 (tss t) - MEM_PAGE_SIZE)) s1
    else s1 in
  let s3 :=
    if decide (tss_cr3 (tss t) ≠ 0) then memory_destroy_uvm (tss_cr3 (tss t)) s2
    else s2 in
  upd_task task (λ _, task_zero) s3.

(** A slot of [task_table] is free when [name[0] == 0]. *)
Definition alloc_task (s : kernel) : option tid :=
  task_table <$>
    find (λ i, bool_decide (name (task_at s (task_table i)) = EmptyString))
         (seq 0 TASK_NR).

(** [task->name[0] = 0] *)
Definition free_task (task : tid) (s : kernel) : kernel :=
  upd_task task (set_name EmptyString) s.

Definition copy_opened_files (child_task : tid) (s : kernel) : kernel :=
  with_current s (λ parent_task,
    fold_left
      (λ st i,
         match file_table (task_at st parent_task) !! i with
         | Some file =>
             upd_task child_task
               (λ t, set_file_table (<[i := file]> (file_table t)) t)
               (file_inc_ref file st)
         | None => st
         end)
      (seq 0 TASK_OFILE_NR) s).

(** The frame the system-call entry pushed on the kernel stack of a task. *)
Definition frame_addr (s : kernel) (task : tid) : Z :=
  u32 (tss_esp0 (tss (task_at s task)) - SIZEOF_SYSCALL_FRAME).

Definition frame_of (s : kernel) (task : tid) : syscall_frame_t :=
  default frame_zero (kstack s !! frame_addr s task).

(** The registers [sys_fork] copies from the parent's frame into the child's
    TSS; [eax] is the child's return value. *)
Definition fork_tss (frame : syscall_frame_t) (t : tss_t) : tss_t :=
  mk_tss (tss_esp0 t) (tss_ss0 t) (tss_cr3 t) (tss_eip t) (frame_eflags frame)
         0 (frame_ecx frame) (frame_edx frame) (frame_ebx frame)
         (tss_esp t) (frame_ebp frame) (frame_esi frame) (frame_edi frame)
         (frame_es frame) (frame_cs frame) (tss_ss t) (frame_ds frame)
         (frame_fs frame) (frame_gs frame) (tss_iomap t).

(** [fork_failed:] *)
Definition fork_failed (child_task : option tid) (s : kernel) : Z * kernel :=
  match child_task with
  | Some child => (-1, free_task child (task_uninit child s))
  | None => (-1, s)
  end.

Definition sys_fork `{Layout} (s : kernel) : Z * kernel :=
  match task_current s with
  | None => (-1, set_panicked true s)
  | Some parent_task =>
      match alloc_task s with
      | None => fork_failed None s
      | Some child_task =>
          let frame := frame_of s parent_task in
          let '(err, s1) :=
            task_init child_task (name (task_at s parent_task)) 0 (frame_eip frame)
              (u32 (frame_esp frame + 4 * SYSCALL_PARAM_COUNT)) s in
          if decide (err < 0) then fork_failed (Some child_task) s1
          else
            let s2 := copy_opened_files child_task s1 in
            let s3 := upd_task child_task (λ t, set_tss (fork_tss frame (tss t)) t) s2 in
            let s4 := upd_task child_task (set_parent (Some parent_task)) s3 in
            let '(cr3, s5) := memory_copy_uvm (tss_cr3 (tss (task_at s4 parent_task))) s4 in
            let s6 := upd_task child_task (λ t, set_tss (tss_set_cr3 cr3 (tss t)) t) s5 in
            (* the value of the assignment has the type of [tss.cr3], an
               unsigned 32-bit integer, and is compared with 0 as such *)
            if decide (u32 (tss_cr3 (tss (task_at s6 child_task))) < 0) then
              fork_failed (Some child_task) s6
            else
              (pid (task_at s6 child_task), task_start child_task s6)
      end
  end.

(** One pass of the [for (;;)] loop of [sys_wait]: either a zombie child is
    reaped and the call returns, or the caller is suspended in state
    [TASK_WAITING]; when it runs again it starts the next pass. *)
Inductive wait_result :=
  | WaitReaped (child_pid child_status : Z)
  | WaitBlocked.

Definition sys_wait (s : kernel) : wait_result * kernel :=
  match task_current s with
  | None => (WaitBlocked, set_panicked true s)
  | Some curr =>
      match find (λ i, bool_decide (parent (task_at s (task_table i)) = Some curr
                                    ∧ state (task_at s (task_table i)) = TASK_ZOMBIE))
                 (seq 0 TASK_NR) with
      | Some i =>
          let task := task_table i in
          let t := task_at s task in
          let s1 := memory_destroy_uvm (tss_cr3 (tss t)) s in
          let s2 := memory_free_page (u32 (tss_esp0 (tss t) - MEM_PAGE_SIZE)) s1 in
          let s3 := upd_task task (λ _, task_zero) s2 in
          (WaitReaped (pid t) (status t), s3)
      | None =>
          (WaitBlocked,
           task_dispatch (upd_task curr (set_state TASK_WAITING) (task_set_block curr s)))
      end
  end.

(** ** elf.h and the image loader (task.c) *)







(** The read loop of [load_phdr]; the bytes land in physical pages, which
    the model does not hold.  Every round but the last consumes a full page,
    so [size / MEM_PAGE_SIZE + 1] rounds always suffice. *)
Fixpoint load_phdr_loop (rounds : nat) (file page_dir vaddr size : Z) (s : kernel)
  : Z * kernel :=
  if decide (size > 0) then
    match rounds with
    | O => (0, s)
    | S r =>
        let curr_size := if decide (size > MEM_PAGE_SIZE) then MEM_PAGE_SIZE else size in
        let '(cnt, _, s1) := sys_read file curr_size s in
        if decide (cnt < curr_size) then (-1, s1)
        else
          load_phdr_loop r file page_dir (u32 (vaddr + curr_size)) (size - curr_size) s1
    end
  else (0, s).















(** * Further parts of the kernel *)

(** ** list.c: the nodes and their links

    The queue operations of the scheduler above work on the sequence of the
    linked nodes.  Here list.c is followed statement by statement on the
    memory that holds the nodes: a node is known by its address, the null
    pointer is 0, and a [heap] maps the address of a node to its two links.
    The header tools/list.h is not part of the sources: the structures
    [list_t] ([first], [last], [count]) and [list_node_t] ([pre], [next]) are
    read off the member accesses of list.c; [list_is_empty] is taken to test
    the element counter, the field task.c reads through [list_count], and the
    counter to be an [int]. *)
Module DList.

Record list_node_t := mk_node { pre : Z; next : Z }.

Record list_t := mk_list { first : Z; last : Z; count : Z }.

Abbreviation heap := (gmap Z list_node_t).

Definition node_zero : list_node_t := mk_node 0 0.

Definition node_at (h : heap) (p : Z) : list_node_t := default node_zero (h !! p).

(** [p->pre = v] and [p->next = v] *)
Definition set_pre (p v : Z) (h : heap) : heap :=
  <[p := mk_node v (next (node_at h p))]> h.
Definition set_next (p v : Z) (h : heap) : heap :=
  <[p := mk_node (pre (node_at h p)) v]> h.

Definition list_is_empty (l : list_t) : bool := bool_decide (count l = 0).

Definition list_init : list_t := mk_list 0 0 0.

Definition list_insert_first (l : list_t) (node : Z) (h : heap) : list_t * heap :=
  let h1 := set_pre node 0 (set_next node (first l) h) in
  if list_is_empty l then (mk_list node node (s32 (count l + 1)), h1)
  else (mk_list node (last l) (s32 (count l + 1)), set_pre (first l) node h1).

Definition list_insert_last (l : list_t) (node : Z) (h : heap) : list_t * heap :=
  let h1 := set_next node 0 (set_pre node (last l) h) in
  if list_is_empty l then (mk_list node node (s32 (count l + 1)), h1)
  else (mk_list (first l) node (s32 (count l + 1)), set_next (last l) node h1).

(** Returns the node removed (0 for an empty list), the list and the heap. *)
Definition list_remove_first (l : list_t) (h : heap) : Z * list_t * heap :=
  if list_is_empty l then (0, l, h)
  else
    let remove_node := first l in
    let first1 := next (node_at h remove_node) in
    let last1 := if decide (first1 = 0) then 0 else last l in
    let h1 := if decide (first1 = 0) then h else set_pre first1 0 h in
    let h2 := set_next remove_node 0 (set_pre remove_node 0 h1) in
    (remove_node, mk_list first1 last1 (s32 (count l - 1)), h2).

(** Every pointer expression reads the memory as the statements before it
    left it. *)
Definition list_remove (l : list_t) (remove_node : Z) (h : heap) : Z * list_t * heap :=
  let first1 :=
    if decide (remove_node = first l) then next (node_at h remove_node) else first l in
  let last1 :=
    if decide (remove_node = last l) then pre (node_at h remove_node) else last l in
  let h1 :=
    if decide (pre (node_at h remove_node) ≠ 0) then
      set_next (pre (node_at h remove_node)) (next (node_at h remove_node)) h
    else h in
  let h2 :=
    if decide (next (node_at h1 remove_node) ≠ 0) then
      set_pre (next (node_at h1 remove_node)) (pre (node_at h1 remove_node)) h1
    else h1 in
  let h3 := set_pre remove_node 0 (set_next remove_node 0 h2) in
  (remove_node, mk_list first1 last1 (s32 (count l - 1)), h3).

End DList.

(** ** task.c: [sys_exit] *)

(** The loop that closes the files of the exiting task. *)
Definition exit_close_files (curr : tid) (s : kernel) : kernel :=
  fold_left
    (λ st fd,
       match file_table (task_at st curr) !! fd with
       | Some _ =>
           upd_task curr (λ t, set_file_table (delete fd (file_table t)) t)
             (sys_close (Z.of_nat fd) st).2
       | None => st
       end)
    (seq 0 TASK_OFILE_NR) s.

(** The loop that hands the children of the exiting task over to the first
    task; the flag tells whether one of them is a zombie.  Its bound is
    written [TASK_OFILE_NR] in the source. *)
Definition exit_move_children (curr : tid) (s : kernel) : kernel * bool :=
  fold_left
    (λ '(st, move_child) i,
       let task := task_table i in
       if decide (parent (task_at st task) = Some curr) then
         (upd_task task (set_parent (Some first_task)) st,
          if decide (state (task_at st task) = TASK_ZOMBIE) then true else move_child)
       else (st, move_child))
    (seq 0 TASK_OFILE_NR) (s, false).

(** [parent->state] is read through the parent pointer of the exiting
    task; with a null parent the read goes through the null pointer, which
    the model records as a halt. *)
Definition sys_exit (exit_status : Z) (s : kernel) : kernel :=
  with_current s (λ curr,
    let s1 := exit_close_files curr s in
    let '(s2, move_child) := exit_move_children curr s1 in
    let par := parent (task_at s2 curr) in
    let s3 :=
      if move_child && bool_decide (par ≠ Some first_task) then
        if decide (state (task_at s2 first_task) = TASK_WAITING) then
          task_set_ready first_task s2
        else s2
      else s2 in
    match par with
    | None => set_panicked true s3
    | Some p =>
        let s4 :=
          if decide (state (task_at s3 p) = TASK_WAITING) then task_set_ready p s3
          else s3 in
        let s5 :=
          upd_task curr
            (λ t, set_state TASK_ZOMBIE
                    (mk_task (state t) (name t) (pid t) (parent t) (heap_start t)
                       (heap_end t) exit_status (sleep_ticks t) (time_slice t)
                       (slice_ticks t) (file_table t) (tss t) (tss_sel t)))
            s4 in
        task_dispatch (task_set_block curr s5)
    end).

(** ** irq.c

    The part of the machine the interrupt code drives: the interrupt
    descriptor table, the EFLAGS register and the I/O ports.  [inb] and
    [outb] are the port instructions; of the ports only the two
    interrupt-mask registers of the 8259A pair are read, and such a register
    reads as the byte last written to it.  [cli] clears the interrupt flag,
    [sti] sets it, [read_eflags] and [write_eflags] are [pushfl]/[popl] and
    [pushl]/[popfl]. *)
Module Irq.

Definition u8 (x : Z) : Z := x mod 256.

Record gate_desc_t := mk_gate {
  offset15_0 : Z; selector : Z; attr : Z; offset31_16 : Z
}.
Definition gate_zero : gate_desc_t := mk_gate 0 0 0 0.

Definition IDT_TABLE_NR : Z := 256.
Definition GATE_TYPE_IDT : Z := Z.shiftl 14 8.
Definition GATE_P_PRESENT : Z := Z.shiftl 1 15.
Definition GATE_DPL0 : Z := Z.shiftl 0 13.
Definition GATE_DPL3 : Z := Z.shiftl 3 13.
Definition IRQ_PIC_START : Z := 32.
Definition PIC0_IMR : Z := 33.
Definition PIC1_IMR : Z := 161.

(** [idt_table] maps an index to the gate stored at [idt_table + index]. *)
Record cpu_t := mk_cpu {
  idt_table : gmap Z gate_desc_t;
  eflags : Z;
  ports : gmap Z Z
}.

Definition gate_at (c : cpu_t) (i : Z) : gate_desc_t := default gate_zero (idt_table c !! i).

Definition inb (port : Z) (c : cpu_t) : Z := u8 (default 0 (ports c !! port)).
Definition outb (port data : Z) (c : cpu_t) : cpu_t :=
  mk_cpu (idt_table c) (eflags c) (<[port := u8 data]> (ports c)).

Definition cli (c : cpu_t) : cpu_t :=
  mk_cpu (idt_table c) (Z.land (eflags c) (Z.lnot EFLAGS_IF)) (ports c).
Definition sti (c : cpu_t) : cpu_t :=
  mk_cpu (idt_table c) (Z.lor (eflags c) EFLAGS_IF) (ports c).
Definition read_eflags (c : cpu_t) : Z := eflags c.
Definition write_eflags (v : Z) (c : cpu_t) : cpu_t :=
  mk_cpu (idt_table c) (u32 v) (ports c).

(** cpu.c: [gate_desc_set(idt_table + i, selector, offset, attr)] *)
Definition gate_desc_set (i selector offset attr : Z) (c : cpu_t) : cpu_t :=
  let offset := u32 offset in
  mk_cpu
    (<[i := mk_gate (Z.land offset 65535) (u16 selector) (u16 attr)
                    (Z.land (Z.shiftr offset 16) 65535)]> (idt_table c))
    (eflags c) (ports c).

(** The source checks the upper bound of [irq_num] only. *)
Definition irq_install (irq_num handler : Z) (c : cpu_t) : Z * cpu_t :=
  if decide (irq_num >= IDT_TABLE_NR) then (-1, c)
  else
    (0, gate_desc_set irq_num KERNEL_SELECTOR_CS handler
          (Z.lor (Z.lor GATE_P_PRESENT GATE_DPL0) GATE_TYPE_IDT) c).

(** [1 << irq_num] is an [int]; the mask is cut to a byte on assignment.
    A shift by 32 or more is undefined in C and is not covered by the
    theorems about these functions. *)
Definition irq_enable (irq_num : Z) (c : cpu_t) : cpu_t :=
  if decide (irq_num < IRQ_PIC_START) then c
  else
    let irq_num := irq_num - IRQ_PIC_START in
    if decide (irq_num < 8) then
      let mask := u8 (Z.land (inb PIC0_IMR c) (Z.lnot (s32 (Z.shiftl 1 irq_num)))) in
      outb PIC0_IMR mask c
    else
      let irq_num := irq_num - 8 in
      let mask := u8 (Z.land (inb PIC1_IMR c) (Z.lnot (s32 (Z.shiftl 1 irq_num)))) in
      outb PIC1_IMR mask c.

Definition irq_disable (irq_num : Z) (c : cpu_t) : cpu_t :=
  if decide (irq_num < IRQ_PIC_START) then c
  else
    let irq_num := irq_num - IRQ_PIC_START in
    if decide (irq_num < 8) then
      let mask := u8 (Z.lor (inb PIC0_IMR c) (s32 (Z.shiftl 1 irq_num))) in
      outb PIC0_IMR mask c
    else
      let irq_num := irq_num - 8 in
      let mask := u8 (Z.lor (inb PIC1_IMR c) (s32 (Z.shiftl 1 irq_num))) in
      outb PIC1_IMR mask c.

Definition irq_disable_global (c : cpu_t) : cpu_t := cli c.
Definition irq_enable_global (c : cpu_t) : cpu_t := sti c.

Definition irq_enter_protection (c : cpu_t) : Z * cpu_t :=
  let state := read_eflags c in
  (state, irq_disable_global c).

Definition irq_leave_protection (state : Z) (c : cpu_t) : cpu_t := write_eflags state c.

End Irq.
(** * Specification vocabulary

    Well-formedness conditions, invariants and the concrete states the
    statements below are evaluated on. *)

(** A C [int]. *)
Definition int_range (x : Z) : Prop := -2147483648 <= x <= 2147483647.

(** ** Concrete configurations and states *)

(** The values of the original build: user stack below 0xE0000000 (500
    pages, 4 of them for the arguments), 512-byte TTY buffers, 2048 system
    file-table entries; the task structures are laid out from 0x20000. *)
Definition example_layout : Layout :=
  {| MEM_TASK_STACK_TOP := 3758096384;
     MEM_TASK_STACK_SIZE := 4096 * 500;
     MEM_TASK_ARG_SIZE := 4096 * 4;
     TTY_IBUF_SIZE := 512;
     FILE_TABLE_SIZE := 2048;
     task_addr := λ t, 131072 + 1024 * Z.of_nat t;
     tss_addr := λ t, 131072 + 1024 * Z.of_nat t + 580 |}.

Definition desc_zero : segment_desc_t := mk_desc 0 0 0 0 0.

(** A GDT with the five fixed descriptors and three TSS descriptors
    (selectors 48, 56 and 64) in use, and the rest free. *)
Definition example_gdt : list segment_desc_t :=
  desc_zero :: replicate 5 (mk_desc 65535 0 0 128 0)
    ++ replicate 3 (mk_desc 104 0 0 137 0) ++ replicate 247 desc_zero.

(** A user task in state [st] with kernel stack page [kstk], directory
    [dir], selector [sel] and heap [hs, he). *)
Definition example_task (st : task_state) (nm : string) (t : nat) (par : option nat)
    (kstk dir sel hs he : Z) : task_t :=
  mk_task st nm (131072 + 1024 * Z.of_nat t) par hs he 0 0 10 10 ∅
    (mk_tss (kstk + 4096) 16 dir 2147483648 514 0 0 0 0 3758080000 0 0 0
            35 43 35 35 35 35 0)
    sel.

(** An allocator over [n] pages from 1 MiB, the first [used] of them taken. *)
Definition example_alloc (n used : nat) : addr_alloc_t :=
  mk_alloc 1048576 (4096 * Z.of_nat n) 4096
    (replicate used true ++ replicate (n - used) false).

(** Two user tasks, [task_table[0]] running and [task_table[1]] ready. *)
Definition example_kernel : kernel :=
  mk_kernel (Some (task_table 0)) [task_table 0; task_table 1] [] 
    [idle_task; task_table 0; task_table 1]
    {[ idle_task := example_task TASK_CREATED "idle task" idle_task None 1048576 1052672 48 0 0;
       task_table 0 := example_task TASK_RUNNING "shell" (task_table 0) None
                         1056768 1060864 56 2147491840 2147491840;
       task_table 1 := example_task TASK_READY "loop" (task_table 1) (Some (task_table 0))
                         1064960 1069056 64 2147491840 2147491840 ]}
    40 32 example_gdt 1060864
    (example_alloc 16 6) ∅
    {[ 1052672 := ∅; 1060864 := ∅; 1069056 := ∅ ]}
    ∅ ∅ ∅ false.

(** A terminal whose input buffer holds 512 bytes while a reader has already
    taken its semaphore unit for one of them ([tty_read] between [sem_wait]
    and [tty_fifo_get]): the counter reads 511. *)
Definition example_tty_full : tty_t :=
  mk_tty (tty_fifo_init (replicate 512 0) 512) (sem_init 512)
         (mk_fifo (replicate 512 97) 512 0 0 512) (mk_sem 511 [])
         0 0 0.

(** ** Mutexes *)

(** The recursion counter of a mutex is a C [int] that counts the
    acquisitions of the owner, and can still be incremented. *)
Definition mutex_wf (m : mutex_t) : Prop := 0 <= locked_count m < INT_MAX.

(** What tasks other than [h] can make of a mutex with their calls of
    [mutex_lock] and [mutex_unlock], each made as the current task. *)
Inductive others_run (h : nat) (m : mutex_t) : mutex_t → Prop :=
  | others_none : others_run h m m
  | others_lock m1 s :
      others_run h m m1 → task_current s ≠ Some h →
      others_run h m (mutex_lock m1 s).1
  | others_unlock m1 s :
      others_run h m m1 → task_current s ≠ Some h →
      others_run h m (mutex_unlock m1 s).1.

(** ** Scheduler invariants *)

Definition is_ready (s : kernel) (t : nat) : Prop :=
  state (task_at s t) = TASK_READY.

(** What holds of the run queues at every point of a scheduler operation:
    no task is queued twice or on both lists, the idle task is never on the
    ready list, and every task behind the head of the ready list is in state
    Ready. *)
Record queues_ok (s : kernel) : Prop := mk_queues_ok {
  queues_nodup : NoDup (ready_list s ++ sleep_list s);
  queues_idle : idle_task ∉ ready_list s;
  queues_tail : Forall (is_ready s) (tail (ready_list s));
}.

(** What holds between scheduler operations: in addition the current task is
    the task [task_next_run] selects, i.e. the head of the ready list, or the
    idle task when the list is empty. *)
Record sched_inv (s : kernel) : Prop := mk_sched_inv {
  sched_queues : queues_ok s;
  sched_curr : curr_task s = Some (task_next_run s);
}.

(** The invariant as the specification words it: a task is Running iff it is
    the current task, and a Running task is not on the ready list. *)
Definition running_iff_current (s : kernel) : Prop :=
  ∀ t : nat,
    (state (task_at s t) = TASK_RUNNING ↔ curr_task s = Some t)
    ∧ (state (task_at s t) = TASK_RUNNING → t ∉ ready_list s).

(** The processor idles while [task_table[0]] has just been made ready. *)
Definition example_idle_kernel : kernel :=
  mk_kernel (Some idle_task) [task_table 0] []
    [idle_task; task_table 0]
    {[ idle_task := example_task TASK_RUNNING "idle task" idle_task None 1048576 1052672 48 0 0;
       task_table 0 := example_task TASK_READY "shell" (task_table 0) None
                         1056768 1060864 56 2147491840 2147491840 ]}
    40 32 example_gdt 1052672
    (example_alloc 16 4) ∅
    {[ 1052672 := ∅; 1060864 := ∅ ]}
    ∅ ∅ ∅ false.

(** The waiters of a wait queue are on neither run queue. *)
Definition waiters_parked (s : kernel) (waiters : list nat) : Prop :=
  ∀ t, t ∈ waiters → t ∉ ready_list s ++ sleep_list s.

(** [example_kernel] with every physical page taken. *)
Definition example_full_kernel : kernel :=
  set_paddr_alloc (example_alloc 16 16) example_kernel.

(** A parent with a reapable child: [task_table[1]] has exited with status
    7 and is a zombie; its TSS descriptor is selector 64, its kernel stack the
    page at 0x104000 and its page directory the page at 0x105000. *)
Definition example_wait_kernel : kernel :=
  mk_kernel (Some (task_table 0)) [task_table 0] []
    [idle_task; task_table 0; task_table 1]
    {[ idle_task := example_task TASK_CREATED "idle task" idle_task None 1048576 1052672 48 0 0;
       task_table 0 := example_task TASK_RUNNING "shell" (task_table 0) None
                         1056768 1060864 56 2147491840 2147491840;
       task_table 1 := set_state TASK_ZOMBIE
                         (mk_task TASK_ZOMBIE "loop" (131072 + 1024 * 3) (Some (task_table 0))
                            2147491840 2147491840 7 0 10 10 ∅
                            (mk_tss (1064960 + 4096) 16 1069056 2147483648 514
                               0 0 0 0 3758080000 0 0 0 35 43 35 35 35 35 0)
                            64) ]}
    40 32 example_gdt 1060864
    (example_alloc 16 6) ∅
    {[ 1052672 := ∅; 1060864 := ∅; 1069056 := ∅ ]}
    ∅ ∅ ∅ false.

(** A parent about to fork with three free physical pages left.  Its
    address space maps one user page: directory entry 512 of the directory at
    0x103000 points to the page table at 0x104000, whose entry 0 maps the
    page at 0x105000. *)
Definition example_fork_kernel : kernel :=
  mk_kernel (Some (task_table 0)) [task_table 0] []
    [idle_task; task_table 0]
    {[ idle_task := example_task TASK_CREATED "idle task" idle_task None 1048576 1052672 48 0 0;
       task_table 0 := example_task TASK_RUNNING "shell" (task_table 0) None
                         1056768 1060864 56 2147487744 2147487744 ]}
    40 32 example_gdt 1060864
    (example_alloc 9 6) ∅
    {[ 1052672 := ∅;
       1060864 := {[ 512 := Z.lor 1064960 7 ]};
       1064960 := {[ 0 := Z.lor 1069056 7 ]} ]}
    {[ 1060864 - 88 :=
         mk_frame 514 35 35 35 35 0 0 0 0 0 0 0 2 2147483664 43 2 0 0 0 0 3758080000 35 ]}
    ∅ ∅ false.

(** ** Frames *)

(** [mem_only s s']: [s'] differs from [s] at most in the bits of the
    physical allocator, in the content of page tables and in the ASSERT
    flag. *)
Record mem_only (s s' : kernel) : Prop := mk_mem_only {
  mo_curr : curr_task s' = curr_task s;
  mo_ready : ready_list s' = ready_list s;
  mo_sleep : sleep_list s' = sleep_list s;
  mo_task_list : task_list s' = task_list s;
  mo_tasks : tasks s' = tasks s;
  mo_code_sel : app_code_sel s' = app_code_sel s;
  mo_data_sel : app_data_sel s' = app_data_sel s;
  mo_gdt : gdt_table s' = gdt_table s;
  mo_cr3 : cr3_reg s' = cr3_reg s;
  mo_kpd : kernel_page_dir s' = kernel_page_dir s;
  mo_kstack : kstack s' = kstack s;
  mo_disk : disk s' = disk s;
  mo_files : sys_file_table s' = sys_file_table s;
  mo_start : alloc_start (paddr_alloc s') = alloc_start (paddr_alloc s);
  mo_page_size : alloc_page_size (paddr_alloc s') = alloc_page_size (paddr_alloc s);
  mo_bits : length (bitmap (paddr_alloc s')) = length (bitmap (paddr_alloc s));
}.



(** The allocator covers at most the 32-bit physical address space with
    pages of positive size. *)
Definition alloc_wf (s : kernel) : Prop :=
  0 < alloc_page_size (paddr_alloc s)
  ∧ Z.of_nat (length (bitmap (paddr_alloc s))) * alloc_page_size (paddr_alloc s)
    <= 4294967296.

(** The bit of the allocator that stands for the page at [addr], computed
    as [addr_free_page] computes it. *)
Definition page_index (s : kernel) (addr : Z) : nat :=
  Z.to_nat (u32 (addr - alloc_start (paddr_alloc s)) / alloc_page_size (paddr_alloc s)).

Definition page_is_free (s : kernel) (addr : Z) : Prop :=
  bitmap (paddr_alloc s) !! page_index s addr = Some false.

Definition page_is_allocated (s : kernel) (addr : Z) : Prop :=
  bitmap (paddr_alloc s) !! page_index s addr = Some true.

(** ** ELF intake *)











(** * Vocabulary for the further parts *)

(** ** Linked lists *)

(** [dlist_seg h prev xs nxt]: in the memory [h] the nodes [xs] are linked
    in this order, the first one pointing back to [prev] and the last one on
    to [nxt]. *)
Fixpoint dlist_seg (h : DList.heap) (prev : Z) (xs : list Z) (nxt : Z) : Prop :=
  match xs with
  | [] => True
  | x :: rest =>
      x ≠ 0
      ∧ DList.pre (DList.node_at h x) = prev
      ∧ DList.next (DList.node_at h x) = default nxt (head rest)
      ∧ dlist_seg h x rest nxt
  end.

(** The list [l] links exactly the nodes [xs], first to last, in [h]. *)
Record is_dlist (h : DList.heap) (l : DList.list_t) (xs : list Z) : Prop := mk_is_dlist {
  dl_first : DList.first l = default 0 (head xs);
  dl_last : DList.last l = default 0 (last xs);
  dl_count : DList.count l = Z.of_nat (length xs);
  dl_nodup : NoDup xs;
  dl_seg : dlist_seg h 0 xs 0;
}.

(** A node that is linked nowhere: both of its pointers are null. *)
Definition dlist_detached (h : DList.heap) (node : Z) : Prop :=
  DList.node_at h node = DList.node_zero.

(** Three nodes at 0x1000, 0x2000 and 0x3000, linked in this order. *)
Definition example_heap : DList.heap :=
  {[ 4096 := DList.mk_node 0 8192;
     8192 := DList.mk_node 4096 12288;
     12288 := DList.mk_node 8192 0 ]}.
Definition example_dlist : DList.list_t := DList.mk_list 4096 12288 3.

(** ** The TTY ring buffer *)

(** A ring buffer of [fifo_size] bytes: read index and fill count are in
    range, and the write index is [fifo_count] places past the read index,
    around the end. *)
Record fifo_wf (f : tty_fifo_t) : Prop := mk_fifo_wf {
  fw_size : 0 < fifo_size f <= INT_MAX;
  fw_buf : Z.of_nat (length (fifo_buf f)) = fifo_size f;
  fw_read : 0 <= fifo_read f < fifo_size f;
  fw_count : 0 <= fifo_count f <= fifo_size f;
  fw_write : fifo_write f = (fifo_read f + fifo_count f) mod fifo_size f;
}.

(** The bytes waiting in the buffer, oldest first. *)
Definition fifo_contents (f : tty_fifo_t) : list Z :=
  take (Z.to_nat (fifo_count f)) (rotate (Z.to_nat (fifo_read f)) (fifo_buf f)).

(** A four-byte buffer holding "ab" across its end. *)
Definition example_fifo : tty_fifo_t := mk_fifo [98; 0; 0; 97] 4 3 1 2.

(** ** Descriptors *)

(** What the processor reads out of a segment descriptor: the base address,
    the 20-bit limit and the granularity bit. *)
Definition desc_base (d : segment_desc_t) : Z :=
  base15_0 d + 65536 * base23_16 d + 16777216 * base31_24 d.
Definition desc_limit (d : segment_desc_t) : Z :=
  limit15_0 d + 65536 * Z.land (Z.shiftr (attr d) 8) 15.
Definition desc_granular (d : segment_desc_t) : bool := Z.testbit (attr d) 15.

(** ** Sleeping tasks *)

(** [t] is on the sleep list, not on the ready list, with [n] ticks to go. *)
Definition asleep (s : kernel) (t : nat) (n : Z) : Prop :=
  t ∈ sleep_list s ∧ (t ∉ ready_list s) ∧ sleep_ticks (task_at s t) = n.

(** [t] has been moved from the sleep list to the ready list. *)
Definition woken (s : kernel) (t : nat) : Prop :=
  t ∈ ready_list s ∧ (t ∉ sleep_list s)
  ∧ (state (task_at s t) = TASK_READY ∨ curr_task s = Some t).

(** A step that does not concern the task [t]: its structure and its place
    on the run queues are the same in [s'] as in [s]. *)
Definition untouched (t : nat) (s s' : kernel) : Prop :=
  task_at s' t = task_at s t
  ∧ (t ∈ sleep_list s' ↔ t ∈ sleep_list s)
  ∧ (t ∈ ready_list s' ↔ t ∈ ready_list s).

(** [task_table[1]] sleeps for three more ticks while [task_table[0]] runs. *)
Definition example_sleep_kernel : kernel :=
  mk_kernel (Some (task_table 0)) [task_table 0] [task_table 1]
    [idle_task; task_table 0; task_table 1]
    {[ idle_task := example_task TASK_CREATED "idle task" idle_task None 1048576 1052672 48 0 0;
       task_table 0 := example_task TASK_RUNNING "shell" (task_table 0) None
                         1056768 1060864 56 2147491840 2147491840;
       task_table 1 := set_sleep_ticks 3
                         (example_task TASK_SLEEP "loop" (task_table 1) (Some (task_table 0))
                            1064960 1069056 64 2147491840 2147491840) ]}
    40 32 example_gdt 1060864
    (example_alloc 16 6) ∅
    {[ 1052672 := ∅; 1060864 := ∅; 1069056 := ∅ ]}
    ∅ ∅ ∅ false.

(** ** Parents and children *)

(** The slot [i] of the task table holds a zombie whose parent is [p]. *)
Definition zombie_child (s : kernel) (p : nat) (i : nat) : Prop :=
  parent (task_at s (task_table i)) = Some p
  ∧ state (task_at s (task_table i)) = TASK_ZOMBIE.

(** [task_table[1]] runs and its parent [task_table[0]] waits for it. *)
Definition example_exit_kernel : kernel :=
  mk_kernel (Some (task_table 1)) [task_table 1] []
    [idle_task; task_table 0; task_table 1]
    {[ idle_task := example_task TASK_CREATED "idle task" idle_task None 1048576 1052672 48 0 0;
       task_table 0 := example_task TASK_WAITING "shell" (task_table 0) None
                         1056768 1060864 56 2147491840 2147491840;
       task_table 1 := example_task TASK_RUNNING "loop" (task_table 1) (Some (task_table 0))
                         1064960 1069056 64 2147491840 2147491840 ]}
    40 32 example_gdt 1069056
    (example_alloc 16 6) ∅
    {[ 1052672 := ∅; 1060864 := ∅; 1069056 := ∅ ]}
    ∅ ∅ ∅ false.

(** ** Semaphores *)

(** The counter of a semaphore is a non-negative C [int], and tasks wait
    only while it is zero. *)
Definition sem_wf (sem : sem_t) : Prop :=
  0 <= count sem <= INT_MAX ∧ (wait_list sem ≠ [] → count sem = 0).

(** [n] calls of [sem_notify] in a row, each made by whoever is the current
    task then. *)
Definition sem_notify_n (n : nat) (sem : sem_t) (s : kernel) : sem_t * kernel :=
  Nat.iter n (λ p, sem_notify p.1 p.2) (sem, s).

(** ** Mutexes, continued *)

Definition mutex_lock_n (n : nat) (m : mutex_t) (s : kernel) : mutex_t * kernel :=
  Nat.iter n (λ p, mutex_lock p.1 p.2) (m, s).
Definition mutex_unlock_n (n : nat) (m : mutex_t) (s : kernel) : mutex_t * kernel :=
  Nat.iter n (λ p, mutex_unlock p.1 p.2) (m, s).

(** ** Paging *)

(** Two virtual addresses that select the same entry of the same page
    table, that is, that lie in the same 4 KiB page. *)
Definition same_page (v w : Z) : Prop :=
  pde_index v = pde_index w ∧ pte_index v = pte_index w.

(** [example_kernel] where entry 512 of the shell's page directory points to
    an empty page table at 0x106000. *)
Definition example_paged_kernel : kernel :=
  write_entry 1060864 512 (Z.lor 1073152 7) example_kernel.

(** [example_paged_kernel] with the first user page mapped to the frame at
    0x107000. *)
Definition example_mapped_kernel : kernel :=
  write_entry 1073152 0 (Z.lor 1077248 7) example_paged_kernel.

(** ** Interrupts *)

(** Whether the line of interrupt [irq] (32 to 47) is masked: lines 32 to 39
    are bits 0 to 7 of the first controller's mask register, lines 40 to 47
    those of the second. *)
Definition irq_masked (c : Irq.cpu_t) (irq : Z) : bool :=
  if decide (irq < Irq.IRQ_PIC_START + 8) then
    Z.testbit (Irq.inb Irq.PIC0_IMR c) (irq - Irq.IRQ_PIC_START)
  else Z.testbit (Irq.inb Irq.PIC1_IMR c) (irq - Irq.IRQ_PIC_START - 8).

(** The interrupt flag of EFLAGS. *)
Definition interrupts_on (c : Irq.cpu_t) : bool := Z.testbit (Irq.eflags c) 9.

(** The handler address a gate holds. *)
Definition gate_offset (g : Irq.gate_desc_t) : Z :=
  Z.lor (Irq.offset15_0 g) (Z.shiftl (Irq.offset31_16 g) 16).

(** The machine after [init_pic]: every line masked except line 2 of the
    first controller; interrupts enabled. *)
Definition example_cpu : Irq.cpu_t :=
  Irq.mk_cpu ∅ 514 {[ Irq.PIC0_IMR := 251; Irq.PIC1_IMR := 255 ]}.

(** ** Open files across [fork] *)

(** The number of descriptors of a file table that name file [f]. *)
Definition fd_count (tbl : gmap nat nat) (l : list nat) (f : nat) : Z :=
  Z.of_nat (length (filter (λ i, tbl !! i = Some f) l)).

(** [example_kernel] where the shell has file 0 open as descriptors 0, 1 and
    2 and file 3 as descriptor 3. *)
Definition example_files_kernel : kernel :=
  set_sys_file_table {[ 0%nat := mk_file [] 0 3; 3%nat := mk_file [104; 105] 1 1 ]}
    (upd_task (task_table 0)
       (set_file_table {[ 0%nat := 0%nat; 1%nat := 0%nat; 2%nat := 0%nat; 3%nat := 3%nat ]})
       example_kernel).
(** * Properties *)

(** ** Machine integers and lists *)

Lemma u32_range x : 0 <= u32 x < 4294967296.
Proof. unfold u32. apply Z.mod_pos_bound. lia. Qed.

Lemma u32_small x : 0 <= x < 4294967296 -> u32 x = x.
Proof. intros Hx. unfold u32. apply Z.mod_small. lia. Qed.

Lemma s32_small x : -2147483648 <= x <= 2147483647 -> s32 x = x.
Proof. intros Hx. unfold s32. rewrite Z.mod_small; lia. Qed.

Lemma elem_of_list_remove (l : list nat) n x :
  x ∈ list_remove l n ↔ x ∈ l ∧ x ≠ n.
Proof. unfold list_remove. rewrite list_elem_of_filter. tauto. Qed.

Lemma NoDup_list_remove (l : list nat) n : NoDup l → NoDup (list_remove l n).
Proof. apply NoDup_filter. Qed.

Lemma list_remove_notin (l : list nat) n : n ∉ l → list_remove l n = l.
Proof.
  unfold list_remove. induction l as [|a l IH]; intros Hn; [done|].
  apply not_elem_of_cons in Hn as [Hne Hn].
  rewrite filter_cons. destruct (decide (a ≠ n)) as [_|E].
  - f_equal. by apply IH.
  - exfalso. apply E. congruence.
Qed.

Lemma list_remove_head n (l : list nat) : n ∉ l → list_remove (n :: l) n = l.
Proof.
  intros Hn. unfold list_remove. rewrite filter_cons.
  destruct (decide (n ≠ n)) as [E|_]; [done|].
  by apply list_remove_notin.
Qed.

(** ** Semaphores *)


Lemma sem_wait_fast sem s :
  sem_wait_blocks sem = false →
  sem_wait sem s = (mk_sem (s32 (count sem - 1)) (wait_list sem), s).
Proof.
  unfold sem_wait_blocks, sem_wait. intros Hb.
  apply bool_decide_eq_false in Hb.
  destruct (decide (count sem > 0)); [done|]. exfalso. by apply Hb.
Qed.

Lemma sem_notify_fast sem s :
  sem_notify_wakes sem = false →
  sem_notify sem s = (mk_sem (s32 (count sem + 1)) (wait_list sem), s).
Proof.
  unfold sem_notify_wakes, sem_notify. intros Hb.
  apply bool_decide_eq_false in Hb.
  destruct (decide (list_count (wait_list sem) ≠ 0)); [|done]. exfalso. by apply Hb.
Qed.

(** C7.  A [sem_wait] that does not block followed by a [sem_notify] that
    finds no waiter (and likewise a [sem_notify] that finds no waiter
    followed by a [sem_wait] that does not block) leaves the counter of the
    semaphore at its value before the pair, and leaves its wait queue and the
    scheduler untouched. *)
Theorem sem_wait_notify_pair_count (sem : sem_t) (s : kernel) :
  int_range (count sem) →
  (sem_wait_blocks sem = false →
   sem_notify_wakes (sem_wait sem s).1 = false →
   let '(sem1, s1) := sem_wait sem s in
   let '(sem2, s2) := sem_notify sem1 s1 in
   count sem2 = count sem ∧ wait_list sem2 = wait_list sem ∧ s2 = s)
  ∧
  (sem_notify_wakes sem = false →
   sem_wait_blocks (sem_notify sem s).1 = false →
   let '(sem1, s1) := sem_notify sem s in
   let '(sem2, s2) := sem_wait sem1 s1 in
   count sem2 = count sem ∧ wait_list sem2 = wait_list sem ∧ s2 = s).
Proof.
  intros Hr. unfold int_range in Hr. split.
  - intros Hw. rewrite (sem_wait_fast _ _ Hw). cbn [fst]. intros Hn.
    rewrite (sem_notify_fast _ _ Hn). cbn.
    unfold sem_wait_blocks in Hw. apply bool_decide_eq_false in Hw.
    assert (count sem > 0) by lia.
    rewrite (s32_small (count sem - 1)) by lia.
    rewrite s32_small by lia. split; [lia|done].
  - intros Hn. rewrite (sem_notify_fast _ _ Hn). cbn [fst]. intros Hw.
    rewrite (sem_wait_fast _ _ Hw). cbn.
    unfold sem_wait_blocks in Hw. apply bool_decide_eq_false in Hw. cbn in Hw.
    assert (Hlt : count sem < 2147483647).
    { destruct (decide (count sem = 2147483647)) as [E|]; [|lia].
      rewrite E in Hw. vm_compute in Hw. exfalso. apply Hw. by intros ?. }
    rewrite (s32_small (count sem + 1)) by lia.
    rewrite s32_small by lia. split; [lia|done].
Qed.

Lemma sem_wait_notify_pair_count_witness :
  let '(sem1, s1) := sem_wait (mk_sem 3 []) example_kernel in
  let '(sem2, s2) := sem_notify sem1 s1 in
  count sem2 = 3 ∧ wait_list sem2 = [] ∧ s2 = example_kernel.
Proof.
  assert (Hr : int_range (count (mk_sem 3 []))) by (unfold int_range; cbn; lia).
  destruct (sem_wait_notify_pair_count (mk_sem 3 []) example_kernel Hr) as [H1 _].
  apply H1; reflexivity.
Defined.

(** ** Sleeping *)

Lemma msleep_ticks_in_range ms :
  0 <= ms <= 4294967286 →
  1 <= msleep_ticks ms ∧ ms <= msleep_ticks ms * OS_TICK_MS.
Proof.
  intros Hms. unfold msleep_ticks, OS_TICK_MS.
  rewrite (u32_small ms) by lia.
  destruct (decide (ms < 10)).
  - change (u32 (10 + (10 - 1)) / 10) with 1. lia.
  - rewrite u32_small by lia.
    pose proof (Z.div_mod (ms + (10 - 1)) 10 ltac:(lia)) as Hd.
    pose proof (Z.mod_pos_bound (ms + (10 - 1)) 10 ltac:(lia)) as Hm.
    lia.
Qed.

(** C9.  [sys_msleep] adds [OS_TICK_MS - 1] to its 32-bit argument before it
    divides: for the nine largest arguments the sum wraps around and the tick
    count is 0, not the at least 429496730 ticks of the rounded-up quotient.
    [task_set_sleep] then returns at once: the caller has left the ready list
    and is on no sleep list, still marked running, and no tick readies it. *)
Theorem sys_msleep_tick_count_wraps :
  msleep_ticks 4294967295 = 0
  ∧ let s' := sys_msleep 4294967295 example_kernel in
    (task_table 0 ∉ ready_list s')
    ∧ (task_table 0 ∉ sleep_list s')
    ∧ state (task_at s' (task_table 0)) = TASK_RUNNING
    ∧ sleep_ticks (task_at s' (task_table 0)) = 0
    ∧ curr_task s' = Some (task_table 1)
    ∧ (task_table 0 ∉ ready_list (task_time_tick s')).
Proof.
  split; [reflexivity|].
  vm_compute. repeat split; try reflexivity; intros H; repeat
    (apply elem_of_cons in H as [H|H]; [discriminate H|]); by apply elem_of_nil in H.
Qed.

(** ** TTY input *)

Lemma tty_in_dev_discards `{Layout} ch tty s :
  sem_count (isem tty) >= TTY_IBUF_SIZE → tty_in_dev ch tty s = (tty, s).
Proof. intros Hc. unfold tty_in_dev. by destruct (decide _). Qed.

Lemma tty_in_dev_appends `{Layout} ch tty s :
  sem_count (isem tty) < TTY_IBUF_SIZE →
  fifo_count (ififo tty) < fifo_size (ififo tty) →
  let '(tty', s') := tty_in_dev ch tty s in
  fifo_buf (ififo tty') = <[Z.to_nat (fifo_write (ififo tty)) := ch]> (fifo_buf (ififo tty))
  ∧ fifo_count (ififo tty') = fifo_count (ififo tty) + 1
  ∧ (isem tty', s') = sem_notify (isem tty) s.
Proof.
  intros Hc Hf. unfold tty_in_dev.
  destruct (decide _); [lia|]. unfold tty_fifo_put.
  destruct (decide (fifo_count _ >= _)); [lia|].
  destruct (sem_notify (isem tty) s) as [sem s']. by cbn.
Qed.

Lemma tty_in_dev_full_fifo `{Layout} ch tty s :
  sem_count (isem tty) < TTY_IBUF_SIZE →
  fifo_count (ififo tty) >= fifo_size (ififo tty) →
  let '(tty', s') := tty_in_dev ch tty s in
  ififo tty' = ififo tty ∧ (isem tty', s') = sem_notify (isem tty) s.
Proof.
  intros Hc Hf. unfold tty_in_dev.
  destruct (decide _); [lia|]. unfold tty_fifo_put.
  destruct (decide (fifo_count _ >= _)); [|lia].
  destruct (sem_notify (isem tty) s) as [sem s']. by cbn.
Qed.

(** C10.  With the input FIFO full (512 bytes) and the input semaphore at
    511, [tty_in] passes its guard; [tty_fifo_put] refuses the byte and its
    status is ignored, so the FIFO is unchanged, while [sem_notify] still
    raises the semaphore to 512: a unit is signalled for a byte that was not
    appended. *)
Theorem tty_in_signals_dropped_byte :
  let '(tty', s') := tty_in_dev (H := example_layout) 98 example_tty_full example_kernel in
  sem_count (isem example_tty_full) < 512
  ∧ ififo tty' = ififo example_tty_full
  ∧ sem_count (isem tty') = 512
  ∧ fifo_count (ififo tty') = 512
  ∧ s' = example_kernel.
Proof. vm_compute. repeat split; try reflexivity. Qed.

(** ** Mutexes *)

Lemma mutex_lock_free m s :
  locked_count m = 0 →
  mutex_lock m s = (mk_mutex (task_current s) (s32 (0 + 1)) (mutex_wait_list m), s).
Proof. intros E. unfold mutex_lock. rewrite E. by destruct (decide (0 = 0)). Qed.

Lemma mutex_lock_owner m s :
  locked_count m ≠ 0 → owner m = task_current s →
  mutex_lock m s = (mk_mutex (owner m) (s32 (locked_count m + 1)) (mutex_wait_list m), s).
Proof.
  intros Hc Ho. unfold mutex_lock.
  destruct (decide (locked_count m = 0)); [done|].
  by destruct (decide (owner m = task_current s)).
Qed.

Lemma mutex_lock_contended m s c :
  locked_count m ≠ 0 → owner m ≠ Some c → task_current s = Some c →
  mutex_lock m s =
    (mk_mutex (owner m) (locked_count m) (list_insert_last (mutex_wait_list m) c),
     task_dispatch (task_set_block c s)).
Proof.
  intros Hc Ho Hs. unfold mutex_lock. rewrite Hs.
  destruct (decide (locked_count m = 0)); [done|].
  by destruct (decide (owner m = Some c)).
Qed.

Lemma mutex_unlock_foreign m s : owner m ≠ task_current s → mutex_unlock m s = (m, s).
Proof. intros Ho. unfold mutex_unlock. by destruct (decide (owner m = task_current s)). Qed.

Lemma mutex_unlock_handover m s h rest :
  owner m = task_current s → locked_count m = 1 → mutex_wait_list m = h :: rest →
  mutex_unlock m s = (mk_mutex (Some h) 1 rest, task_dispatch (task_set_ready h s)).
Proof.
  intros Ho Hc Hw. unfold mutex_unlock. rewrite Hc, Hw.
  destruct (decide (owner m = task_current s)); [|done]. by cbn.
Qed.

(** While the new owner [h] has not run, no call of another task changes the
    owner or the counter: their [mutex_lock] blocks, their [mutex_unlock] is
    refused. *)
Lemma others_run_keep h m m' :
  owner m = Some h → locked_count m ≠ 0 → others_run h m m' →
  owner m' = Some h ∧ locked_count m' = locked_count m.
Proof.
  intros Ho Hc Hr. induction Hr as [|m1 s Hr [IHo IHc] Hs|m1 s Hr [IHo IHc] Hs].
  - done.
  - unfold mutex_lock.
    destruct (decide (locked_count m1 = 0)); [congruence|].
    destruct (decide (owner m1 = task_current s)); [congruence|].
    by destruct (task_current s).
  - rewrite mutex_unlock_foreign; [done|congruence].
Qed.

(** The mutex is free again, and the kernel state unchanged, after a
    [mutex_lock]/[mutex_unlock] pair on a free mutex with no waiter: the
    critical sections of the allocators leave their mutexes as they found
    them. *)
Lemma mutex_lock_unlock_free s :
  let '(m1, s1) := mutex_lock mutex_init s in
  mutex_unlock m1 s1 = (mutex_init, s).
Proof.
  rewrite mutex_lock_free by done. unfold mutex_unlock. cbn.
  by destruct (decide (task_current s = task_current s)).
Qed.

Lemma mutex_lock_returns_at_once m s c :
  task_current s = Some c → mutex_wf m → mutex_lock_blocks m s = false →
  owner (mutex_lock m s).1 = Some c ∧ 1 <= locked_count (mutex_lock m s).1
  ∧ (mutex_lock m s).2 = s.
Proof.
  intros Hs [Hlo Hhi] Hb. unfold INT_MAX in Hhi.
  unfold mutex_lock_blocks in Hb. apply bool_decide_eq_false in Hb.
  destruct (decide (locked_count m = 0)) as [E|E].
  - rewrite mutex_lock_free by done. by cbn.
  - destruct (decide (owner m = task_current s)) as [Eo|Eo];
      [|exfalso; by apply Hb].
    rewrite mutex_lock_owner by done. cbn.
    rewrite s32_small by lia. split; [congruence|]. split; [lia|done].
Qed.

Lemma mutex_unlock_wakes_head m s h rest :
  owner m = task_current s → locked_count m = 1 → mutex_wait_list m = h :: rest →
  h ≠ idle_task →
  h ∈ ready_list (mutex_unlock m s).2
  ∧ state (task_at (task_set_ready h s) h) = TASK_READY.
Proof.
  intros Ho Hc Hw Hne. rewrite (mutex_unlock_handover m s h rest) by done.
  cbn [snd].
  assert (Hin : h ∈ ready_list (task_set_ready h s)).
  { unfold task_set_ready. destruct (decide (h ≠ idle_task)); [|done].
    cbn. unfold list_insert_last. apply elem_of_app. right.
    by apply list_elem_of_singleton. }
  split.
  - unfold task_dispatch. by destruct (decide _).
  - unfold task_set_ready. destruct (decide (h ≠ idle_task)); [|done].
    unfold upd_task, task_at. cbn. by rewrite lookup_insert_eq.
Qed.


(** ** The scheduler *)

Lemma task_at_upd_eq s t f : task_at (upd_task t f s) t = f (task_at s t).
Proof. unfold task_at, upd_task. cbn. by rewrite lookup_insert_eq. Qed.

Lemma task_at_upd_ne s t t' f : t ≠ t' → task_at (upd_task t f s) t' = task_at s t'.
Proof. intros Hne. unfold task_at, upd_task. cbn. by rewrite lookup_insert_ne. Qed.

Lemma is_ready_upd_ne s t t' f : t ≠ t' → is_ready (upd_task t f s) t' ↔ is_ready s t'.
Proof. intros Hne. unfold is_ready. by rewrite task_at_upd_ne. Qed.

(** [is_ready] only reads the task structures. *)
Lemma is_ready_same_tasks s s' t : tasks s' = tasks s → is_ready s' t ↔ is_ready s t.
Proof. intros E. unfold is_ready, task_at. by rewrite E. Qed.

Lemma Forall_is_ready_same_tasks s s' l :
  tasks s' = tasks s → Forall (is_ready s) l → Forall (is_ready s') l.
Proof.
  intros E Hf. eapply Forall_impl; [exact Hf|].
  intros t Ht. by apply (is_ready_same_tasks s s').
Qed.

Lemma Forall_is_ready_upd s t f l :
  t ∉ l → Forall (is_ready s) l → Forall (is_ready (upd_task t f s)) l.
Proof.
  intros Hn Hf. rewrite Forall_forall in *. intros x Hx.
  apply is_ready_upd_ne; [|by apply Hf]. intros ->. by apply Hn.
Qed.

Lemma task_next_run_head s : ready_list s ≠ [] → head (ready_list s) = Some (task_next_run s).
Proof. unfold task_next_run. by destruct (ready_list s). Qed.

(** Under the invariant the current task, unless it is the idle task, is the
    head of the ready list. *)
Lemma sched_inv_ready_shape s c :
  sched_inv s → curr_task s = Some c → c ≠ idle_task →
  ∃ rest, ready_list s = c :: rest ∧ (c ∉ rest) ∧ (c ∉ sleep_list s).
Proof.
  intros [[Hnd Hidle Htail] Hcurr] Hc Hne.
  rewrite Hcurr in Hc. injection Hc as Hc. unfold task_next_run in Hc.
  destruct (ready_list s) as [|a rest] eqn:E; [congruence|]. subst a.
  exists rest. split; [done|].
  cbn in Hnd. apply NoDup_cons in Hnd as [Hn _].
  split; intros Hin; apply Hn, elem_of_app; auto.
Qed.

Lemma sched_inv_idle_shape s :
  sched_inv s → curr_task s = Some idle_task → ready_list s = [].
Proof.
  intros [[Hnd Hidle Htail] Hcurr] Hc.
  rewrite Hcurr in Hc. injection Hc as Hc. unfold task_next_run in Hc.
  destruct (ready_list s) as [|a rest] eqn:E; [done|]. subst a.
  exfalso. apply Hidle. apply elem_of_cons. by left.
Qed.

(** [task_dispatch] turns consistent queues into the full invariant. *)
Lemma task_dispatch_inv s : queues_ok s → sched_inv (task_dispatch s).
Proof.
  intros [Hnd Hidle Htail]. unfold task_dispatch.
  destruct (decide (Some (task_next_run s) ≠ curr_task s)) as [Hsw|Hsame].
  - split; [split|]; cbn; try done.
    apply Forall_is_ready_upd; [|done].
    unfold task_next_run. destruct (ready_list s) as [|a rest] eqn:E; cbn.
    + apply not_elem_of_nil.
    + cbn in Hnd. apply NoDup_cons in Hnd as [Hn _].
      intros Hin. apply Hn, elem_of_app. by left.
  - split; [done|]. destruct (decide (Some (task_next_run s) = curr_task s)); [done|].
    exfalso. by apply Hsame.
Qed.

Lemma sched_inv_queues s : sched_inv s → queues_ok s.
Proof. by intros []. Qed.

(** Removing the current task from the ready list. *)
Lemma task_set_block_current s c :
  sched_inv s → curr_task s = Some c →
  queues_ok (task_set_block c s)
  ∧ (c ∉ ready_list (task_set_block c s))
  ∧ (c ≠ idle_task → c ∉ sleep_list (task_set_block c s))
  ∧ sleep_list (task_set_block c s) = sleep_list s
  ∧ tasks (task_set_block c s) = tasks s.
Proof.
  intros Hinv Hc. unfold task_set_block.
  destruct (decide (c ≠ idle_task)) as [Hne|He].
  - destruct (sched_inv_ready_shape s c Hinv Hc Hne) as (rest & E & Hnr & Hns).
    destruct Hinv as [[Hnd Hidle Htail] _].
    cbn. rewrite E, list_remove_head by done.
    rewrite E in Hnd, Hidle, Htail. cbn in Hnd, Htail.
    apply NoDup_cons in Hnd as [_ Hnd].
    repeat split; try done.
    + intros Hin. apply Hidle. apply elem_of_cons. by right.
    + cbn. destruct rest as [|b rest']; [constructor|]. cbn.
      apply Forall_cons in Htail as [_ Ht]. exact Ht.
  - assert (c = idle_task) as -> by (destruct (decide (c = idle_task)); [done|by exfalso; apply He]).
    pose proof (sched_inv_idle_shape s Hinv Hc) as E.
    destruct Hinv as [Hq _]. split; [done|].
    split; [rewrite E; apply not_elem_of_nil|]. by repeat split.
Qed.

(** Appending a parked task to the ready list. *)
Lemma task_set_ready_queues s t :
  queues_ok s → t ∉ ready_list s ++ sleep_list s → queues_ok (task_set_ready t s).
Proof.
  intros [Hnd Hidle Htail] Hn. unfold task_set_ready.
  destruct (decide (t ≠ idle_task)) as [Hne|]; [|done].
  assert (Hnr : t ∉ ready_list s) by (intros ?; apply Hn, elem_of_app; auto).
  assert (Hns : t ∉ sleep_list s) by (intros ?; apply Hn, elem_of_app; auto).
  split; cbn; unfold list_insert_last.
  - rewrite <- app_assoc. cbn.
    apply NoDup_app in Hnd as (H1 & H2 & H3).
    apply NoDup_app. split; [done|]. split.
    + intros x Hx Hin. apply elem_of_cons in Hin as [->|Hin]; [done|]. by apply (H2 x).
    + apply NoDup_cons. split; done.
  - intros Hin. apply elem_of_app in Hin as [Hin|Hin]; [done|].
    apply list_elem_of_singleton in Hin. congruence.
  - destruct (ready_list s) as [|a rest] eqn:E; cbn.
    + constructor.
    + cbn in Htail. apply Forall_app. split.
      * apply Forall_is_ready_upd; [|done].
        intros Hin. apply Hnr. apply elem_of_cons. by right.
      * apply Forall_singleton. unfold is_ready. by rewrite task_at_upd_eq.
Qed.

Lemma task_set_ready_lists s t :
  sleep_list (task_set_ready t s) = sleep_list s
  ∧ (∀ x, x ∈ ready_list (task_set_ready t s) → x ∈ ready_list s ∨ x = t).
Proof.
  unfold task_set_ready. destruct (decide (t ≠ idle_task)); cbn.
  - split; [done|]. intros x Hx. unfold list_insert_last in Hx.
    apply elem_of_app in Hx as [?|Hx]; [by left|right].
    by apply list_elem_of_singleton in Hx.
  - split; [done|]. by left.
Qed.

(** Rotating the current task to the tail of the ready list, as [sys_yield]
    and an expired time slice do. *)
Lemma requeue_current_queues s c :
  sched_inv s → curr_task s = Some c →
  queues_ok (task_set_ready c (task_set_block c s)).
Proof.
  intros Hinv Hc.
  destruct (task_set_block_current s c Hinv Hc) as (Hq & Hnr & Hns & Hsl & _).
  destruct (decide (c = idle_task)) as [->|Hne].
  - unfold task_set_ready. by destruct (decide (idle_task ≠ idle_task)).
  - apply task_set_ready_queues; [done|].
    intros Hin. apply elem_of_app in Hin as [Hin|Hin]; [done|]. by apply Hns.
Qed.

(** An update of a task structure that keeps its state keeps the queues
    consistent. *)
Lemma queues_ok_upd_keep_state s t f :
  (∀ x, state (f x) = state x) → queues_ok s → queues_ok (upd_task t f s).
Proof.
  intros Hf [Hnd Hidle Htail]. split; cbn; try done.
  eapply Forall_impl; [exact Htail|]. intros x Hx. unfold is_ready in *.
  destruct (decide (t = x)) as [->|Hne].
  - by rewrite task_at_upd_eq, Hf.
  - by rewrite task_at_upd_ne.
Qed.

Lemma sched_inv_upd_keep_state s t f :
  (∀ x, state (f x) = state x) → sched_inv s → sched_inv (upd_task t f s).
Proof.
  intros Hf [Hq Hc]. split; [by apply queues_ok_upd_keep_state|done].
Qed.

Lemma sys_yield_inv s : sched_inv s → sched_inv (sys_yield s).2.
Proof.
  intros Hinv. unfold sys_yield. cbn [snd].
  destruct (decide (list_count (ready_list s) > 1)); [|done].
  unfold with_current, task_current. rewrite (sched_curr s Hinv).
  apply task_dispatch_inv, requeue_current_queues; [done|by apply sched_curr].
Qed.

Lemma task_set_wakeup_queues s t :
  queues_ok s → t ∈ sleep_list s →
  queues_ok (task_set_wakeup t s)
  ∧ (t ∉ ready_list (task_set_wakeup t s) ++ sleep_list (task_set_wakeup t s)).
Proof.
  intros [Hnd Hidle Htail] Hin. unfold task_set_wakeup. cbn.
  apply NoDup_app in Hnd as (H1 & H2 & H3). split; [split|]; cbn; try done.
  - apply NoDup_app. split; [done|]. split; [|by apply NoDup_list_remove].
    intros x Hx Hx'. apply elem_of_list_remove in Hx' as [Hx' _]. by apply (H2 x).
  - intros Hx. apply elem_of_app in Hx as [Hx|Hx].
    + by apply (H2 t).
    + apply elem_of_list_remove in Hx as [_ Hx]. by apply Hx.
Qed.

Lemma sleep_tick_queues s t :
  queues_ok s → t ∈ sleep_list s →
  queues_ok (sleep_tick s t)
  ∧ ∀ x, x ≠ t → x ∈ sleep_list s → x ∈ sleep_list (sleep_tick s t).
Proof.
  intros Hq Hin. unfold sleep_tick.
  set (n := s32 (sleep_ticks (task_at s t) - 1)).
  assert (Hq1 : queues_ok (upd_task t (set_sleep_ticks n) s))
    by (by apply queues_ok_upd_keep_state).
  destruct (decide (n = 0)); [|by split].
  destruct (task_set_wakeup_queues _ t Hq1 Hin) as [Hq2 Hn2]. split.
  - by apply task_set_ready_queues.
  - intros x Hne Hx.
    rewrite (proj1 (task_set_ready_lists _ t)). unfold task_set_wakeup. cbn.
    by apply elem_of_list_remove.
Qed.

Lemma sleep_walk_queues l : ∀ s,
  queues_ok s → NoDup l → (∀ t, t ∈ l → t ∈ sleep_list s) →
  queues_ok (fold_left sleep_tick l s).
Proof.
  induction l as [|t l IH]; intros s Hq Hnd Hin; [done|].
  cbn. apply NoDup_cons in Hnd as [Ht Hnd].
  destruct (sleep_tick_queues s t Hq) as [Hq' Hkeep].
  { apply Hin, elem_of_cons. by left. }
  apply IH; [done|done|]. intros x Hx. apply Hkeep.
  - intros ->. by apply Ht.
  - apply Hin, elem_of_cons. by right.
Qed.

Lemma task_time_tick_inv s : sched_inv s → sched_inv (task_time_tick s).
Proof.
  intros Hinv. unfold task_time_tick, with_current, task_current.
  rewrite (sched_curr s Hinv). set (c := task_next_run s).
  set (n := s32 (slice_ticks (task_at s c) - 1)).
  apply task_dispatch_inv.
  assert (H1 : sched_inv (upd_task c (set_slice_ticks n) s))
    by (by apply sched_inv_upd_keep_state).
  match goal with |- queues_ok (fold_left _ (sleep_list ?s2) _) =>
    assert (Hq2 : queues_ok s2) end.
  { destruct (decide (n = 0)); [|by apply sched_inv_queues].
    apply requeue_current_queues.
    - by apply sched_inv_upd_keep_state.
    - cbn. by apply sched_curr. }
  apply sleep_walk_queues; [done| |done].
  destruct Hq2 as [Hnd _ _]. by apply NoDup_app in Hnd as (_ & _ & ?).
Qed.

Lemma task_set_sleep_queues s c ticks :
  queues_ok s → c ∉ ready_list s → c ∉ sleep_list s →
  queues_ok (task_set_sleep c ticks s).
Proof.
  intros [Hnd Hidle Htail] Hnr Hns. unfold task_set_sleep.
  destruct (decide (ticks <= 0)); [done|]. split; cbn; try done.
  - unfold list_insert_last. rewrite app_assoc. apply NoDup_app.
    split; [done|]. split; [|apply NoDup_singleton].
    intros x Hx Hx'. apply list_elem_of_singleton in Hx'. subst x.
    apply elem_of_app in Hx as [?|?]; done.
  - apply Forall_is_ready_upd; [|done].
    intros Hin. apply Hnr. destruct (ready_list s); [done|].
    apply elem_of_cons. by right.
Qed.

Lemma sys_msleep_inv ms s :
  sched_inv s → curr_task s ≠ Some idle_task → sched_inv (sys_msleep ms s).
Proof.
  intros Hinv Hne. unfold sys_msleep, with_current, task_current.
  pose proof (sched_curr s Hinv) as Hc. rewrite Hc. set (c := task_next_run s) in *.
  assert (Hci : c ≠ idle_task) by congruence.
  destruct (task_set_block_current s c Hinv Hc) as (Hq & Hnr & Hns & _).
  apply task_dispatch_inv, task_set_sleep_queues; auto.
Qed.

(** Blocking the current task: what [sem_wait], [mutex_lock] and [sys_wait]
    do before they dispatch. *)
Lemma block_current_inv s c :
  sched_inv s → curr_task s = Some c →
  sched_inv (task_dispatch (task_set_block c s)).
Proof.
  intros Hinv Hc. apply task_dispatch_inv.
  by destruct (task_set_block_current s c Hinv Hc) as (Hq & _).
Qed.

Lemma sem_wait_inv sem s : sched_inv s → sched_inv (sem_wait sem s).2.
Proof.
  intros Hinv. unfold sem_wait. destruct (decide (count sem > 0)); [done|].
  unfold task_current. rewrite (sched_curr s Hinv). cbn [snd].
  apply block_current_inv; [done|by apply sched_curr].
Qed.

Lemma mutex_lock_inv m s : sched_inv s → sched_inv (mutex_lock m s).2.
Proof.
  intros Hinv. unfold mutex_lock.
  destruct (decide (locked_count m = 0)); [done|].
  destruct (decide (owner m = task_current s)); [done|].
  unfold task_current. rewrite (sched_curr s Hinv). cbn [snd].
  apply block_current_inv; [done|by apply sched_curr].
Qed.

Lemma sys_wait_blocked_inv s :
  sched_inv s → (sys_wait s).1 = WaitBlocked → sched_inv (sys_wait s).2.
Proof.
  intros Hinv. unfold sys_wait, task_current.
  pose proof (sched_curr s Hinv) as Hc. rewrite Hc. set (c := task_next_run s) in *.
  destruct (find _ _); [done|]. intros _. cbn [snd].
  destruct (task_set_block_current s c Hinv Hc) as (Hq & Hnr & _).
  apply task_dispatch_inv.
  destruct Hq as [Hnd Hidle Htail]. split; cbn; try done.
  apply Forall_is_ready_upd; [|done].
  intros Hin. apply Hnr. destruct (ready_list (task_set_block c s)); [done|].
  apply elem_of_cons. by right.
Qed.

(** Waking the head of a wait queue. *)
Lemma sem_notify_inv sem s :
  sched_inv s → waiters_parked s (wait_list sem) → sched_inv (sem_notify sem s).2.
Proof.
  intros Hinv Hp. unfold sem_notify.
  destruct (decide (list_count (wait_list sem) ≠ 0)) as [Hc|]; [|done].
  destruct (wait_list sem) as [|h rest] eqn:E; [done|]. cbn.
  apply task_dispatch_inv, task_set_ready_queues; [by apply sched_inv_queues|].
  apply Hp. apply elem_of_cons. by left.
Qed.

Lemma mutex_unlock_inv m s :
  sched_inv s → waiters_parked s (mutex_wait_list m) → sched_inv (mutex_unlock m s).2.
Proof.
  intros Hinv Hp. unfold mutex_unlock.
  destruct (decide (owner m = task_current s)); [|done].
  destruct (decide (s32 (locked_count m - 1) = 0)); [|done].
  destruct (decide (list_count (mutex_wait_list m) ≠ 0)) as [Hc|]; [|done].
  destruct (mutex_wait_list m) as [|h rest] eqn:E; [done|]. cbn.
  apply task_dispatch_inv, task_set_ready_queues; [by apply sched_inv_queues|].
  apply Hp. apply elem_of_cons. by left.
Qed.

(** A task switch marks the task it switches to as Running. *)
Lemma task_dispatch_marks_running s :
  Some (task_next_run s) ≠ curr_task s →
  curr_task (task_dispatch s) = Some (task_next_run s)
  ∧ state (task_at (task_dispatch s) (task_next_run s)) = TASK_RUNNING
  ∧ ready_list (task_dispatch s) = ready_list s.
Proof.
  intros Hsw. unfold task_dispatch.
  destruct (decide (Some (task_next_run s) ≠ curr_task s)); [|done].
  cbn. split; [done|]. split; [|done].
  unfold task_switch_from_to, task_at. cbn. by rewrite lookup_insert_eq.
Qed.

(** What the invariant says about Running: on the ready list only the
    current task can be Running, and the current task, unless it is the idle
    task, is on the ready list, at its head. *)
Lemma sched_inv_running s :
  sched_inv s →
  (∀ t, t ∈ ready_list s → state (task_at s t) = TASK_RUNNING → curr_task s = Some t)
  ∧ (∀ c, curr_task s = Some c → c ≠ idle_task → head (ready_list s) = Some c).
Proof.
  intros Hinv. split.
  - intros t Hin Hrun. rewrite (sched_curr s Hinv). f_equal.
    destruct Hinv as [[_ _ Htail] _]. unfold task_next_run.
    destruct (ready_list s) as [|a rest]; [by apply elem_of_nil in Hin|].
    apply elem_of_cons in Hin as [->|Hin]; [done|].
    cbn in Htail. rewrite Forall_forall in Htail.
    specialize (Htail t Hin). unfold is_ready in Htail. congruence.
  - intros c Hc Hne.
    destruct (sched_inv_ready_shape s c Hinv Hc Hne) as (rest & E & _).
    by rewrite E.
Qed.

(** C2 (as amended).  Between scheduler operations no task is queued twice
    or on both run queues, the idle task is not on the ready list, every
    task queued behind the head of the ready list is Ready, and the current
    task is the head of the ready list (the idle task when the list is
    empty).  Dispatch, yield, tick accounting, [sys_msleep] called by a task
    other than the idle task, [sem_wait], [mutex_lock] and a [sys_wait] that
    blocks preserve this.  Hence a Running task on the ready list is the
    current task, and the current task (the idle task apart) is on the ready
    list, at its head.  A dispatch that switches makes the selected task
    current and marks it Running without taking it off the ready list. *)
Theorem sched_inv_preserved (s : kernel) :
  sched_inv s →
  sched_inv (task_dispatch s)
  ∧ sched_inv (sys_yield s).2
  ∧ sched_inv (task_time_tick s)
  ∧ (∀ ms, curr_task s ≠ Some idle_task → sched_inv (sys_msleep ms s))
  ∧ (∀ sem, sched_inv (sem_wait sem s).2)
  ∧ (∀ m, sched_inv (mutex_lock m s).2)
  ∧ ((sys_wait s).1 = WaitBlocked → sched_inv (sys_wait s).2)
  ∧ (∀ t, t ∈ ready_list s → state (task_at s t) = TASK_RUNNING → curr_task s = Some t)
  ∧ (∀ c, curr_task s = Some c → c ≠ idle_task → head (ready_list s) = Some c)
  ∧ (∀ s0, Some (task_next_run s0) ≠ curr_task s0 →
       curr_task (task_dispatch s0) = Some (task_next_run s0)
       ∧ state (task_at (task_dispatch s0) (task_next_run s0)) = TASK_RUNNING
       ∧ ready_list (task_dispatch s0) = ready_list s0).
Proof.
  intros Hinv.
  split; [by apply task_dispatch_inv, sched_inv_queues|].
  split; [by apply sys_yield_inv|].
  split; [by apply task_time_tick_inv|].
  split; [intros ms Hne; by apply sys_msleep_inv|].
  split; [intros sem; by apply sem_wait_inv|].
  split; [intros m; by apply mutex_lock_inv|].
  split; [by apply sys_wait_blocked_inv|].
  split; [by apply sched_inv_running|].
  split; [by apply sched_inv_running|].
  intros s0. apply task_dispatch_marks_running.
Qed.

Lemma sched_inv_preserved_witness :
  sched_inv example_kernel
  ∧ sched_inv (task_dispatch example_kernel)
  ∧ sched_inv (sys_yield example_kernel).2
  ∧ sched_inv (task_time_tick example_kernel)
  ∧ sched_inv (sys_msleep 25 example_kernel).
Proof.
  assert (Hinv : sched_inv example_kernel).
  { split; [split|]; [ | |repeat constructor|reflexivity].
    - apply (bool_decide_unpack _). vm_compute. exact I.
    - apply (bool_decide_unpack _). vm_compute. exact I. }
  split; [exact Hinv|].
  destruct (sched_inv_preserved example_kernel Hinv) as (H1 & H2 & H3 & H4 & _).
  split; [exact H1|]. split; [exact H2|]. split; [exact H3|].
  apply H4. discriminate.
Defined.

(** C2, as the specification words it, fails: with the idle task current and
    a task just made ready, the worded invariant holds; [task_dispatch]
    switches to that task without taking it off the ready list and without
    touching the state of the idle task, so afterwards a Running task is on
    the ready list and a Running task (the idle task) is not current.  Ten
    timer ticks later the time slice of that task, the only ready one, is
    used up: [task_time_tick] requeues it, which marks it Ready, and
    [task_dispatch] has nothing to switch to, so the current task is not
    Running. *)
Lemma running_iff_current_broken_by_dispatch :
  running_iff_current example_idle_kernel
  ∧ ¬ running_iff_current (task_dispatch example_idle_kernel)
  ∧ state (task_at (task_dispatch example_idle_kernel) (task_table 0)) = TASK_RUNNING
  ∧ task_table 0 ∈ ready_list (task_dispatch example_idle_kernel)
  ∧ state (task_at (task_dispatch example_idle_kernel) idle_task) = TASK_RUNNING
  ∧ curr_task (task_dispatch example_idle_kernel) = Some (task_table 0)
  ∧ (let s10 := Nat.iter 10 task_time_tick (task_dispatch example_idle_kernel) in
     curr_task s10 = Some (task_table 0)
     ∧ state (task_at s10 (task_table 0)) = TASK_READY
     ∧ panicked s10 = false).
Proof.
  split; [|split].
  - intros t.
    destruct (decide (t = idle_task)) as [->|Hi].
    { split; [split; reflexivity|]. intros _.
      apply (bool_decide_unpack _). vm_compute. exact I. }
    destruct (decide (t = task_table 0)) as [->|Ht].
    { split; [split; discriminate|]. discriminate. }
    assert (E : task_at example_idle_kernel t = task_zero).
    { unfold task_at, example_idle_kernel. cbn [tasks].
      rewrite lookup_insert_ne by done. by rewrite lookup_singleton_ne. }
    rewrite E. split; [split|]; try discriminate.
    intros [=]. congruence.
  - intros Hclaim. destruct (Hclaim idle_task) as [[H1 _] _].
    specialize (H1 eq_refl). discriminate H1.
  - split; [reflexivity|]. split; [|split; [reflexivity|split; [reflexivity|]]].
    + apply (bool_decide_unpack _). vm_compute. exact I.
    + vm_compute. repeat split.
Qed.

(** A task other than the idle task that blocks is switched out. *)
Lemma block_switches_away s c :
  sched_inv s → curr_task s = Some c → c ≠ idle_task →
  curr_task (task_dispatch (task_set_block c s)) ≠ Some c.
Proof.
  intros Hinv Hc Hne.
  destruct (task_set_block_current s c Hinv Hc) as (Hq & Hnr & _).
  rewrite (sched_curr _ (task_dispatch_inv _ Hq)).
  unfold task_dispatch. destruct (decide _); cbn [ready_list task_next_run];
    unfold task_next_run; cbn.
  all: destruct (ready_list (task_set_block c s)) as [|a rest] eqn:E;
    [congruence|].
  all: intros [= ->]; apply Hnr; apply elem_of_cons; by left.
Qed.

(** C6.  For the current task [c] and a mutex whose counter can still be
    incremented: (1) a [mutex_lock] that does not block returns with [c] as
    owner and a counter of at least 1; (2) when [c] already owns the mutex the
    call increments the counter and blocks nobody (the scheduler state is
    unchanged); (3) a [mutex_lock] that blocks queues [c] at the tail of the
    FIFO wait queue and leaves owner and counter alone, and (the idle task
    apart, under the scheduler invariant) the processor is switched to
    another task, so the call has not returned; (4) the final
    [mutex_unlock] with a non-empty wait queue, in the one step that readies
    the head [h] of the queue, makes [h] the owner with counter 1; (5) from
    then until [h] runs again, i.e. until its [mutex_lock] returns, whatever
    the other tasks call, the owner stays [h] and the counter stays 1. *)
Theorem mutex_lock_returns_owned (m : mutex_t) (s : kernel) (c : nat) :
  task_current s = Some c → mutex_wf m →
  (mutex_lock_blocks m s = false →
     owner (mutex_lock m s).1 = Some c ∧ 1 <= locked_count (mutex_lock m s).1
     ∧ (mutex_lock m s).2 = s)
  ∧ (owner m = Some c → 1 <= locked_count m →
     mutex_lock m s = (mk_mutex (Some c) (locked_count m + 1) (mutex_wait_list m), s))
  ∧ (mutex_lock_blocks m s = true →
     mutex_lock m s =
       (mk_mutex (owner m) (locked_count m) (mutex_wait_list m ++ [c]),
        task_dispatch (task_set_block c s))
     ∧ (sched_inv s → c ≠ idle_task → curr_task (mutex_lock m s).2 ≠ Some c))
  ∧ (∀ h rest, owner m = Some c → locked_count m = 1 → mutex_wait_list m = h :: rest →
     mutex_unlock m s = (mk_mutex (Some h) 1 rest, task_dispatch (task_set_ready h s))
     ∧ (h ≠ idle_task →
        h ∈ ready_list (mutex_unlock m s).2
        ∧ state (task_at (task_set_ready h s) h) = TASK_READY)
     ∧ ∀ m', others_run h (mutex_unlock m s).1 m' →
         owner m' = Some h ∧ locked_count m' = 1).
Proof.
  intros Hs Hwf. split; [|split; [|split]].
  - intros Hb. by apply mutex_lock_returns_at_once.
  - intros Ho Hc. destruct Hwf as [Hlo Hhi]. unfold INT_MAX in Hhi.
    rewrite mutex_lock_owner; [|lia|congruence].
    rewrite Ho, s32_small by lia. done.
  - intros Hb. unfold mutex_lock_blocks in Hb.
    apply bool_decide_eq_true in Hb as [Hc Ho].
    rewrite (mutex_lock_contended m s c); [|done|congruence|done].
    split; [done|]. cbn [snd]. intros Hinv Hne. by apply block_switches_away.
  - intros h rest Ho Hc Hw.
    assert (Ho' : owner m = task_current s) by congruence.
    split; [by apply mutex_unlock_handover|]. split.
    + intros Hne. by apply (mutex_unlock_wakes_head m s h rest).
    + intros m' Hr. rewrite (mutex_unlock_handover m s h rest) in Hr by done.
      by apply (others_run_keep h _ m') in Hr as [? ?].
Qed.

Lemma mutex_lock_returns_owned_witness :
  let m := mk_mutex (Some (task_table 0)) 1 [task_table 1] in
  mutex_lock m example_kernel = (mk_mutex (Some (task_table 0)) 2 [task_table 1], example_kernel)
  ∧ (mutex_unlock m example_kernel).1 = mk_mutex (Some (task_table 1)) 1 [].
Proof.
  assert (Hwf : mutex_wf (mk_mutex (Some (task_table 0)) 1 [task_table 1])).
  { unfold mutex_wf, INT_MAX. cbn. lia. }
  destruct (mutex_lock_returns_owned (mk_mutex (Some (task_table 0)) 1 [task_table 1])
              example_kernel (task_table 0) eq_refl Hwf) as (_ & H2 & _ & H4).
  cbv zeta. split.
  - apply H2; [reflexivity|cbn; lia].
  - destruct (H4 (task_table 1) [] eq_refl eq_refl eq_refl) as [E _].
    by rewrite E.
Defined.

(** ** Memory manager: frame lemmas *)

Lemma mem_only_refl s : mem_only s s.
Proof. by split. Qed.

Lemma mem_only_trans s1 s2 s3 : mem_only s1 s2 → mem_only s2 s3 → mem_only s1 s3.
Proof. intros [] []. split; congruence. Qed.

Lemma mem_only_fold {A} (f : kernel → A → kernel) l :
  (∀ st x, mem_only st (f st x)) → ∀ s, mem_only s (fold_left f l s).
Proof.
  intros Hf. induction l as [|x l IH]; intros s; cbn; [apply mem_only_refl|].
  eapply mem_only_trans; [apply Hf|apply IH].
Qed.

Lemma length_bitmap_set_bit bits : ∀ index count bit,
  length (bitmap_set_bit bits index count bit) = length bits.
Proof.
  intros index count. revert bits index.
  induction count as [|c IH]; intros bits index bit; cbn; [done|].
  by rewrite IH, length_insert.
Qed.

Lemma mem_only_kassert b s : mem_only s (kassert b s).
Proof. destruct b; by split. Qed.

Lemma mem_only_set_panicked s : mem_only s (set_panicked true s).
Proof. by split. Qed.

Lemma mem_only_write_entry pg idx v s : mem_only s (write_entry pg idx v s).
Proof. by split. Qed.

Lemma mem_only_clear_page pg s : mem_only s (clear_page pg s).
Proof. by split. Qed.

Lemma mem_only_addr_free_page addr n s : mem_only s (addr_free_page addr n s).
Proof. split; try done. cbn. apply length_bitmap_set_bit. Qed.

Lemma mem_only_addr_alloc_page n s : mem_only s (addr_alloc_page n s).2.
Proof.
  unfold addr_alloc_page, bitmap_alloc_nbits.
  destruct (bitmap_lowest_run _ _); cbn; [|apply mem_only_refl].
  split; try done. cbn. apply length_bitmap_set_bit.
Qed.



Lemma mem_only_memory_create_uvm s : mem_only s (memory_create_uvm s).2.
Proof.
  unfold memory_create_uvm.
  pose proof (mem_only_addr_alloc_page 1 s) as Ha.
  destruct (addr_alloc_page 1 s) as [pg s1]. cbn in Ha.
  destruct (decide (pg = 0)); [done|]. cbn.
  eapply mem_only_trans; [exact Ha|].
  eapply mem_only_trans; [apply mem_only_clear_page|].
  apply mem_only_fold. intros st i. apply mem_only_write_entry.
Qed.

Lemma mem_only_destroy_table tbl s : mem_only s (destroy_table tbl s).
Proof.
  unfold destroy_table. apply mem_only_fold. intros st j.
  destruct (present _); [apply mem_only_addr_free_page|apply mem_only_refl].
Qed.

Lemma mem_only_memory_destroy_uvm page_dir s : mem_only s (memory_destroy_uvm page_dir s).
Proof.
  unfold memory_destroy_uvm.
  eapply mem_only_trans; [apply mem_only_kassert|].
  eapply mem_only_trans; [|apply mem_only_addr_free_page].
  apply mem_only_fold. intros st i. destruct (present _); [|apply mem_only_refl].
  eapply mem_only_trans; [apply mem_only_destroy_table|apply mem_only_addr_free_page].
Qed.



Lemma mem_only_memory_free_page addr s : mem_only s (memory_free_page addr s).
Proof.
  unfold memory_free_page.
  destruct (decide (addr < MEMORY_TASK_BASE)); [apply mem_only_addr_free_page|].
  destruct (task_current s); [|apply mem_only_set_panicked].
  destruct (find_pte _ _ _ _).1 as [[tbl idx]|]; [|apply mem_only_set_panicked].
  eapply mem_only_trans; [apply mem_only_kassert|].
  eapply mem_only_trans; [apply mem_only_addr_free_page|apply mem_only_write_entry].
Qed.

Lemma mem_only_task_at s s' t : mem_only s s' → task_at s' t = task_at s t.
Proof. intros H. unfold task_at. by rewrite (mo_tasks _ _ H). Qed.

(** ** Heap extension *)

Lemma addr_alloc_page_exhausted n s :
  bitmap_lowest_run (bitmap (paddr_alloc s)) n = None → addr_alloc_page n s = (0, s).
Proof. intros E. unfold addr_alloc_page, bitmap_alloc_nbits. by rewrite E. Qed.

(** With no free physical page [memory_alloc_for_page_dir] leaves through
    its [return 0], the value it also returns on success. *)
Lemma memory_alloc_for_page_dir_exhausted page_dir vaddr size perm s :
  bitmap_lowest_run (bitmap (paddr_alloc s)) 1 = None →
  memory_alloc_for_page_dir page_dir vaddr size perm s = (0, s).
Proof.
  intros E. unfold memory_alloc_for_page_dir.
  destruct (Z.to_nat _) as [|r]; cbn [memory_alloc_loop]; [done|].
  rewrite addr_alloc_page_exhausted by done. by destruct (decide (0 = 0)).
Qed.

(** Hence [sys_sbrk] never reports the exhaustion: it moves [heap_end] and
    returns the previous value. *)
Lemma sys_sbrk_exhausted s task incr :
  task_current s = Some task →
  bitmap_lowest_run (bitmap (paddr_alloc s)) 1 = None →
  0 < incr →
  sys_sbrk incr s =
    (heap_end (task_at s task),
     upd_task task (set_heap_end (u32 (heap_end (task_at s task) + incr))) s).
Proof.
  intros Hc E Hi. unfold sys_sbrk. rewrite Hc.
  rewrite bool_decide_eq_true_2 by lia. cbn [kassert].
  destruct (decide (incr = 0)); [lia|].
  assert (Hp : ∀ start incr',
    sbrk_pages task (heap_end (task_at s task))
      (u32 (heap_end (task_at s task) + incr)) start incr' s =
    (heap_end (task_at s task),
     upd_task task (set_heap_end (u32 (heap_end (task_at s task) + incr))) s)).
  { intros start incr'. unfold sbrk_pages, memory_alloc_page_for. rewrite Hc.
    destruct (decide (incr' ≠ 0)); [|done].
    rewrite memory_alloc_for_page_dir_exhausted by done.
    change (s32 0) with 0. by destruct (decide (0 < 0)). }
  destruct (decide (_ ≠ 0)); [|apply Hp].
  destruct (decide (_ <= MEM_PAGE_SIZE)); [done|apply Hp].
Qed.

(** The results of [sys_sbrk]: the previous [heap_end], or the sentinel. *)
Lemma sys_sbrk_result s task incr :
  task_current s = Some task →
  (sys_sbrk incr s).1 = heap_end (task_at s task) ∨ (sys_sbrk incr s).1 = SBRK_FAILED.
Proof.
  intros Hc. unfold sys_sbrk. rewrite Hc.
  assert (Hk : task_at (kassert (bool_decide (incr >= 0)) s) task = task_at s task)
    by apply mem_only_task_at, mem_only_kassert.
  assert (Hp : ∀ e start incr' s0,
    (sbrk_pages task (heap_end (task_at s task)) e start incr' s0).1
      = heap_end (task_at s task)
    ∨ (sbrk_pages task (heap_end (task_at s task)) e start incr' s0).1 = SBRK_FAILED).
  { intros e start incr' s0. unfold sbrk_pages.
    destruct (decide (incr' ≠ 0)); [|by left].
    destruct (memory_alloc_page_for _ _ _ _) as [err s1].
    destruct (decide (err < 0)); [by right|by left]. }
  destruct (decide (incr = 0)); [by left|].
  destruct (decide (_ ≠ 0)); [|apply Hp].
  destruct (decide (_ <= MEM_PAGE_SIZE)); [by left|apply Hp].
Qed.

(** C4.  With every physical page in use, [sys_sbrk(4096)] on a page-aligned
    heap end needs one new page; [addr_alloc_page] fails, yet the call
    returns the previous heap end, not the sentinel, and the heap end has
    moved up by 4096 over memory that is not mapped. *)
Theorem sys_sbrk_hides_page_exhaustion :
  let s := example_full_kernel in
  (addr_alloc_page 1 s).1 = 0
  ∧ heap_end (task_at s (task_table 0)) = 2147491840
  ∧ sys_sbrk 4096 s = (2147491840, upd_task (task_table 0) (set_heap_end 2147495936) s)
  ∧ (sys_sbrk 4096 s).1 ≠ SBRK_FAILED
  ∧ heap_end (task_at (sys_sbrk 4096 s).2 (task_table 0)) = 2147495936
  ∧ pages (sys_sbrk 4096 s).2 = pages s.
Proof.
  cbv zeta. split; [reflexivity|]. split; [reflexivity|].
  assert (E : sys_sbrk 4096 example_full_kernel =
            (2147491840,
             upd_task (task_table 0) (set_heap_end 2147495936) example_full_kernel)).
  { rewrite (sys_sbrk_exhausted _ (task_table 0)); [reflexivity|reflexivity|reflexivity|lia]. }
  rewrite E. repeat split. discriminate.
Qed.

(** ** Reaping a child *)

Lemma gdt_table_task_dispatch s : gdt_table (task_dispatch s) = gdt_table s.
Proof. unfold task_dispatch. by destruct (decide _). Qed.

Lemma gdt_table_task_set_block c s : gdt_table (task_set_block c s) = gdt_table s.
Proof. unfold task_set_block. by destruct (decide _). Qed.

(** No path of [sys_wait] writes the descriptor table. *)
Lemma sys_wait_keeps_gdt s : gdt_table (sys_wait s).2 = gdt_table s.
Proof.
  unfold sys_wait. destruct (task_current s) as [curr|]; [|done].
  destruct (find _ _) as [i|]; cbn [snd].
  - cbn [upd_task gdt_table set_tasks].
    rewrite (mo_gdt _ _ (mem_only_memory_free_page _ _)).
    apply (mo_gdt _ _ (mem_only_memory_destroy_uvm _ _)).
  - rewrite gdt_table_task_dispatch. cbn [upd_task gdt_table set_tasks].
    apply gdt_table_task_set_block.
Qed.

(** What [sys_wait] returns when it finds a zombie child. *)
Lemma sys_wait_reaps s curr i :
  task_current s = Some curr →
  find (λ i, bool_decide (parent (task_at s (task_table i)) = Some curr
                          ∧ state (task_at s (task_table i)) = TASK_ZOMBIE))
       (seq 0 TASK_NR) = Some i →
  (sys_wait s).1 = WaitReaped (pid (task_at s (task_table i))) (status (task_at s (task_table i)))
  ∧ task_at (sys_wait s).2 (task_table i) = task_zero.
Proof.
  intros Hc Hf. unfold sys_wait. rewrite Hc, Hf. cbn [fst snd]. split; [done|].
  apply task_at_upd_eq.
Qed.

(** C3.  The parent reaps its zombie child: [sys_wait] returns the pid and
    the exit status 7, and the child's page directory and kernel stack page
    are free again.  The TSS descriptor of the child (selector 64, GDT slot
    8) is still marked in use, and its selector is gone with the zeroed task
    structure; [task_uninit] on the same child does release the slot. *)
Theorem sys_wait_leaks_tss_descriptor :
  let s := example_wait_kernel in
  let '(r, s') := sys_wait s in
  r = WaitReaped 134144 7
  ∧ tss_sel (task_at s (task_table 1)) = 64
  ∧ bitmap (paddr_alloc s) !! 4%nat = Some true
  ∧ bitmap (paddr_alloc s') !! 4%nat = Some false
  ∧ bitmap (paddr_alloc s) !! 5%nat = Some true
  ∧ bitmap (paddr_alloc s') !! 5%nat = Some false
  ∧ task_at s' (task_table 1) = task_zero
  ∧ attr <$> gdt_table s !! 8%nat = Some 137
  ∧ attr <$> gdt_table s' !! 8%nat = Some 137
  ∧ attr <$> gdt_table (task_uninit (task_table 1) s) !! 8%nat = Some 0.
Proof. vm_compute. repeat split; reflexivity. Qed.

(** ** Fork *)

(** The test [(child_task->tss.cr3 = memory_copy_uvm(...)) < 0] compares an
    unsigned value with 0: it never holds. *)
Lemma fork_copy_check_never_fires x : ¬ u32 x < 0.
Proof. pose proof (u32_range x). lia. Qed.

(** C1.  The parent forks with three free pages: [task_init] takes two of
    them (kernel stack, page directory), [memory_copy_uvm] takes the third
    for the new directory, cannot allocate the page for the one mapped user
    page, destroys its directory and returns -1, read as 0xFFFFFFFF.
    [sys_fork] does not take its failure branch: it returns the child's pid,
    the child is Ready on the ready list with CR3 = 0xFFFFFFFF, and its task
    slot, TSS descriptor (selector 72), kernel stack and first page directory
    stay allocated. *)
Theorem sys_fork_ignores_copy_failure :
  let s := example_fork_kernel in
  let child := task_table 1 in
  let after_init :=
    (task_init (H := example_layout) child "shell" 0 2147483664 3758080020 s).2 in
  alloc_task s = Some child
  ∧ (memory_copy_uvm 1060864 after_init).1 = 4294967295
  ∧ let '(r, s') := sys_fork (H := example_layout) s in
    r = 134144 ∧ r ≠ -1
    ∧ ready_list s' = [task_table 0; child]
    ∧ state (task_at s' child) = TASK_READY
    ∧ tss_cr3 (tss (task_at s' child)) = 4294967295
    ∧ name (task_at s' child) = "shell"
    ∧ tss_sel (task_at s' child) = 72
    ∧ attr <$> gdt_table s' !! 9%nat = Some 137
    ∧ bitmap (paddr_alloc s) = replicate 6 true ++ replicate 3 false
    ∧ bitmap (paddr_alloc s') = replicate 8 true ++ [false].
Proof. vm_compute. repeat split; try reflexivity. discriminate. Qed.

(** ** The image loader: frame lemmas *)

















Lemma curr_sys_read fd len s : curr_task (sys_read fd len s).2 = curr_task s.
Proof. unfold sys_read. by destruct (task_file fd s). Qed.

Lemma curr_sys_lseek fd off wh s : curr_task (sys_lseek fd off wh s).2 = curr_task s.
Proof. unfold sys_lseek. by destruct (task_file fd s). Qed.










(** ** The image loader: the file descriptor it opens *)


Lemma task_at_upd_file s f g t : task_at (upd_file f g s) t = task_at s t.
Proof. done. Qed.


Lemma file_at_upd_file_eq s f g : file_at (upd_file f g s) f = g (file_at s f).
Proof. unfold file_at, upd_file. cbn. by rewrite lookup_insert_eq. Qed.










(** ** The physical allocator: which bit stands for which page *)

Lemma bitmap_lowest_run_lt bits n : ∀ i,
  bitmap_lowest_run bits n = Some i → (i < length bits)%nat.
Proof.
  induction bits as [|b rest IH]; intros i; cbn [bitmap_lowest_run]; [done|].
  destruct (run_is_clear (b :: rest) n).
  - intros [= <-]. cbn. lia.
  - destruct (bitmap_lowest_run rest n) as [j|]; [|done].
    cbn. intros [= <-]. specialize (IH j eq_refl). lia.
Qed.

Lemma page_index_same_geometry s s' addr :
  alloc_start (paddr_alloc s') = alloc_start (paddr_alloc s) →
  alloc_page_size (paddr_alloc s') = alloc_page_size (paddr_alloc s) →
  page_index s' addr = page_index s addr.
Proof. intros E1 E2. unfold page_index. by rewrite E1, E2. Qed.

(** A page handed out by the allocator is the page of the bit it found. *)
Lemma addr_alloc_page_index s addr s' :
  alloc_wf s → addr_alloc_page 1 s = (addr, s') → addr ≠ 0 →
  (page_index s addr < length (bitmap (paddr_alloc s)))%nat
  ∧ page_is_allocated s' addr.
Proof.
  intros [Hps Hsz]. unfold addr_alloc_page, bitmap_alloc_nbits.
  destruct (bitmap_lowest_run _ 1) as [i|] eqn:E; [|by intros [= <- <-]].
  intros [= <- <-] _. apply bitmap_lowest_run_lt in E.
  set (a := paddr_alloc s) in *.
  assert (Hidx : page_index s (u32 (alloc_start a + Z.of_nat i * alloc_page_size a)) = i).
  { unfold page_index. fold a. unfold u32.
    rewrite Zminus_mod_idemp_l.
    replace (alloc_start a + Z.of_nat i * alloc_page_size a - alloc_start a)
      with (Z.of_nat i * alloc_page_size a) by lia.
    rewrite Z.mod_small by nia.
    rewrite Z.div_mul by lia. apply Nat2Z.id. }
  split; [by rewrite Hidx|].
  unfold page_is_allocated.
  rewrite (page_index_same_geometry s) by done. rewrite Hidx. cbn.
  by apply list_lookup_insert_eq.
Qed.

Lemma memory_create_uvm_page s new s' :
  alloc_wf s → memory_create_uvm s = (new, s') → new ≠ 0 →
  (page_index s new < length (bitmap (paddr_alloc s)))%nat
  ∧ page_is_allocated s' new.
Proof.
  intros Hwf. unfold memory_create_uvm.
  destruct (addr_alloc_page 1 s) as [pg s1] eqn:Ea.
  destruct (decide (pg = 0)); [by intros [= <- <-]|].
  set (s2 := fold_left _ _ _).
  assert (Hb : paddr_alloc s2 = paddr_alloc s1).
  { unfold s2. change (paddr_alloc s1) with (paddr_alloc (clear_page pg s1)).
    generalize (seqZ 0 (pde_index MEMORY_TASK_BASE)) (clear_page pg s1).
    intros l. induction l as [|x l IH]; intros st; cbn [fold_left]; [done|].
    by rewrite IH. }
  clearbody s2. intros [= <- <-] Hne.
  destruct (addr_alloc_page_index s pg s1 Hwf Ea Hne) as [Hlt Hal]. split; [done|].
  unfold page_is_allocated, page_index in *. by rewrite Hb.
Qed.

(** Freeing one page clears its bit. *)
Lemma addr_free_page_frees addr s :
  (page_index s addr < length (bitmap (paddr_alloc s)))%nat →
  page_is_free (addr_free_page addr 1 s) addr.
Proof.
  intros Hlt. unfold page_is_free, addr_free_page.
  change (page_index (set_paddr_alloc ?a s) addr) with (page_index s addr).
  cbn [paddr_alloc set_paddr_alloc bitmap set_bitmap bitmap_set_bit].
  fold (page_index s addr).
  by apply list_lookup_insert_eq.
Qed.


(** ** execve *)








(** ** ELF intake *)




(** ** The bounded loops run to completion *)

(** The round counts given to the two [while (size > 0)] loops are never
    exhausted: with more rounds the loops compute the same result. *)
Lemma load_phdr_loop_done rounds file page_dir vaddr s :
  load_phdr_loop rounds file page_dir vaddr 0 s = (0, s).
Proof. by destruct rounds. Qed.

Lemma load_phdr_loop_enough file page_dir rounds : ∀ vaddr size s extra,
  size / MEM_PAGE_SIZE + 1 <= Z.of_nat rounds →
  load_phdr_loop (rounds + extra) file page_dir vaddr size s
  = load_phdr_loop rounds file page_dir vaddr size s.
Proof.
  unfold MEM_PAGE_SIZE.
  induction rounds as [|r IH]; intros vaddr size s extra Hr.
  - assert (Hs : ¬ size > 0).
    { intros Hs. pose proof (Z.div_pos size 4096 ltac:(lia) ltac:(lia)). lia. }
    destruct extra; cbn [Nat.add load_phdr_loop]; by destruct (decide (size > 0)).
  - cbn [Nat.add load_phdr_loop]. destruct (decide (size > 0)) as [Hs|]; [|done].
    unfold MEM_PAGE_SIZE.
    destruct (sys_read file _ s) as [[cnt bs] s1].
    destruct (decide (cnt < _)); [done|].
    destruct (decide (size > 4096)) as [Hbig|Hsmall].
    + apply IH. Z.to_euclidean_division_equations. lia.
    + replace (size - size) with 0 by lia. by rewrite !load_phdr_loop_done.
Qed.

Lemma memory_copy_uvm_data_loop_enough page_dir s rounds : ∀ to from size extra,
  size <= Z.of_nat rounds →
  memory_copy_uvm_data_loop (rounds + extra) to page_dir from size s
  = memory_copy_uvm_data_loop rounds to page_dir from size s.
Proof.
  induction rounds as [|r IH]; intros to from size extra Hr.
  - destruct extra; cbn [Nat.add memory_copy_uvm_data_loop];
      destruct (decide (size > 0)); try done; lia.
  - cbn [Nat.add memory_copy_uvm_data_loop].
    destruct (decide (size > 0)) as [Hs|]; [|done].
    destruct (decide (memory_get_paddr page_dir to s = 0)); [done|].
    apply IH.
    assert (Hoff : 0 <= Z.land (memory_get_paddr page_dir to s) (MEM_PAGE_SIZE - 1) < 4096).
    { change (MEM_PAGE_SIZE - 1) with (Z.ones 12). rewrite Z.land_ones by lia.
      apply Z.mod_pos_bound. lia. }
    unfold MEM_PAGE_SIZE in *. destruct (decide (_ > size)); lia.
Qed.

(** * Further properties of the code *)

(** ** list.c *)

Lemma node_at_set_pre_eq h p v :
  DList.node_at (DList.set_pre p v h) p = DList.mk_node v (DList.next (DList.node_at h p)).
Proof. unfold DList.node_at, DList.set_pre. by rewrite lookup_insert_eq. Qed.

Lemma node_at_set_pre_ne h p q v :
  q ≠ p → DList.node_at (DList.set_pre p v h) q = DList.node_at h q.
Proof. intros Hne. unfold DList.node_at, DList.set_pre. by rewrite lookup_insert_ne. Qed.

Lemma node_at_set_next_eq h p v :
  DList.node_at (DList.set_next p v h) p = DList.mk_node (DList.pre (DList.node_at h p)) v.
Proof. unfold DList.node_at, DList.set_next. by rewrite lookup_insert_eq. Qed.

Lemma node_at_set_next_ne h p q v :
  q ≠ p → DList.node_at (DList.set_next p v h) q = DList.node_at h q.
Proof. intros Hne. unfold DList.node_at, DList.set_next. by rewrite lookup_insert_ne. Qed.

(** A segment only depends on the nodes it links. *)
Lemma dlist_seg_frame h h' xs : ∀ prev nxt,
  (∀ x, x ∈ xs → DList.node_at h' x = DList.node_at h x) →
  dlist_seg h prev xs nxt → dlist_seg h' prev xs nxt.
Proof.
  induction xs as [|x rest IH]; intros prev nxt Hsame; [done|].
  intros (Hx & Hp & Hn & Hrest). cbn [dlist_seg].
  rewrite (Hsame x) by apply list_elem_of_here.
  split; [done|]. split; [done|]. split; [done|].
  apply IH; [|done]. intros y Hy. apply Hsame. by apply list_elem_of_further.
Qed.

Lemma dlist_seg_nonzero h xs : ∀ prev nxt, dlist_seg h prev xs nxt → (0 ∉ xs).
Proof.
  induction xs as [|x rest IH]; intros prev nxt; [intros _; apply not_elem_of_nil|].
  intros (Hx & _ & _ & Hrest). apply not_elem_of_cons. split; [done|]. by eapply IH.
Qed.

Lemma dlist_seg_app h l1 : ∀ l2 prev nxt,
  dlist_seg h prev (l1 ++ l2) nxt
  ↔ dlist_seg h prev l1 (default nxt (head l2))
    ∧ dlist_seg h (default prev (last l1)) l2 nxt.
Proof.
  induction l1 as [|x rest IH]; intros l2 prev nxt.
  - cbn. tauto.
  - cbn [app dlist_seg]. rewrite (IH l2 x nxt).
    assert (Hh : default nxt (head (rest ++ l2))
                 = default (default nxt (head l2)) (head rest)) by (by destruct rest).
    assert (Hl : default prev (last (x :: rest)) = default x (last rest)).
    { destruct rest as [|y r]; [done|]. rewrite last_cons_cons.
      by destruct (last (y :: r)) eqn:E; [|by apply last_None in E]. }
    rewrite Hh, Hl. tauto.
Qed.

(** Redirecting the [next] of the last node redirects the segment. *)
Lemma dlist_seg_set_next_last h y nxt' : ∀ xs prev nxt,
  NoDup (xs ++ [y]) →
  dlist_seg h prev (xs ++ [y]) nxt →
  dlist_seg (DList.set_next y nxt' h) prev (xs ++ [y]) nxt'.
Proof.
  induction xs as [|x rest IH]; intros prev nxt Hnd.
  - cbn. intros (Hy & Hp & _ & _). rewrite node_at_set_next_eq. done.
  - cbn [app dlist_seg]. intros (Hx & Hp & Hn & Hrest).
    apply NoDup_cons in Hnd as [Hnotin Hnd].
    assert (x ≠ y).
    { intros ->. apply Hnotin, elem_of_app. right. apply list_elem_of_here. }
    rewrite node_at_set_next_ne by done.
    split; [done|]. split; [done|]. split.
    + rewrite Hn. by destruct rest.
    + by apply (IH x nxt).
Qed.

(** Redirecting the [pre] of the first node redirects the segment. *)
Lemma dlist_seg_set_pre_head h x prev' rest prev nxt :
  x ∉ rest →
  dlist_seg h prev (x :: rest) nxt →
  dlist_seg (DList.set_pre x prev' h) prev' (x :: rest) nxt.
Proof.
  intros Hnotin (Hx & Hp & Hn & Hrest). cbn [dlist_seg].
  rewrite node_at_set_pre_eq. split; [done|]. split; [done|]. split; [done|].
  eapply dlist_seg_frame; [|exact Hrest].
  intros z Hz. apply node_at_set_pre_ne. by intros ->.
Qed.

Lemma is_dlist_nonzero h l xs x : is_dlist h l xs → x ∈ xs → x ≠ 0.
Proof.
  intros [_ _ _ _ Hseg] Hx ->. by apply (dlist_seg_nonzero _ _ _ _ Hseg).
Qed.

(** Under the invariant the two readings of "empty" agree. *)
Lemma is_dlist_empty h l xs :
  is_dlist h l xs →
  (DList.list_is_empty l = true ↔ xs = []) ∧ (DList.first l = 0 ↔ xs = []).
Proof.
  intros Hl. pose proof (λ x, is_dlist_nonzero h l xs x Hl) as Hnz.
  destruct Hl as [Hf _ Hc _ _].
  unfold DList.list_is_empty. rewrite bool_decide_eq_true, Hc, Hf. split.
  - destruct xs; cbn; [done|]. split; [lia|done].
  - destruct xs as [|x rest]; cbn; [done|]. split; [|done].
    intros ->. exfalso. apply (Hnz 0); [apply list_elem_of_here|done].
Qed.

Lemma filter_ne_notin (node : Z) (l : list Z) :
  node ∉ l → filter (λ x, x ≠ node) l = l.
Proof.
  induction l as [|a l IH]; [done|]. intros Hn. apply not_elem_of_cons in Hn as [Hne Hn].
  rewrite filter_cons_True by done. by rewrite IH.
Qed.

Lemma example_dlist_ok : is_dlist example_heap example_dlist [4096; 8192; 12288].
Proof.
  split; [done|done|done| |].
  - apply (bool_decide_unpack _). by vm_compute.
  - cbn. repeat split; done.
Qed.

(** X1.  [list_insert_last] appends: on a list that links the nodes [xs],
    inserting a node that is not null and not yet linked yields a list that
    links [xs ++ [node]], with its counter one higher; no node other than the
    new one and the former last one is written. *)
Theorem list_insert_last_appends (h : DList.heap) (l : DList.list_t) (xs : list Z) (node : Z) :
  is_dlist h l xs → node ≠ 0 → node ∉ xs → DList.count l < INT_MAX →
  let '(l', h') := DList.list_insert_last l node h in
  is_dlist h' l' (xs ++ [node])
  ∧ ∀ p, p ≠ node → p ≠ DList.last l → DList.node_at h' p = DList.node_at h p.
Proof.
  intros Hl Hnz Hnotin Hc. pose proof (is_dlist_empty h l xs Hl) as [He _].
  unfold DList.list_insert_last.
  destruct Hl as [Hf Hla Hcnt Hnd Hseg].
  assert (Hcnt' : s32 (DList.count l + 1) = Z.of_nat (length (xs ++ [node]))).
  { rewrite length_app, Nat2Z.inj_add, <- Hcnt. unfold INT_MAX in Hc.
    rewrite s32_small by lia. done. }
  destruct (DList.list_is_empty l) eqn:E.
  - assert (xs = []) as -> by (by apply He). cbn in Hla. split.
    + split; cbn; [done|done|exact Hcnt'|apply NoDup_singleton|].
      rewrite node_at_set_next_eq, node_at_set_pre_eq. done.
    + intros p Hp _. by rewrite node_at_set_next_ne, node_at_set_pre_ne.
  - destruct xs as [|y xs' _] using rev_ind.
    { by pose proof (proj2 He eq_refl). }
    rewrite last_snoc in Hla. cbn in Hla.
    assert (Hy : node ≠ y).
    { intros ->. apply Hnotin, elem_of_app. right. apply list_elem_of_here. }
    split.
    + split.
      * cbn. rewrite Hf. by destruct xs'.
      * by rewrite last_snoc.
      * exact Hcnt'.
      * apply NoDup_app. split; [done|]. split; [|apply NoDup_singleton].
        intros x Hx Hx'. apply list_elem_of_singleton in Hx' as ->. done.
      * apply dlist_seg_app. rewrite Hla. split.
        -- cbn. apply dlist_seg_set_next_last with (nxt := 0); [done|].
           eapply dlist_seg_frame; [|exact Hseg].
           intros x Hx. rewrite node_at_set_next_ne, node_at_set_pre_ne; [done|..];
             by intros ->.
        -- rewrite last_snoc. cbn.
           rewrite node_at_set_next_ne by done.
           rewrite node_at_set_next_eq, node_at_set_pre_eq. done.
    + intros p Hp Hp'. rewrite Hla in Hp' |- *.
      by rewrite !node_at_set_next_ne, node_at_set_pre_ne.
Qed.

Lemma list_insert_last_appends_witness :
  is_dlist (DList.list_insert_last example_dlist 16384 example_heap).2
           (DList.list_insert_last example_dlist 16384 example_heap).1
           [4096; 8192; 12288; 16384].
Proof.
  assert (Hn : (16384 : Z) ∉ [4096; 8192; 12288]).
  { apply (bool_decide_unpack _). by vm_compute. }
  pose proof (list_insert_last_appends example_heap example_dlist [4096; 8192; 12288] 16384
                example_dlist_ok ltac:(done) Hn ltac:(reflexivity)) as H.
  destruct (DList.list_insert_last _ _ _) as [l' h']. exact (proj1 H).
Defined.

(** X2.  [list_insert_first] prepends: under the same conditions the list
    links [node :: xs] afterwards, and no node other than the new one and the
    former first one is written. *)
Theorem list_insert_first_prepends (h : DList.heap) (l : DList.list_t) (xs : list Z)
    (node : Z) :
  is_dlist h l xs → node ≠ 0 → node ∉ xs → DList.count l < INT_MAX →
  let '(l', h') := DList.list_insert_first l node h in
  is_dlist h' l' (node :: xs)
  ∧ ∀ p, p ≠ node → p ≠ DList.first l → DList.node_at h' p = DList.node_at h p.
Proof.
  intros Hl Hnz Hnotin Hc. pose proof (is_dlist_empty h l xs Hl) as [He _].
  unfold DList.list_insert_first.
  destruct Hl as [Hf Hla Hcnt Hnd Hseg].
  assert (Hcnt' : s32 (DList.count l + 1) = Z.of_nat (length (node :: xs))).
  { cbn [length]. rewrite Nat2Z.inj_succ, <- Hcnt. unfold INT_MAX in Hc.
    rewrite s32_small by lia. done. }
  assert (Hnd' : NoDup (node :: xs)) by (by apply NoDup_cons).
  destruct (DList.list_is_empty l) eqn:E.
  - assert (xs = []) as -> by (by apply He). cbn in Hf. split.
    + split; cbn; [done|done|exact Hcnt'|done|].
      rewrite node_at_set_pre_eq. cbn. rewrite node_at_set_next_eq. cbn. done.
    + intros p Hp _. by rewrite node_at_set_pre_ne, node_at_set_next_ne.
  - destruct xs as [|x rest].
    { by pose proof (proj2 He eq_refl). }
    cbn in Hf. rewrite Hf.
    assert (Hx : node ≠ x).
    { intros ->. apply Hnotin, list_elem_of_here. }
    apply NoDup_cons in Hnd as [Hxr Hnd].
    split.
    + split; [done|by rewrite last_cons_cons|exact Hcnt'|done|].
      cbn [dlist_seg].
      rewrite node_at_set_pre_ne, node_at_set_pre_eq by done. cbn.
      rewrite node_at_set_next_eq. cbn.
      split; [done|]. split; [done|]. split; [done|].
      apply (dlist_seg_set_pre_head _ x node rest 0 0 Hxr).
      eapply dlist_seg_frame; [|exact Hseg].
      intros z Hz. rewrite node_at_set_pre_ne, node_at_set_next_ne; [done|..];
        by intros ->.
    + intros p Hp Hp'. by rewrite !node_at_set_pre_ne, node_at_set_next_ne.
Qed.

Lemma list_insert_first_prepends_witness :
  is_dlist (DList.list_insert_first example_dlist 16384 example_heap).2
           (DList.list_insert_first example_dlist 16384 example_heap).1
           [16384; 4096; 8192; 12288].
Proof.
  assert (Hn : (16384 : Z) ∉ [4096; 8192; 12288]).
  { apply (bool_decide_unpack _). by vm_compute. }
  pose proof (list_insert_first_prepends example_heap example_dlist [4096; 8192; 12288] 16384
                example_dlist_ok ltac:(done) Hn ltac:(reflexivity)) as H.
  destruct (DList.list_insert_first _ _ _) as [l' h']. exact (proj1 H).
Defined.

(** X3.  [list_remove_first] pops the head: on an empty list it returns the
    null pointer and changes nothing; otherwise it returns the first node,
    the list links the remaining nodes in their order, and the node returned
    has both links cleared. *)
Theorem list_remove_first_pops (h : DList.heap) (l : DList.list_t) (xs : list Z) :
  is_dlist h l xs → DList.count l <= INT_MAX →
  let '(r, l', h') := DList.list_remove_first l h in
  match xs with
  | [] => r = 0 ∧ l' = l ∧ h' = h
  | x :: rest =>
      r = x ∧ is_dlist h' l' rest ∧ dlist_detached h' x
      ∧ ∀ p, p ≠ x → p ≠ default 0 (head rest) → DList.node_at h' p = DList.node_at h p
  end.
Proof.
  intros Hl Hc. pose proof (is_dlist_empty h l xs Hl) as [He _].
  unfold DList.list_remove_first.
  destruct Hl as [Hf Hla Hcnt Hnd Hseg].
  destruct (DList.list_is_empty l) eqn:E.
  { assert (xs = []) as -> by (by apply He). done. }
  destruct xs as [|x rest].
  { by pose proof (proj2 He eq_refl). }
  cbn in Hf. rewrite Hf.
  destruct Hseg as (Hx & Hp & Hn & Hrest). rewrite Hn.
  apply NoDup_cons in Hnd as [Hxr Hnd].
  assert (Hcnt' : s32 (DList.count l - 1) = Z.of_nat (length rest)).
  { rewrite Hcnt in Hc |- *. cbn [length] in *. unfold INT_MAX in Hc.
    rewrite s32_small by lia. lia. }
  assert (Hdet : ∀ h0, dlist_detached (DList.set_next x 0 (DList.set_pre x 0 h0)) x).
  { intros h0. unfold dlist_detached.
    by rewrite node_at_set_next_eq, node_at_set_pre_eq. }
  destruct rest as [|y r]; cbn [head default].
  - rewrite decide_True by done. split; [done|]. split; [|split; [apply Hdet|]].
    + split; cbn; [done|done|exact Hcnt'|done|done].
    + intros p Hp1 _. by rewrite node_at_set_next_ne, node_at_set_pre_ne.
  - destruct Hrest as (Hy & Hrest').
    rewrite decide_False by done. rewrite decide_False by done.
    assert (Hxy : x ≠ y).
    { intros ->. apply Hxr, list_elem_of_here. }
    split; [done|]. split; [|split; [apply Hdet|]].
    + split; [done| |exact Hcnt'|done|].
      * rewrite Hla. by rewrite last_cons_cons.
      * apply NoDup_cons in Hnd as [Hyr _].
        eapply dlist_seg_frame;
          [|apply (dlist_seg_set_pre_head h y 0 r x 0 Hyr); by split].
        intros z Hz. rewrite node_at_set_next_ne, node_at_set_pre_ne; [done|..];
          by intros ->.
    + intros p Hp1 Hp2.
      by rewrite node_at_set_next_ne, !node_at_set_pre_ne.
Qed.

Lemma list_remove_first_pops_witness :
  (DList.list_remove_first example_dlist example_heap).1.1 = 4096
  ∧ is_dlist (DList.list_remove_first example_dlist example_heap).2
             (DList.list_remove_first example_dlist example_heap).1.2
             [8192; 12288].
Proof.
  pose proof (list_remove_first_pops example_heap example_dlist [4096; 8192; 12288]
                example_dlist_ok ltac:(by vm_compute)) as H.
  destruct (DList.list_remove_first _ _) as [[r l'] h'].
  destruct H as (H1 & H2 & _). by split.
Defined.

(** X4.  [list_remove] unlinks a member: for a node of the list, wherever it
    stands, the list afterwards links the other nodes in their order, its
    counter is one lower, and the node removed has both links cleared. *)
Theorem list_remove_unlinks (h : DList.heap) (l : DList.list_t) (xs : list Z) (node : Z) :
  is_dlist h l xs → node ∈ xs → DList.count l <= INT_MAX →
  let '(r, l', h') := DList.list_remove l node h in
  r = node
  ∧ is_dlist h' l' (filter (λ x, x ≠ node) xs)
  ∧ dlist_detached h' node.
Proof.
  intros Hl Hin Hc. pose proof (λ x, is_dlist_nonzero h l xs x Hl) as Hnz.
  destruct Hl as [Hf Hla Hcnt Hnd Hseg].
  apply list_elem_of_split in Hin as (l1 & l2 & ->).
  apply NoDup_app in Hnd as (Hnd1 & Hdisj & Hnd2).
  apply NoDup_cons in Hnd2 as [Hn2 Hnd2].
  assert (Hn1 : node ∉ l1).
  { intros Hin. apply (Hdisj node Hin), list_elem_of_here. }
  assert (Hd12 : ∀ a, a ∈ l1 → a ∉ l2).
  { intros a Ha Ha'. apply (Hdisj a Ha). by apply list_elem_of_further. }
  rewrite filter_app, filter_cons_False by (intros Hne; by apply Hne).
  rewrite !filter_ne_notin by done.
  apply dlist_seg_app in Hseg as [Hs1 Hs2]. cbn [head default] in Hs1.
  destruct Hs2 as (Hnode & Hpre & Hnext & Hs2).
  set (P := default 0 (last l1)) in *. set (N := default 0 (head l2)) in *.
  assert (HP : P ≠ 0 ↔ l1 ≠ []).
  { unfold P. destruct l1 as [|a r _] using rev_ind; [done|].
    rewrite last_snoc. cbn. split; [intros _; by destruct r|]. intros _.
    apply Hnz, elem_of_app. left. apply elem_of_app. right. apply list_elem_of_here. }
  assert (HN : N ≠ 0 ↔ l2 ≠ []).
  { unfold N. destruct l2 as [|a r]; [done|]. cbn. split; [done|]. intros _.
    apply Hnz, elem_of_app. right. apply list_elem_of_further, list_elem_of_here. }
  assert (HPin : l1 ≠ [] → P ∈ l1).
  { unfold P. destruct l1 as [|a r _] using rev_ind; [done|]. intros _.
    rewrite last_snoc. cbn. apply elem_of_app. right. apply list_elem_of_here. }
  assert (HNin : l2 ≠ [] → N ∈ l2).
  { unfold N. destruct l2 as [|a r]; [done|]. intros _. apply list_elem_of_here. }
  unfold DList.list_remove. rewrite Hpre, Hnext.
  set (h1 := if decide (P ≠ 0) then DList.set_next P N h else h).
  assert (E1 : ∀ p, p ≠ P → DList.node_at h1 p = DList.node_at h p).
  { intros p Hp. unfold h1. destruct (decide (P ≠ 0)); [|done]. by apply node_at_set_next_ne. }
  assert (HnP : node ≠ P ∨ l1 = []).
  { destruct l1 as [|a r]; [by right|]. left. intros ->. by apply Hn1, HPin. }
  assert (E1n : DList.node_at h1 node = DList.node_at h node).
  { destruct HnP as [?| ->]; [by apply E1|]. unfold h1. by rewrite decide_False by tauto. }
  rewrite E1n, Hpre, Hnext.
  set (h2 := if decide (N ≠ 0) then DList.set_pre N P h1 else h1).
  assert (E2 : ∀ p, p ≠ N → DList.node_at h2 p = DList.node_at h1 p).
  { intros p Hp. unfold h2. destruct (decide (N ≠ 0)); [|done]. by apply node_at_set_pre_ne. }
  set (h3 := DList.set_pre node 0 (DList.set_next node 0 h2)).
  assert (E3 : ∀ p, p ≠ node → DList.node_at h3 p = DList.node_at h2 p).
  { intros p Hp. unfold h3. by rewrite node_at_set_pre_ne, node_at_set_next_ne. }
  split; [done|]. split; [|unfold dlist_detached, h3;
                           by rewrite node_at_set_pre_eq, node_at_set_next_eq].
  split.
  - cbn [DList.first]. rewrite Hf.
    destruct l1 as [|a r]; cbn [app head default].
    + by rewrite decide_True.
    + rewrite decide_False; [done|]. intros ->. apply Hn1, list_elem_of_here.
  - cbn [DList.last]. rewrite Hla, last_app_cons.
    destruct l2 as [|a r _] using rev_ind.
    + rewrite last_singleton, app_nil_r. cbn. by rewrite decide_True.
    + rewrite app_comm_cons, !last_snoc, app_assoc, last_snoc. cbn.
      rewrite decide_False; [done|]. intros ->.
      apply Hn2, elem_of_app. right. apply list_elem_of_here.
  - cbn [DList.count]. rewrite Hcnt in Hc |- *.
    rewrite !length_app in *. cbn [length] in *. unfold INT_MAX in Hc.
    rewrite s32_small by lia. lia.
  - apply NoDup_app. split; [done|]. split; [done|done].
  - apply dlist_seg_app. fold N. fold P. split.
    + destruct l1 as [|y r _] using rev_ind; [done|].
      assert (EP : P = y) by (unfold P; by rewrite last_snoc).
      assert (Hh1 : dlist_seg h1 0 (r ++ [y]) N).
      { unfold h1. rewrite decide_True by (apply HP; by destruct r). rewrite EP.
        by apply dlist_seg_set_next_last with (nxt := node). }
      eapply dlist_seg_frame; [|exact Hh1].
      intros z Hz. rewrite E3 by (intros ->; done). apply E2.
      intros ->. apply (Hd12 N Hz), HNin. apply HN. intros E0.
      apply (Hnz 0); [|done]. apply elem_of_app. left. by rewrite <- E0.
    + destruct l2 as [|z r]; [done|].
      assert (EN : N = z) by done.
      assert (Hzr : z ∉ r) by (by apply NoDup_cons in Hnd2 as [? _]).
      assert (Hh1 : dlist_seg h1 node (z :: r) 0).
      { eapply dlist_seg_frame; [|exact Hs2]. intros a Ha. apply E1.
        intros ->. destruct l1 as [|b l1']; [|by apply (Hd12 P); [apply HPin|]].
        apply (Hnz 0); [|done]. apply elem_of_app. right. by apply list_elem_of_further. }
      eapply dlist_seg_frame; [|apply (dlist_seg_set_pre_head h1 z P r node 0 Hzr Hh1)].
      intros a Ha. rewrite E3 by (intros ->; done).
      unfold h2. rewrite decide_True by (rewrite EN; apply Hnz, elem_of_app; right;
                                         apply list_elem_of_further, list_elem_of_here).
      by rewrite EN.
Qed.

Lemma list_remove_unlinks_witness :
  is_dlist (DList.list_remove example_dlist 8192 example_heap).2
           (DList.list_remove example_dlist 8192 example_heap).1.2
           [4096; 12288].
Proof.
  assert (Hin : (8192 : Z) ∈ [4096; 8192; 12288]).
  { apply (bool_decide_unpack _). by vm_compute. }
  pose proof (list_remove_unlinks example_heap example_dlist [4096; 8192; 12288] 8192
                example_dlist_ok Hin ltac:(by vm_compute)) as H.
  destruct (DList.list_remove _ _ _) as [[r l'] h'].
  destruct H as (_ & H2 & _). exact H2.
Defined.

(** X5.  [list_remove] does not check that the node is on the list: called
    with a node that is linked nowhere, it leaves every link and both ends of
    the list as they were and still decrements the counter, so that the list
    counts one node less than it links. *)
Theorem list_remove_non_member_miscounts (h : DList.heap) (l : DList.list_t)
    (xs : list Z) (node : Z) :
  is_dlist h l xs → node ≠ 0 → node ∉ xs → dlist_detached h node →
  DList.count l <= INT_MAX →
  let '(r, l', h') := DList.list_remove l node h in
  r = node
  ∧ DList.first l' = DList.first l ∧ DList.last l' = DList.last l
  ∧ dlist_seg h' 0 xs 0
  ∧ DList.count l' = Z.of_nat (length xs) - 1
  ∧ ¬ is_dlist h' l' xs.
Proof.
  intros Hl Hnz Hnotin Hdet Hc. pose proof (λ x, is_dlist_nonzero h l xs x Hl) as Hnzs.
  destruct Hl as [Hf Hla Hcnt Hnd Hseg].
  unfold DList.list_remove. unfold dlist_detached in Hdet. rewrite Hdet. cbn [DList.pre DList.next DList.node_zero].
  rewrite (decide_False (P := 0 ≠ 0)) by (intros Hne; by apply Hne).
  rewrite Hdet. cbn [DList.pre DList.next DList.node_zero].
  rewrite (decide_False (P := 0 ≠ 0)) by (intros Hne; by apply Hne).
  assert (Hnf : node ≠ DList.first l).
  { rewrite Hf. destruct xs as [|a r]; [done|]. cbn. intros ->.
    apply Hnotin, list_elem_of_here. }
  assert (Hnl : node ≠ DList.last l).
  { rewrite Hla. destruct xs as [|a r _] using rev_ind; [done|].
    rewrite last_snoc. cbn. intros ->. apply Hnotin, elem_of_app. right.
    apply list_elem_of_here. }
  rewrite !decide_False by done.
  assert (Hcnt' : s32 (DList.count l - 1) = Z.of_nat (length xs) - 1).
  { rewrite Hcnt in Hc |- *. unfold INT_MAX in Hc. rewrite s32_small by lia. done. }
  split; [done|]. split; [done|]. split; [done|]. split; [|split; [exact Hcnt'|]].
  - eapply dlist_seg_frame; [|exact Hseg]. intros x Hx.
    rewrite node_at_set_pre_ne, node_at_set_next_ne; [done|..]; by intros ->.
  - intros [_ _ Hcnt2 _ _]. cbn [DList.count] in Hcnt2. lia.
Qed.

Lemma list_remove_non_member_miscounts_witness :
  DList.count (DList.list_remove example_dlist 16384 example_heap).1.2 = 2
  ∧ dlist_seg (DList.list_remove example_dlist 16384 example_heap).2 0
      [4096; 8192; 12288] 0.
Proof.
  assert (Hn : (16384 : Z) ∉ [4096; 8192; 12288]).
  { apply (bool_decide_unpack _). by vm_compute. }
  pose proof (list_remove_non_member_miscounts example_heap example_dlist
                [4096; 8192; 12288] 16384
                example_dlist_ok ltac:(done) Hn ltac:(reflexivity) ltac:(by vm_compute)) as H.
  destruct (DList.list_remove _ _ _) as [[r l'] h'].
  destruct H as (_ & _ & _ & H4 & H5 & _). split; [exact H5|exact H4].
Defined.
(** ** tty.c: the ring buffer *)

Lemma rotate_nat_add_Z (r k : Z) (len : nat) :
  0 <= r → 0 <= k →
  rotate_nat_add (Z.to_nat r) (Z.to_nat k) len = Z.to_nat ((r + k) mod Z.of_nat len).
Proof. intros Hr Hk. unfold rotate_nat_add. by rewrite !Z2Nat.id. Qed.

(** X6.  [tty_fifo_put] on a well-formed ring buffer: when the buffer is full
    it returns -1 and leaves the buffer as it is; otherwise it returns 0, the
    buffer stays well formed and holds the bytes it held followed by the new
    byte. *)
Theorem tty_fifo_put_appends (f : tty_fifo_t) (c : Z) :
  fifo_wf f →
  let '(r, f') := tty_fifo_put f c in
  if decide (fifo_count f = fifo_size f) then r = -1 ∧ f' = f
  else r = 0 ∧ fifo_wf f' ∧ fifo_contents f' = fifo_contents f ++ [c].
Proof.
  intros [Hsz Hbuf Hrd Hcnt Hwr]. unfold tty_fifo_put.
  destruct (decide (fifo_count f = fifo_size f)) as [Efull|Hroom].
  { by rewrite decide_True by lia. }
  rewrite decide_False by lia. split; [done|].
  set (w := fifo_write f) in *.
  assert (Hw : 0 <= w < fifo_size f) by (rewrite Hwr; apply Z.mod_pos_bound; lia).
  split.
  - split; cbn; [done|by rewrite length_insert|done|lia|].
    replace (fifo_read f + (fifo_count f + 1)) with (fifo_read f + fifo_count f + 1) by lia.
    rewrite <- Zplus_mod_idemp_l, <- Hwr.
    destruct (decide (w + 1 >= fifo_size f)).
    + replace (w + 1) with (fifo_size f) by lia. by rewrite Z_mod_same_full.
    + by rewrite Z.mod_small by lia.
  - unfold fifo_contents. cbn.
    replace (Z.to_nat (fifo_count f + 1)) with (S (Z.to_nat (fifo_count f))) by lia.
    assert (Ew : Z.to_nat w
                 = rotate_nat_add (Z.to_nat (fifo_read f)) (Z.to_nat (fifo_count f))
                     (length (fifo_buf f))).
    { rewrite rotate_nat_add_Z by lia. by rewrite Hbuf, Hwr. }
    rewrite Ew, rotate_insert_l by lia.
    rewrite (take_S_r _ _ c) by (apply list_lookup_insert_eq; rewrite length_rotate; lia).
    by rewrite take_insert_ge by lia.
Qed.

Lemma example_fifo_wf : fifo_wf example_fifo.
Proof. split; cbn; unfold INT_MAX; try lia. reflexivity. Qed.

Lemma tty_fifo_put_appends_witness :
  (tty_fifo_put example_fifo 99).1 = 0
  ∧ fifo_contents (tty_fifo_put example_fifo 99).2 = [97; 98; 99].
Proof.
  pose proof (tty_fifo_put_appends example_fifo 99 example_fifo_wf) as H.
  destruct (tty_fifo_put example_fifo 99) as [r f'].
  rewrite decide_False in H by (by vm_compute).
  destruct H as (H1 & _ & H3). split; [exact H1|exact H3].
Defined.

(** X7.  [tty_fifo_get] on a well-formed ring buffer: when the buffer is
    empty it returns -1 and leaves the buffer as it is; otherwise it returns
    0 with the oldest byte, the buffer stays well formed and holds the
    remaining bytes in their order. *)
Theorem tty_fifo_get_pops (f : tty_fifo_t) :
  fifo_wf f →
  let '(r, c, f') := tty_fifo_get f in
  match fifo_contents f with
  | [] => r = -1 ∧ c = None ∧ f' = f
  | x :: rest => r = 0 ∧ c = Some x ∧ fifo_wf f' ∧ fifo_contents f' = rest
  end.
Proof.
  intros [Hsz Hbuf Hrd Hcnt Hwr]. unfold tty_fifo_get, fifo_contents.
  destruct (decide (fifo_count f <= 0)) as [Hempty|Hsome].
  { replace (Z.to_nat (fifo_count f)) with 0%nat by lia. done. }
  set (L := rotate (Z.to_nat (fifo_read f)) (fifo_buf f)).
  assert (HL : length L = length (fifo_buf f)) by apply length_rotate.
  replace (Z.to_nat (fifo_count f)) with (S (Z.to_nat (fifo_count f - 1))) by lia.
  assert (Hhd : L !! 0%nat = fifo_buf f !! Z.to_nat (fifo_read f)).
  { unfold L. rewrite lookup_rotate_r by lia.
    rewrite (rotate_nat_add_Z (fifo_read f) 0) by lia.
    by rewrite Hbuf, Z.add_0_r, Z.mod_small by lia. }
  destruct L as [|x L'] eqn:EL; [cbn in HL; lia|].
  cbn [take]. cbn in Hhd. split; [done|]. split; [done|].
  set (r' := if decide (fifo_read f + 1 >= fifo_size f) then 0 else fifo_read f + 1).
  assert (Hr' : r' = (fifo_read f + 1) mod fifo_size f).
  { unfold r'. destruct (decide _).
    - replace (fifo_read f + 1) with (fifo_size f) by lia. by rewrite Z_mod_same_full.
    - by rewrite Z.mod_small by lia. }
  assert (Hr'b : 0 <= r' < fifo_size f) by (rewrite Hr'; apply Z.mod_pos_bound; lia).
  split.
  - split; cbn; fold r'; [done|done|done|lia|].
    rewrite Hwr, Hr', Zplus_mod_idemp_l. f_equal. lia.
  - cbn. fold r'. apply list_eq. intros i.
    destruct (decide (i < Z.to_nat (fifo_count f - 1))%nat) as [Hi|Hi].
    + rewrite !lookup_take_lt by done.
      change (L' !! i) with ((x :: L') !! S i). rewrite <- EL. unfold L.
      rewrite !lookup_rotate_r by lia. f_equal.
      replace (S i) with (Z.to_nat (Z.of_nat i + 1)) by lia.
      replace i with (Z.to_nat (Z.of_nat i)) at 1 by lia.
      rewrite !rotate_nat_add_Z by lia. rewrite Hbuf, Hr', Zplus_mod_idemp_l.
      f_equal. f_equal. lia.
    + by rewrite !lookup_take_ge by lia.
Qed.

Lemma tty_fifo_get_pops_witness :
  tty_fifo_get example_fifo = (0, Some 97, mk_fifo [98; 0; 0; 97] 4 0 1 1)
  ∧ fifo_contents (tty_fifo_get example_fifo).2 = [98].
Proof.
  pose proof (tty_fifo_get_pops example_fifo example_fifo_wf) as H.
  destruct (tty_fifo_get example_fifo) as [[r c] f'] eqn:E.
  change (fifo_contents example_fifo) with [97; 98] in H.
  destruct H as (_ & _ & _ & H4). split; [|exact H4].
  rewrite <- E. reflexivity.
Defined.
(** ** cpu.c: descriptor slots *)

Lemma gdt_alloc_desc_spec (s : kernel) :
  let '(sel, s') := gdt_alloc_desc s in
  (sel = -1 ∧ s' = s
   ∧ ∀ i d, (1 <= i)%nat → gdt_table s !! i = Some d → attr d ≠ 0)
  ∨ (∃ i d, sel = Z.of_nat i * 8 ∧ (1 <= i)%nat
      ∧ gdt_table s !! i = Some d ∧ attr d = 0
      ∧ (∀ j d', (1 <= j < i)%nat → gdt_table s !! j = Some d' → attr d' ≠ 0)
      ∧ gdt_table s' = <[i := set_attr SEG_P_PRESENT d]> (gdt_table s)
      ∧ s' = set_gdt_table (gdt_table s') s).
Proof.
  unfold gdt_alloc_desc.
  destruct (list_find _ _) as [[k d]|] eqn:E.
  - right. apply list_find_Some in E as (Hk & Hd & Hlow).
    rewrite lookup_drop in Hk. exists (S k), d.
    split; [done|]. split; [lia|]. split; [done|]. split; [done|]. split; [|split].
    + intros j d' Hj Hjd. destruct j as [|j]; [lia|].
      apply (Hlow j d'); [by rewrite lookup_drop|lia].
    + cbn. apply list_eq. intros j. destruct (decide (j = S k)) as [->|Hne].
      * rewrite list_lookup_alter_eq, list_lookup_insert_eq
          by (by eapply lookup_lt_Some). change (1 + k)%nat with (S k) in Hk. by rewrite Hk.
      * by rewrite list_lookup_alter_ne, list_lookup_insert_ne.
    + done.
  - left. split; [done|]. split; [done|].
    intros i d Hi Hd Hattr. destruct i as [|i]; [lia|].
    eapply (list_find_None (λ d, attr d = 0)) in E.
    rewrite Forall_forall in E. apply (E d); [|done].
    apply list_elem_of_lookup. exists i. by rewrite lookup_drop.
Qed.

(** X8.  [gdt_alloc_desc] hands out the lowest free slot above slot 0: either
    no slot from 1 on has [attr = 0], the result is -1 and nothing changes; or
    the result is 8 times the index of the first such slot, that slot is
    marked present, and no other descriptor is touched. *)
Theorem gdt_alloc_desc_lowest (s : kernel) :
  let '(sel, s') := gdt_alloc_desc s in
  (sel = -1 ∧ s' = s
   ∧ ∀ i d, (1 <= i)%nat → gdt_table s !! i = Some d → attr d ≠ 0)
  ∨ (∃ i d, sel = Z.of_nat i * 8 ∧ (1 <= i)%nat
      ∧ gdt_table s !! i = Some d ∧ attr d = 0
      ∧ (∀ j d', (1 <= j < i)%nat → gdt_table s !! j = Some d' → attr d' ≠ 0)
      ∧ gdt_table s' = <[i := set_attr SEG_P_PRESENT d]> (gdt_table s)
      ∧ s' = set_gdt_table (gdt_table s') s).
Proof. exact (gdt_alloc_desc_spec s). Qed.

(** X9.  Freeing the selector that [gdt_alloc_desc] returned restores the
    descriptor table (and with it the whole state) as it was before the
    allocation. *)
Theorem gdt_alloc_free_round_trip (s : kernel) :
  length (gdt_table s) = GDT_TABLE_SIZE →
  let '(sel, s') := gdt_alloc_desc s in
  sel = -1 ∨ gdt_free_sel sel s' = s.
Proof.
  intros Hlen. pose proof (gdt_alloc_desc_spec s) as H.
  destruct (gdt_alloc_desc s) as [sel s'].
  destruct H as [(-> & _)|(i & d & -> & Hi & Hd & Hattr & _ & Hg & Hs')]; [by left|].
  right. assert (Hlt : (i < 256)%nat).
  { apply lookup_lt_Some in Hd. by rewrite Hlen in Hd. }
  unfold gdt_free_sel. rewrite Hg.
  assert (Ei : Z.to_nat (u32 (Z.of_nat i * 8) / 8) = i).
  { unfold u32. rewrite Z.mod_small by lia. rewrite Z.div_mul by lia. lia. }
  rewrite Ei.
  assert (Eg : alter (set_attr 0) i (<[i:=set_attr SEG_P_PRESENT d]> (gdt_table s))
               = gdt_table s).
  { apply list_eq. intros j. destruct (decide (j = i)) as [->|Hne].
    - rewrite list_lookup_alter_eq, list_lookup_insert_eq by (by eapply lookup_lt_Some).
      rewrite Hd. cbn. f_equal. destruct d. cbn in *. by subst.
    - by rewrite list_lookup_alter_ne, list_lookup_insert_ne. }
  rewrite Hs', Eg. by destruct s.
Qed.

Lemma gdt_alloc_free_round_trip_witness :
  (gdt_alloc_desc example_kernel).1 = 72
  ∧ gdt_free_sel 72 (gdt_alloc_desc example_kernel).2 = example_kernel.
Proof.
  pose proof (gdt_alloc_free_round_trip example_kernel eq_refl) as H.
  destruct (gdt_alloc_desc example_kernel) as [sel s'] eqn:E.
  assert (Esel : sel = 72).
  { change sel with (sel, s').1. rewrite <- E. reflexivity. }
  subst sel. destruct H as [H|H]; [discriminate H|]. split; [reflexivity|exact H].
Defined.
Lemma testbit_small (m n k : Z) : 0 <= m < 2 ^ k → 0 <= k <= n → Z.testbit m n = false.
Proof.
  intros Hm Hn. rewrite <- (Z.mod_small m (2 ^ k)) by done.
  apply Z.mod_pow2_bits_high. lia.
Qed.

(** The four limit bits that [segment_desc_set] ors into [attr] are read
    back as they were put in. *)
Lemma attr_limit_bits (a m : Z) :
  0 <= m < 16 → Z.land a 3840 = 0 →
  Z.land (Z.shiftr (u16 (Z.lor a (Z.shiftl m 8))) 8) 15 = m.
Proof.
  intros Hm Ha. apply Z.bits_inj'. intros n Hn.
  rewrite Z.land_spec, Z.shiftr_spec by lia.
  destruct (decide (n < 4)) as [Hlt|Hge].
  - change 15 with (Z.ones 4). rewrite Z.ones_spec_low by lia.
    rewrite andb_true_r. unfold u16. change 65536 with (2 ^ 16).
    rewrite Z.mod_pow2_bits_low by lia.
    rewrite Z.lor_spec, Z.shiftl_spec by lia.
    replace (n + 8 - 8) with n by lia.
    assert (Z.testbit a (n + 8) = false) as ->; [|done].
    assert (Hb : Z.testbit (Z.land a 3840) (n + 8) = false) by (rewrite Ha; apply Z.bits_0).
    rewrite Z.land_spec in Hb. change 3840 with (Z.shiftl (Z.ones 4) 8) in Hb.
    rewrite Z.shiftl_spec in Hb by lia. replace (n + 8 - 8) with n in Hb by lia.
    rewrite Z.ones_spec_low in Hb by lia. by rewrite andb_true_r in Hb.
  - rewrite (testbit_small 15 n 4) by lia. rewrite andb_false_r.
    symmetry. apply (testbit_small m n 4); lia.
Qed.

Lemma attr_low_bits (a m : Z) :
  Z.land (u16 (Z.lor a (Z.shiftl m 8))) 255 = Z.land a 255.
Proof.
  apply Z.bits_inj'. intros n Hn. rewrite !Z.land_spec.
  destruct (decide (n < 8)) as [Hlt|Hge].
  - unfold u16. change 65536 with (2 ^ 16). rewrite Z.mod_pow2_bits_low by lia.
    rewrite Z.lor_spec, Z.shiftl_spec_low by lia. by rewrite orb_false_r.
  - rewrite (testbit_small 255 n 8) by lia. by rewrite !andb_false_r.
Qed.

Lemma base_fields (base : Z) :
  0 <= base < 4294967296 →
  Z.land base 65535 + 65536 * Z.land (Z.shiftr base 16) 255
  + 16777216 * Z.land (Z.shiftr base 24) 255 = base.
Proof.
  intros Hb. change 65535 with (Z.ones 16). change 255 with (Z.ones 8).
  rewrite !Z.land_ones, !Z.shiftr_div_pow2 by lia.
  change (2 ^ 16) with 65536. change (2 ^ 24) with 16777216. change (2 ^ 8) with 256.
  Z.to_euclidean_division_equations. lia.
Qed.

(** X10.  What [segment_desc_set] writes is read back by the processor as
    it was meant: the three base fields make up the base address; a limit of
    at most 0xFFFFF is stored as it is, with the granularity bit as the
    caller passed it; a larger limit is stored in units of 4 KiB with the
    granularity bit set; and the low byte of the attributes (present bit,
    privilege level, type) is the caller's. *)
Theorem segment_desc_set_decodes (selector base limit attr0 : Z) (s : kernel)
    (d : segment_desc_t) :
  0 <= base < 4294967296 → 0 <= limit < 4294967296 →
  0 <= attr0 < 65536 → Z.land attr0 3840 = 0 →
  gdt_table (segment_desc_set selector base limit attr0 s) !! Z.to_nat (Z.shiftr selector 3)
    = Some d →
  desc_base d = base
  ∧ (if decide (limit <= 1048575)
     then desc_limit d = limit ∧ desc_granular d = Z.testbit attr0 15
     else desc_limit d = limit / 4096 ∧ desc_granular d = true)
  ∧ Z.land (attr d) 255 = Z.land attr0 255.
Proof.
  intros Hbase Hlimit Hattr Hclear. unfold segment_desc_set. cbn [gdt_table set_gdt_table].
  intros Hd.
  assert (Hlt : (Z.to_nat (Z.shiftr selector 3) < length (gdt_table s))%nat).
  { apply lookup_lt_Some in Hd. by rewrite length_insert in Hd. }
  rewrite list_lookup_insert_eq in Hd by done. injection Hd as <-.
  unfold desc_base, desc_limit, desc_granular. cbn [base15_0 base23_16 base31_24 limit15_0 attr].
  split; [by apply base_fields|].
  assert (Hlim : ∀ l1, 0 <= l1 < 1048576 →
            Z.land l1 65535 + 65536 * Z.land (Z.shiftr l1 16) 15 = l1).
  { intros l1 Hl1. change 65535 with (Z.ones 16). change 15 with (Z.ones 4).
    rewrite !Z.land_ones, !Z.shiftr_div_pow2 by lia.
    change (2 ^ 16) with 65536. change (2 ^ 4) with 16.
    Z.to_euclidean_division_equations. lia. }
  assert (Hm : ∀ l1, 0 <= Z.land (Z.shiftr l1 16) 15 < 16).
  { intros l1. change 15 with (Z.ones 4). rewrite Z.land_ones by lia.
    apply Z.mod_pos_bound. lia. }
  destruct (decide (limit <= 1048575)) as [Hsmall|Hbig].
  - rewrite bool_decide_eq_false_2 by lia. split; [split|].
    + rewrite attr_limit_bits by (apply Hm || done). apply Hlim. lia.
    + unfold u16. change 65536 with (2 ^ 16). rewrite Z.mod_pow2_bits_low by lia.
      rewrite Z.lor_spec, Z.shiftl_spec by lia.
      rewrite (testbit_small _ (15 - 8) 4) by (apply Hm || lia). by rewrite orb_false_r.
    + apply attr_low_bits.
  - rewrite bool_decide_eq_true_2 by lia.
    assert (Hl1 : 0 <= limit / 4096 < 1048576).
    { Z.to_euclidean_division_equations. lia. }
    assert (Hg : Z.land (u16 (Z.lor attr0 32768)) 3840 = 0).
    { apply Z.bits_inj'. intros n Hn. rewrite Z.land_spec, Z.bits_0.
      destruct (decide (n < 15)) as [Hlo|Hhi].
      - unfold u16. change 65536 with (2 ^ 16). rewrite Z.mod_pow2_bits_low by lia.
        rewrite Z.lor_spec. change 32768 with (Z.shiftl 1 15).
        rewrite Z.shiftl_spec_low by lia. rewrite orb_false_r.
        rewrite <- Z.land_spec, Hclear. apply Z.bits_0.
      - rewrite (testbit_small 3840 n 12) by lia. apply andb_false_r. }
    split; [split|].
    + rewrite attr_limit_bits by (apply Hm || done). by apply Hlim.
    + unfold u16. change 65536 with (2 ^ 16). rewrite Z.mod_pow2_bits_low by lia.
      rewrite Z.lor_spec, Z.mod_pow2_bits_low by lia.
      rewrite Z.lor_spec. change (Z.testbit 32768 15) with true.
      by rewrite orb_true_r.
    + rewrite attr_low_bits. apply Z.bits_inj'. intros n Hn. rewrite !Z.land_spec.
      destruct (decide (n < 8)) as [Hlt8|Hge8].
      * unfold u16. change 65536 with (2 ^ 16). rewrite Z.mod_pow2_bits_low by lia.
        rewrite Z.lor_spec. change 32768 with (Z.shiftl 1 15).
        rewrite Z.shiftl_spec_low by lia. by rewrite orb_false_r.
      * rewrite (testbit_small 255 n 8) by lia. by rewrite !andb_false_r.
Qed.

Lemma segment_desc_set_decodes_witness :
  let s := segment_desc_set 72 131652 104 137 example_kernel in
  ∃ d, gdt_table s !! 9%nat = Some d
       ∧ desc_base d = 131652 ∧ desc_limit d = 104 ∧ desc_granular d = false
       ∧ Z.land (attr d) 255 = 137.
Proof.
  cbv zeta. eexists. split; [reflexivity|].
  destruct (segment_desc_set_decodes 72 131652 104 137 example_kernel _
              ltac:(lia) ltac:(lia) ltac:(lia) eq_refl eq_refl) as (H1 & H2 & H3).
  rewrite decide_True in H2 by lia. destruct H2 as [H2 H2'].
  split; [exact H1|]. split; [exact H2|]. split; [exact H2'|exact H3].
Defined.
(** ** file.c and the descriptor table of a task *)

(** A linear scan [for (i = 0; i < n; i++) if (P i) break] stops at the
    lowest index that satisfies [P]. *)
Lemma find_seq_lowest (P : nat → bool) (n a : nat) :
  match find P (seq a n) with
  | Some i => (a <= i < a + n)%nat ∧ P i = true ∧ ∀ j, (a <= j < i)%nat → P j = false
  | None => ∀ j, (a <= j < a + n)%nat → P j = false
  end.
Proof.
  revert a. induction n as [|n IH]; intros a; cbn [seq find].
  - intros j Hj. lia.
  - destruct (P a) eqn:Ea.
    + split; [lia|]. split; [done|]. intros j Hj. lia.
    + specialize (IH (S a)). destruct (find P (seq (S a) n)) as [i|].
      * destruct IH as (Hi & HP & Hlow). split; [lia|]. split; [done|].
        intros j Hj. destruct (decide (j = a)) as [->|]; [done|]. apply Hlow. lia.
      * intros j Hj. destruct (decide (j = a)) as [->|]; [done|]. apply IH. lia.
Qed.

Lemma file_at_upd_file_ne s f g j : j ≠ f → file_at (upd_file f g s) j = file_at s j.
Proof. intros Hne. unfold file_at, upd_file. cbn. by rewrite lookup_insert_ne. Qed.

Lemma file_alloc_spec `{Layout} (s : kernel) :
  match file_alloc s with
  | (Some i, s') =>
      (i < FILE_TABLE_SIZE)%nat
      ∧ f_ref (file_at s i) = 0
      ∧ (∀ j, (j < i)%nat → f_ref (file_at s j) ≠ 0)
      ∧ file_at s' i = mk_file [] 0 1
      ∧ (∀ j, j ≠ i → file_at s' j = file_at s j)
  | (None, s') =>
      s' = s ∧ ∀ j, (j < FILE_TABLE_SIZE)%nat → f_ref (file_at s j) ≠ 0
  end.
Proof.
  unfold file_alloc.
  pose proof (find_seq_lowest (λ i, bool_decide (f_ref (file_at s i) = 0))
                FILE_TABLE_SIZE 0) as Hf.
  destruct (find _ _) as [i|].
  - destruct Hf as (Hi & HP & Hlow). apply bool_decide_eq_true in HP.
    split; [lia|]. split; [done|]. split; [|split].
    + intros j Hj. specialize (Hlow j ltac:(lia)). by apply bool_decide_eq_false in Hlow.
    + by rewrite file_at_upd_file_eq.
    + intros j Hj. by apply file_at_upd_file_ne.
  - split; [done|]. intros j Hj. specialize (Hf j ltac:(lia)).
    by apply bool_decide_eq_false in Hf.
Qed.

(** X11.  [file_alloc] takes the lowest entry of the system file table
    whose reference count is 0, clears it and sets the count to 1; no other
    entry changes.  When every entry is referenced it returns the null
    pointer and changes nothing. *)
Theorem file_alloc_lowest `{Layout} (s : kernel) :
  match file_alloc s with
  | (Some i, s') =>
      (i < FILE_TABLE_SIZE)%nat
      ∧ f_ref (file_at s i) = 0
      ∧ (∀ j, (j < i)%nat → f_ref (file_at s j) ≠ 0)
      ∧ file_at s' i = mk_file [] 0 1
      ∧ (∀ j, j ≠ i → file_at s' j = file_at s j)
  | (None, s') =>
      s' = s ∧ ∀ j, (j < FILE_TABLE_SIZE)%nat → f_ref (file_at s j) ≠ 0
  end.
Proof. exact (file_alloc_spec s). Qed.

(** X12.  Reference counting: [file_inc_ref] followed by [file_free]
    restores the entry; [file_free] on an entry that nobody references
    changes nothing, so the count never drops below zero; and freeing the
    entry [file_alloc] returned makes it the entry the next [file_alloc]
    returns. *)
Theorem file_ref_counting `{Layout} (s : kernel) (f : nat) :
  0 <= f_ref (file_at s f) < INT_MAX →
  file_at (file_free f (file_inc_ref f s)) f = file_at s f
  ∧ (f_ref (file_at s f) = 0 → file_free f s = s)
  ∧ 0 <= f_ref (file_at (file_free f s) f)
  ∧ ∀ i s', file_alloc s = (Some i, s') → (file_alloc (file_free i s')).1 = Some i.
Proof.
  intros Hr. unfold INT_MAX in Hr. split; [|split; [|split]].
  - set (s1 := file_inc_ref f s).
    assert (E1 : file_at s1 f
                 = mk_file (f_data (file_at s f)) (f_pos (file_at s f)) (f_ref (file_at s f) + 1)).
    { unfold s1, file_inc_ref. rewrite file_at_upd_file_eq. by rewrite s32_small by lia. }
    unfold file_free. rewrite E1. cbn [f_ref]. rewrite decide_True by lia.
    rewrite file_at_upd_file_eq, E1. cbn. rewrite s32_small by lia.
    replace (f_ref (file_at s f) + 1 - 1) with (f_ref (file_at s f)) by lia.
    by destruct (file_at s f).
  - intros E0. unfold file_free. by rewrite decide_False by (intros Hne; by apply Hne).
  - unfold file_free. destruct (decide _) as [Hne|Heq].
    + rewrite file_at_upd_file_eq. cbn. rewrite s32_small by lia. lia.
    + lia.
  - intros i s' Ha. pose proof (file_alloc_spec s) as Hspec. rewrite Ha in Hspec.
    destruct Hspec as (Hi & H0 & Hlow & Hnew & Hoth).
    pose proof (file_alloc_spec (file_free i s')) as Hspec2.
    assert (Efree : file_at (file_free i s') i = mk_file [] 0 0).
    { unfold file_free. rewrite Hnew. cbn. rewrite decide_True by done.
      rewrite file_at_upd_file_eq, Hnew. done. }
    assert (Eoth : ∀ j, j ≠ i → file_at (file_free i s') j = file_at s j).
    { intros j Hj. unfold file_free. destruct (decide _); [|by apply Hoth].
      rewrite file_at_upd_file_ne by done. by apply Hoth. }
    destruct (file_alloc (file_free i s')) as [[k|] s2]; cbn.
    + destruct Hspec2 as (Hk & Hk0 & Hklow & _). f_equal.
      destruct (decide (k = i)) as [|Hne]; [done|]. exfalso.
      destruct (decide (k < i)%nat) as [Hlt|Hge].
      * apply (Hlow k Hlt). by rewrite <- Eoth.
      * apply (Hklow i ltac:(lia)). by rewrite Efree.
    + destruct Hspec2 as [_ Hall]. exfalso. apply (Hall i Hi). by rewrite Efree.
Qed.

Lemma file_ref_counting_witness :
  file_free 0 example_kernel = example_kernel
  ∧ (file_alloc (H := example_layout)
       (file_free 0 (file_alloc (H := example_layout) example_kernel).2)).1 = Some 0%nat.
Proof.
  destruct (file_ref_counting (H := example_layout) example_kernel 0
              ltac:(by vm_compute)) as (_ & H2 & _ & H4).
  split; [by apply H2|]. by apply (H4 0%nat).
Defined.

Lemma task_file_upd_other s curr fd g :
  task_current s = Some curr →
  task_file fd (upd_task curr (λ t, set_file_table (g (file_table t)) t) s)
  = if decide (fd >= 0 ∧ fd < Z.of_nat TASK_OFILE_NR)
    then g (file_table (task_at s curr)) !! Z.to_nat fd else None.
Proof.
  intros Hc. unfold task_file. destruct (decide _); [|done].
  unfold task_current in *. cbn. rewrite Hc. by rewrite task_at_upd_eq.
Qed.

(** X13.  The descriptor table of the current task: [task_alloc_fd] binds
    the lowest free descriptor to the file and leaves the others alone (-1
    and no change when all 128 are taken); [task_file] then yields that file;
    and after [task_remove_fd] the descriptor is free again, the others still
    as before. *)
Theorem task_fd_round_trip (s : kernel) (curr file : nat) :
  task_current s = Some curr →
  let '(fd, s') := task_alloc_fd file s in
  (fd = -1 ∧ s' = s
   ∧ ∀ j, 0 <= j < Z.of_nat TASK_OFILE_NR → task_file j s ≠ None)
  ∨ (0 <= fd < Z.of_nat TASK_OFILE_NR
     ∧ task_file fd s = None
     ∧ (∀ j, 0 <= j < fd → task_file j s ≠ None)
     ∧ task_file fd s' = Some file
     ∧ (∀ j, j ≠ fd → task_file j s' = task_file j s)
     ∧ task_file fd (task_remove_fd fd s') = None
     ∧ ∀ j, j ≠ fd → task_file j (task_remove_fd fd s') = task_file j s).
Proof.
  intros Hc. unfold task_alloc_fd. rewrite Hc.
  pose proof (find_seq_lowest
                (λ i, bool_decide (file_table (task_at s curr) !! i = None))
                TASK_OFILE_NR 0) as Hf.
  assert (Htf : ∀ j, 0 <= j < Z.of_nat TASK_OFILE_NR →
            task_file j s = file_table (task_at s curr) !! Z.to_nat j).
  { intros j Hj. unfold task_file. rewrite decide_True by lia. by rewrite Hc. }
  destruct (find _ _) as [i|].
  - right. destruct Hf as (Hi & HP & Hlow). apply bool_decide_eq_true in HP.
    assert (Hfd : 0 <= Z.of_nat i < Z.of_nat TASK_OFILE_NR) by lia.
    set (s' := upd_task curr _ s).
    assert (Hc' : task_current s' = Some curr) by done.
    assert (Htf' : ∀ j, task_file j s'
              = if decide (j >= 0 ∧ j < Z.of_nat TASK_OFILE_NR)
                then <[i := file]> (file_table (task_at s curr)) !! Z.to_nat j else None).
    { intros j. unfold s'.
      by rewrite (task_file_upd_other s curr j (λ ft, <[i := file]> ft)). }
    assert (Hrm : ∀ j, task_file j (task_remove_fd (Z.of_nat i) s')
              = if decide (j >= 0 ∧ j < Z.of_nat TASK_OFILE_NR)
                then delete i (<[i := file]> (file_table (task_at s curr))) !! Z.to_nat j
                else None).
    { intros j. unfold task_remove_fd. rewrite decide_True by lia.
      unfold with_current. rewrite Hc'. rewrite Nat2Z.id.
      rewrite (task_file_upd_other s' curr j (λ ft, delete i ft)) by done.
      destruct (decide _); [|done]. unfold s'. by rewrite task_at_upd_eq. }
    split; [done|]. split; [by rewrite Htf, Nat2Z.id|]. split; [|split; [|split; [|split]]].
    + intros j Hj. rewrite Htf by lia. specialize (Hlow (Z.to_nat j) ltac:(lia)).
      by apply bool_decide_eq_false in Hlow.
    + rewrite Htf', decide_True, Nat2Z.id by lia. by rewrite lookup_insert_eq.
    + intros j Hj. rewrite Htf'. unfold task_file. rewrite Hc.
      destruct (decide _); [|done]. rewrite lookup_insert_ne by lia. done.
    + rewrite Hrm, decide_True, Nat2Z.id by lia. by rewrite lookup_delete_eq.
    + intros j Hj. rewrite Hrm. unfold task_file. rewrite Hc.
      destruct (decide _); [|done]. rewrite lookup_delete_ne, lookup_insert_ne by lia. done.
  - left. split; [done|]. split; [done|]. intros j Hj. rewrite Htf by done.
    specialize (Hf (Z.to_nat j) ltac:(lia)). by apply bool_decide_eq_false in Hf.
Qed.

Lemma task_fd_round_trip_witness :
  task_alloc_fd 7 example_kernel
  = (0, upd_task (task_table 0) (set_file_table {[ 0%nat := 7%nat ]}) example_kernel)
  ∧ task_file 0 (task_alloc_fd 7 example_kernel).2 = Some 7%nat
  ∧ task_file 0 (task_remove_fd 0 (task_alloc_fd 7 example_kernel).2) = None.
Proof.
  pose proof (task_fd_round_trip example_kernel (task_table 0) 7 eq_refl) as H.
  destruct (task_alloc_fd 7 example_kernel) as [fd s'] eqn:E.
  assert (Efd : fd = 0) by (change fd with (fd, s').1; rewrite <- E; reflexivity).
  subst fd. destruct H as [(H & _)|(_ & _ & _ & H4 & _ & H6 & _)]; [discriminate H|].
  split; [|split; [exact H4|exact H6]].
  rewrite <- E. reflexivity.
Defined.
(** ** task.c: sleeping and waking *)

Lemma untouched_refl t s : untouched t s s.
Proof. by split. Qed.

Lemma untouched_trans t s1 s2 s3 :
  untouched t s1 s2 → untouched t s2 s3 → untouched t s1 s3.
Proof.
  intros (E1 & S1 & R1) (E2 & S2 & R2). split; [congruence|]. split; tauto.
Qed.

Lemma untouched_upd_other t x f s : x ≠ t → untouched t s (upd_task x f s).
Proof. intros Hne. split; [by apply task_at_upd_ne|done]. Qed.

Lemma untouched_set_ready_other t x s : x ≠ t → untouched t s (task_set_ready x s).
Proof.
  intros Hne. unfold task_set_ready. destruct (decide (x ≠ idle_task)); [|apply untouched_refl].
  split; [by rewrite task_at_upd_ne|]. split; [done|]. cbn. unfold list_insert_last.
  rewrite elem_of_app, list_elem_of_singleton. split; [|tauto].
  intros [?| ->]; [done|]. by exfalso.
Qed.

Lemma untouched_set_block_other t x s : x ≠ t → untouched t s (task_set_block x s).
Proof.
  intros Hne. unfold task_set_block. destruct (decide (x ≠ idle_task)); [|apply untouched_refl].
  split; [done|]. split; [done|]. cbn. rewrite elem_of_list_remove. split; [tauto|].
  intros Hin. split; [done|]. by intros ->.
Qed.

Lemma untouched_set_wakeup_other t x s : x ≠ t → untouched t s (task_set_wakeup x s).
Proof.
  intros Hne. unfold task_set_wakeup. split; [done|]. split; [|done].
  cbn. rewrite elem_of_list_remove. split; [tauto|].
  intros Hin. split; [done|]. by intros ->.
Qed.

Lemma untouched_sleep_tick_other t x s : x ≠ t → untouched t s (sleep_tick s x).
Proof.
  intros Hne. unfold sleep_tick.
  set (s1 := upd_task x _ s).
  assert (H1 : untouched t s s1) by (by apply untouched_upd_other).
  destruct (decide _); [|done].
  eapply untouched_trans; [exact H1|].
  eapply untouched_trans; [by apply untouched_set_wakeup_other|].
  by apply untouched_set_ready_other.
Qed.

Lemma untouched_sleep_walk t l : ∀ s,
  t ∉ l → untouched t s (fold_left sleep_tick l s).
Proof.
  induction l as [|x l IH]; intros s Hn; [apply untouched_refl|].
  apply not_elem_of_cons in Hn as [Hne Hn]. cbn [fold_left].
  eapply untouched_trans; [|by apply IH]. by apply untouched_sleep_tick_other.
Qed.

Lemma asleep_untouched t n s s' : untouched t s s' → asleep s t n → asleep s' t n.
Proof.
  intros (E & S & R) (Hs & Hr & Hn). unfold asleep. rewrite E. tauto.
Qed.

(** The round of the sleep-list walk that visits the sleeper itself. *)
Lemma sleep_tick_sleeper s t n :
  t ≠ idle_task → asleep s t n → 1 <= n <= INT_MAX →
  let s' := sleep_tick s t in
  if decide (n = 1) then
    t ∈ ready_list s' ∧ (t ∉ sleep_list s') ∧ state (task_at s' t) = TASK_READY
  else asleep s' t (n - 1).
Proof.
  intros Hidle (Hs & Hr & Hn) Hrange. unfold INT_MAX in Hrange. unfold sleep_tick.
  rewrite Hn, s32_small by lia.
  destruct (decide (n = 1)) as [->|Hne].
  - rewrite decide_True by done.
    set (s1 := task_set_wakeup t (upd_task t (set_sleep_ticks 0) s)).
    assert (Hw : t ∉ sleep_list s1).
    { unfold s1, task_set_wakeup.
      change (sleep_list (set_sleep_list ?l ?x)) with l.
      rewrite elem_of_list_remove. by intros [_ ?]. }
    unfold task_set_ready. rewrite decide_True by done.
    split; [|split].
    + change (ready_list (upd_task ?a ?f (set_ready_list ?l ?x))) with l.
      unfold list_insert_last. apply elem_of_app. right. apply list_elem_of_here.
    + exact Hw.
    + by rewrite task_at_upd_eq.
  - rewrite decide_False by lia. split; [done|]. split; [done|].
    by rewrite task_at_upd_eq.
Qed.

(** [task_dispatch] moves no task between the queues and leaves the tick
    counts alone. *)
Lemma task_dispatch_queues s :
  ready_list (task_dispatch s) = ready_list s
  ∧ sleep_list (task_dispatch s) = sleep_list s
  ∧ ∀ t, sleep_ticks (task_at (task_dispatch s) t) = sleep_ticks (task_at s t)
         ∧ (state (task_at (task_dispatch s) t) = state (task_at s t)
            ∨ curr_task (task_dispatch s) = Some t).
Proof.
  unfold task_dispatch. destruct (decide _); [|by repeat split; try left].
  split; [done|]. split; [done|]. intros t. cbn.
  change (task_at (task_switch_from_to ?a ?x) t) with (task_at x t).
  destruct (decide (task_next_run s = t)) as [->|Hne].
  - rewrite task_at_upd_eq. split; [done|by right].
  - rewrite task_at_upd_ne by done. split; [done|by left].
Qed.

Lemma task_time_tick_asleep (s : kernel) (t : nat) (n : Z) :
  sched_inv s → t ≠ idle_task → asleep s t n → 1 <= n <= INT_MAX →
  if decide (n = 1) then woken (task_time_tick s) t
  else asleep (task_time_tick s) t (n - 1).
Proof.
  intros Hinv Hidle Hasleep Hrange.
  pose proof Hasleep as (Hs & Hr & Hn).
  unfold task_time_tick, with_current, task_current.
  rewrite (sched_curr s Hinv). set (c := task_next_run s).
  assert (Hct : c ≠ t).
  { unfold c, task_next_run. destruct (ready_list s) as [|a r] eqn:E; [done|].
    intros ->. apply Hr, list_elem_of_here. }
  set (s1 := upd_task c _ s).
  match goal with |- context [fold_left sleep_tick (sleep_list ?x) _] => set (s2 := x) end.
  assert (H2 : untouched t s s2).
  { assert (H1 : untouched t s s1) by (by apply untouched_upd_other).
    unfold s2. destruct (decide _); [|done].
    eapply untouched_trans; [exact H1|].
    eapply untouched_trans; [by apply untouched_upd_other|].
    eapply untouched_trans; [by apply untouched_set_block_other|].
    by apply untouched_set_ready_other. }
  assert (Hq2 : NoDup (sleep_list s2)).
  { assert (Hq : queues_ok (task_dispatch (fold_left sleep_tick [] s2))).
    { apply sched_inv_queues, task_dispatch_inv. cbn.
      unfold s2. destruct (decide _).
      - apply requeue_current_queues.
        + by apply sched_inv_upd_keep_state, sched_inv_upd_keep_state.
        + cbn. by apply sched_curr.
      - by apply sched_inv_queues, sched_inv_upd_keep_state. }
    destruct Hq as [Hnd _ _]. rewrite (proj1 (proj2 (task_dispatch_queues _))) in Hnd.
    by apply NoDup_app in Hnd as (_ & _ & ?). }
  pose proof (asleep_untouched t n s s2 H2 Hasleep) as Ha2.
  destruct Ha2 as (Hs2 & Hr2 & Hn2).
  apply list_elem_of_split in Hs2 as (l1 & l2 & El). rewrite El in Hq2 |- *.
  apply NoDup_app in Hq2 as (_ & Hd1 & Hnd2). apply NoDup_cons in Hnd2 as [Ht2 _].
  assert (Ht1 : t ∉ l1).
  { intros Hin. apply (Hd1 t Hin), list_elem_of_here. }
  rewrite fold_left_app. cbn [fold_left].
  set (sa := fold_left sleep_tick l1 s2).
  assert (Ha : asleep sa t n).
  { apply (asleep_untouched t n s2); [by apply untouched_sleep_walk|].
    split; [|done]. rewrite El. apply elem_of_app. right. apply list_elem_of_here. }
  pose proof (sleep_tick_sleeper sa t n Hidle Ha Hrange) as Hb. cbv zeta in Hb.
  set (sb := sleep_tick sa t) in *.
  pose proof (untouched_sleep_walk t l2 sb Ht2) as Hc.
  set (sc := fold_left sleep_tick l2 sb) in *.
  destruct (task_dispatch_queues sc) as (Er & Es & Et).
  destruct Hc as (Ec & Sc & Rc).
  destruct (decide (n = 1)) as [->|Hne].
  - destruct Hb as (Hbr & Hbs & Hbst). unfold woken. rewrite Er, Es.
    split; [tauto|]. split; [tauto|].
    destruct (Et t) as [_ [Est|Ecur]]; [left|by right]. by rewrite Est, Ec.
  - destruct Hb as (Hbs & Hbr & Hbn). unfold asleep. rewrite Er, Es.
    split; [tauto|]. split; [tauto|]. rewrite (proj1 (Et t)), Ec. done.
Qed.

(** X14.  One timer tick and a sleeping task: when the task has more than
    one tick to go it stays on the sleep list with one tick less; when it has
    exactly one tick to go it leaves the sleep list for the ready list (state
    Ready, or already running if nothing else was ready).  No tick wakes a
    task earlier, whatever the other sleepers and the time slice of the
    current task do in the same tick. *)
Theorem task_time_tick_sleeper (s : kernel) (t : nat) (n : Z) :
  sched_inv s → t ≠ idle_task → asleep s t n → 1 <= n <= INT_MAX →
  if decide (n = 1) then woken (task_time_tick s) t
  else asleep (task_time_tick s) t (n - 1).
Proof. exact (task_time_tick_asleep s t n). Qed.

Lemma example_sleep_kernel_inv : sched_inv example_sleep_kernel.
Proof.
  split; [split|]; cbn.
  - apply (bool_decide_unpack _). by vm_compute.
  - apply (bool_decide_unpack _). by vm_compute.
  - constructor.
  - done.
Qed.

Lemma example_sleep_kernel_asleep : asleep example_sleep_kernel (task_table 1) 3.
Proof.
  split; [|split]; [apply (bool_decide_unpack _); by vm_compute..|reflexivity].
Qed.

Lemma task_time_tick_sleeper_witness :
  asleep (task_time_tick example_sleep_kernel) (task_table 1) 2.
Proof.
  pose proof (task_time_tick_sleeper example_sleep_kernel (task_table 1) 3
                example_sleep_kernel_inv ltac:(done) example_sleep_kernel_asleep
                ltac:(by vm_compute)) as H.
  rewrite decide_False in H by done. exact H.
Defined.

(** X15.  [sys_msleep] end to end: the caller goes to sleep with the tick
    count of its request, stays asleep while fewer ticks than that have
    passed, and is on the ready list after exactly that many ticks. *)
Theorem msleep_wakes_on_time (ms : Z) (s : kernel) (c : nat) :
  sched_inv s → curr_task s = Some c → c ≠ idle_task →
  1 <= msleep_ticks ms <= INT_MAX →
  let n := Z.to_nat (msleep_ticks ms) in
  let s0 := sys_msleep ms s in
  (∀ k, (k < n)%nat →
     asleep (Nat.iter k task_time_tick s0) c (msleep_ticks ms - Z.of_nat k))
  ∧ woken (Nat.iter n task_time_tick s0) c.
Proof.
  intros Hinv Hc Hidle Hrange n s0.
  assert (Hinv0 : sched_inv s0).
  { apply sys_msleep_inv; [done|]. rewrite Hc. congruence. }
  assert (H0 : asleep s0 c (msleep_ticks ms)).
  { unfold s0, sys_msleep, with_current, task_current. rewrite Hc.
    destruct (task_set_block_current s c Hinv Hc) as (_ & Hnr & _ & _ & _).
    set (sb := task_set_block c s) in *.
    destruct (task_dispatch_queues (task_set_sleep c (msleep_ticks ms) sb)) as (Er & Es & Et).
    unfold asleep. rewrite Er, Es, (proj1 (Et c)).
    unfold task_set_sleep. rewrite decide_False by lia. cbn.
    rewrite task_at_upd_eq. cbn. unfold INT_MAX in Hrange. rewrite s32_small by lia.
    split; [|done]. unfold list_insert_last. apply elem_of_app. right. apply list_elem_of_here. }
  assert (Hgen : ∀ m st, m = Z.to_nat (sleep_ticks (task_at st c)) →
            sched_inv st → asleep st c (Z.of_nat m) → (1 <= m)%nat → Z.of_nat m <= INT_MAX →
            (∀ k, (k < m)%nat → asleep (Nat.iter k task_time_tick st) c (Z.of_nat m - Z.of_nat k))
            ∧ woken (Nat.iter m task_time_tick st) c).
  { induction m as [|m IH]; intros st Em Hi Ha Hm1 Hm2; [lia|].
    pose proof (task_time_tick_asleep st c (Z.of_nat (S m)) Hi Hidle Ha ltac:(lia)) as Ht.
    destruct (decide (Z.of_nat (S m) = 1)) as [E1|Hne].
    - assert (m = 0)%nat as -> by lia. split.
      + intros k Hk. assert (k = 0)%nat as -> by lia. cbn. by rewrite Z.sub_0_r.
      + exact Ht.
    - replace (Z.of_nat (S m) - 1) with (Z.of_nat m) in Ht by lia.
      destruct (IH (task_time_tick st)) as [IH1 IH2].
      + destruct Ht as (_ & _ & ->). lia.
      + by apply task_time_tick_inv.
      + done.
      + lia.
      + lia.
      + split.
        * intros k Hk. destruct k as [|k]; [cbn; by rewrite Z.sub_0_r|].
          rewrite Nat.iter_succ_r.
          replace (Z.of_nat (S m) - Z.of_nat (S k)) with (Z.of_nat m - Z.of_nat k) by lia.
          apply IH1. lia.
        * rewrite Nat.iter_succ_r. exact IH2. }
  destruct (Hgen n s0) as [G1 G2].
  - unfold n. by destruct H0 as (_ & _ & ->).
  - done.
  - unfold n. rewrite Z2Nat.id by lia. done.
  - unfold n. lia.
  - unfold n. lia.
  - split; [|done]. intros k Hk. specialize (G1 k Hk).
    unfold n in G1. rewrite Z2Nat.id in G1 by lia. done.
Qed.

Lemma msleep_wakes_on_time_witness :
  let s0 := sys_msleep 25 example_kernel in
  asleep s0 (task_table 0) 3
  ∧ asleep (Nat.iter 2 task_time_tick s0) (task_table 0) 1
  ∧ woken (Nat.iter 3 task_time_tick s0) (task_table 0).
Proof.
  assert (Hinv : sched_inv example_kernel).
  { split; [split|]; cbn.
    - apply (bool_decide_unpack _). by vm_compute.
    - apply (bool_decide_unpack _). by vm_compute.
    - repeat constructor.
    - done. }
  destruct (msleep_wakes_on_time 25 example_kernel (task_table 0) Hinv eq_refl
              ltac:(done) ltac:(by vm_compute)) as [H1 H2].
  change (Z.to_nat (msleep_ticks 25)) with 3%nat in H1, H2.
  change (msleep_ticks 25) with 3 in H1.
  cbv zeta. split; [exact (H1 0%nat ltac:(lia))|].
  split; [exact (H1 2%nat ltac:(lia))|exact H2].
Defined.
(** ** task.c: yielding the processor *)

(** X16.  [sys_yield] is round robin: when the caller is the only ready task
    nothing changes; otherwise the caller goes to the tail of the ready list
    in state Ready, and the task that stood behind it becomes the current
    task, is marked Running and has its page directory loaded. *)
Theorem sys_yield_round_robin (s : kernel) (c : nat) (rest : list nat) :
  sched_inv s → ready_list s = c :: rest →
  match rest with
  | [] => sys_yield s = (0, s)
  | next :: rest' =>
      let s' := (sys_yield s).2 in
      (sys_yield s).1 = 0
      ∧ ready_list s' = next :: rest' ++ [c]
      ∧ sleep_list s' = sleep_list s
      ∧ curr_task s' = Some next
      ∧ state (task_at s' next) = TASK_RUNNING
      ∧ state (task_at s' c) = TASK_READY
      ∧ cr3_reg s' = tss_cr3 (tss (task_at s next))
  end.
Proof.
  intros Hinv E. pose proof (sched_curr s Hinv) as Hc.
  unfold task_next_run in Hc. rewrite E in Hc.
  destruct Hinv as [[Hnd Hidle _] _]. rewrite E in Hnd, Hidle.
  unfold sys_yield, list_count. rewrite E.
  destruct rest as [|next rest'].
  { by rewrite decide_False by (cbn; lia). }
  rewrite decide_True by (cbn [length]; lia).
  unfold with_current, task_current. rewrite Hc. cbn [fst snd].
  cbn in Hnd. apply NoDup_cons in Hnd as [Hc1 Hnd]. apply NoDup_cons in Hnd as [Hn1 _].
  assert (Hci : c ≠ idle_task).
  { intros ->. apply Hidle, list_elem_of_here. }
  assert (Hcn : c ≠ next).
  { intros ->. apply Hc1, list_elem_of_here. }
  assert (Hcr : c ∉ next :: rest').
  { intros Hin. apply Hc1. change (c ∈ (next :: rest') ++ sleep_list s).
    apply elem_of_app. by left. }
  assert (Eb : task_set_block c s = set_ready_list (next :: rest') s).
  { unfold task_set_block. rewrite decide_True by done. by rewrite E, list_remove_head. }
  rewrite Eb. unfold task_set_ready. rewrite decide_True by done.
  unfold task_dispatch, task_next_run. cbn [ready_list upd_task set_tasks set_ready_list
    list_insert_last app curr_task].
  rewrite decide_True by congruence.
  split; [done|]. split; [done|]. split; [done|]. split; [done|].
  unfold task_switch_from_to.
  change (task_at (set_cr3_reg ?v ?x) ?t) with (task_at x t).
  split; [by rewrite task_at_upd_eq|]. split.
  - rewrite task_at_upd_ne by done.
    change (task_at (set_curr_task ?v ?x) ?t) with (task_at x t).
    by rewrite task_at_upd_eq.
  - cbn [cr3_reg set_cr3_reg]. rewrite task_at_upd_eq. cbn [tss set_state].
    change (task_at (set_curr_task ?v ?x) ?t) with (task_at x t).
    by rewrite task_at_upd_ne.
Qed.

Lemma sys_yield_round_robin_witness :
  ready_list (sys_yield example_kernel).2 = [task_table 1; task_table 0]
  ∧ curr_task (sys_yield example_kernel).2 = Some (task_table 1)
  ∧ cr3_reg (sys_yield example_kernel).2 = 1069056.
Proof.
  assert (Hinv : sched_inv example_kernel).
  { split; [split|]; cbn.
    - apply (bool_decide_unpack _). by vm_compute.
    - apply (bool_decide_unpack _). by vm_compute.
    - repeat constructor.
    - done. }
  destruct (sys_yield_round_robin example_kernel (task_table 0) [task_table 1] Hinv eq_refl)
    as (_ & H2 & _ & H4 & _ & _ & H7).
  split; [exact H2|]. split; [exact H4|exact H7].
Defined.
(** ** task.c: exit and wait *)

Lemma exit_close_files_none curr s :
  file_table (task_at s curr) = ∅ → exit_close_files curr s = s.
Proof.
  intros He. unfold exit_close_files. generalize (seq 0 TASK_OFILE_NR).
  intros l. induction l as [|fd l IH]; [done|].
  cbn [fold_left]. rewrite He, lookup_empty. exact IH.
Qed.

(** The hand-over loop of [sys_exit]: it rewrites the parent of the
    children of [curr] among the slots it visits and nothing else. *)
Lemma exit_move_children_loop curr l : ∀ st mv,
  NoDup l →
  let '(s2, mv2) :=
    fold_left
      (λ '(st, move_child) i,
         let task := task_table i in
         if decide (parent (task_at st task) = Some curr) then
           (upd_task task (set_parent (Some first_task)) st,
            if decide (state (task_at st task) = TASK_ZOMBIE) then true else move_child)
         else (st, move_child))
      l (st, mv) in
  curr_task s2 = curr_task st ∧ ready_list s2 = ready_list st
  ∧ sleep_list s2 = sleep_list st
  ∧ ∀ t, task_at s2 t
         = if decide (t ∈ task_table <$> l ∧ parent (task_at st t) = Some curr)
           then set_parent (Some first_task) (task_at st t) else task_at st t.
Proof.
  induction l as [|i l IH]; intros st mv Hnd.
  - cbn. split; [done|]. split; [done|]. split; [done|]. intros t.
    rewrite decide_False; [done|]. intros [Hin _]. by apply elem_of_nil in Hin.
  - apply NoDup_cons in Hnd as [Hi Hnd]. cbn [fold_left].
    set (st1 := if decide (parent (task_at st (task_table i)) = Some curr)
                then upd_task (task_table i) (set_parent (Some first_task)) st else st).
    set (mv1 := if decide (parent (task_at st (task_table i)) = Some curr)
                then (if decide (state (task_at st (task_table i)) = TASK_ZOMBIE)
                      then true else mv) else mv).
    assert (Estep : (if decide (parent (task_at st (task_table i)) = Some curr)
                     then (upd_task (task_table i) (set_parent (Some first_task)) st,
                           if decide (state (task_at st (task_table i)) = TASK_ZOMBIE)
                           then true else mv)
                     else (st, mv)) = (st1, mv1)).
    { unfold st1, mv1. by destruct (decide _). }
    rewrite Estep. specialize (IH st1 mv1 Hnd).
    destruct (fold_left _ l (st1, mv1)) as [s2 mv2].
    destruct IH as (Hc & Hr & Hs & Ht).
    assert (Hl1 : curr_task st1 = curr_task st ∧ ready_list st1 = ready_list st
                  ∧ sleep_list st1 = sleep_list st).
    { unfold st1. by destruct (decide _). }
    destruct Hl1 as (Hc1 & Hr1 & Hs1).
    split; [congruence|]. split; [congruence|]. split; [congruence|].
    intros t. rewrite Ht.
    assert (Hother : t ≠ task_table i → task_at st1 t = task_at st t).
    { intros Hne. unfold st1. destruct (decide _); [|done]. by rewrite task_at_upd_ne. }
    destruct (decide (t = task_table i)) as [->|Hne].
    + rewrite (decide_False (P := task_table i ∈ task_table <$> l ∧ _)).
      2:{ intros [Hin _]. apply list_elem_of_fmap in Hin as (j & Ej & Hj).
          unfold task_table in Ej. assert (j = i) by lia. by subst. }
      unfold st1. destruct (decide (parent (task_at st (task_table i)) = Some curr)) as [Hp|Hp].
      * rewrite task_at_upd_eq. rewrite decide_True; [done|].
        split; [|done]. rewrite fmap_cons. apply list_elem_of_here.
      * rewrite decide_False; [done|]. by intros [_ ?].
    + rewrite Hother by done.
      destruct (decide (t ∈ task_table <$> l ∧ parent (task_at st t) = Some curr))
        as [[Hin Hp]|Hno].
      * rewrite decide_True; [done|]. split; [|done].
        rewrite fmap_cons. by apply list_elem_of_further.
      * rewrite decide_False; [done|]. intros [Hin Hp]. apply Hno. split; [|done].
        rewrite fmap_cons in Hin. apply elem_of_cons in Hin as [?|?]; done.
Qed.

Lemma parent_task_set_ready x s t :
  parent (task_at (task_set_ready x s) t) = parent (task_at s t)
  ∧ pid (task_at (task_set_ready x s) t) = pid (task_at s t)
  ∧ status (task_at (task_set_ready x s) t) = status (task_at s t)
  ∧ (x ≠ t → task_at (task_set_ready x s) t = task_at s t).
Proof.
  unfold task_set_ready. destruct (decide _); [|done].
  destruct (decide (x = t)) as [->|Hne].
  - rewrite task_at_upd_eq. done.
  - rewrite task_at_upd_ne by done. done.
Qed.

Lemma panicked_fold {A : Type} (f : kernel → A → kernel) (l : list A) :
  (∀ st i, panicked (f st i) = panicked st) →
  ∀ s, panicked (fold_left f l s) = panicked s.
Proof.
  intros Hf. induction l as [|a l IH]; intros s; cbn [fold_left]; [done|].
  by rewrite IH, Hf.
Qed.

Lemma panicked_addr_free_page addr n s :
  panicked (addr_free_page addr n s) = panicked s.
Proof. done. Qed.

Lemma panicked_destroy_table tbl s : panicked (destroy_table tbl s) = panicked s.
Proof.
  unfold destroy_table. apply panicked_fold. intros st j. cbv zeta.
  by destruct (present _).
Qed.

(** With a directory other than the null pointer the ASSERT of
    [memory_destroy_uvm] holds. *)
Lemma panicked_memory_destroy_uvm page_dir s :
  page_dir ≠ 0 → panicked (memory_destroy_uvm page_dir s) = panicked s.
Proof.
  intros Hne. unfold memory_destroy_uvm. rewrite bool_decide_eq_true_2 by done.
  change (kassert true s) with s.
  rewrite panicked_addr_free_page.
  apply panicked_fold. intros st i. cbv zeta. destruct (present _); [|done].
  rewrite panicked_addr_free_page. apply panicked_destroy_table.
Qed.

(** X17.  [sys_exit] and [sys_wait] fit together.  Take a task of the task
    table that has no open files, a page directory other than the null
    pointer and its kernel stack page below the user address range.  When
    it exits with [exit_status], its slot becomes a zombie child of its
    parent that records the status, it is off the ready list, its own
    children belong to the first task, and a parent that was waiting is on
    the ready list.  Whenever the parent then calls [sys_wait] while the slot
    is untouched and no lower slot holds a zombie child of its, [sys_wait]
    returns the pid of the exited task and that status, and no ASSERT fails
    on the way. *)
Theorem sys_exit_then_wait (exit_status : Z) (s : kernel) (i p : nat) :
  let c := task_table i in
  task_current s = Some c → (i < TASK_NR)%nat →
  parent (task_at s c) = Some p → p ≠ c →
  file_table (task_at s c) = ∅ →
  tss_cr3 (tss (task_at s c)) ≠ 0 →
  u32 (tss_esp0 (tss (task_at s c)) - MEM_PAGE_SIZE) < MEMORY_TASK_BASE →
  let s1 := sys_exit exit_status s in
  zombie_child s1 p i
  ∧ status (task_at s1 c) = exit_status
  ∧ pid (task_at s1 c) = pid (task_at s c)
  ∧ (c ∉ ready_list s1)
  ∧ (∀ j, (j < TASK_NR)%nat → parent (task_at s (task_table j)) = Some c →
       parent (task_at s1 (task_table j)) = Some first_task)
  ∧ (state (task_at s p) = TASK_WAITING → p ≠ idle_task → p ∈ ready_list s1)
  ∧ ∀ s2, task_current s2 = Some p →
      task_at s2 c = task_at s1 c →
      (∀ j, (j < i)%nat → ¬ zombie_child s2 p j) →
      (sys_wait s2).1 = WaitReaped (pid (task_at s c)) exit_status
      ∧ panicked (sys_wait s2).2 = panicked s2.
Proof.
  intros c Hc Hi Hp Hpc Hfiles Hcr3 Hstk s1.
  assert (Hcidle : c ≠ idle_task) by (unfold c, task_table, idle_task; lia).
  assert (Hcfirst : c ≠ first_task) by (unfold c, task_table, first_task; lia).
  unfold s1, sys_exit, with_current. rewrite Hc.
  rewrite exit_close_files_none by done.
  unfold exit_move_children.
  pose proof (exit_move_children_loop c (seq 0 TASK_OFILE_NR) s false (NoDup_seq _ _)) as Hloop.
  destruct (fold_left _ _ (s, false)) as [s2 mv].
  destruct Hloop as (Hc2 & Hr2 & Hs2 & Ht2).
  assert (Ec2 : task_at s2 c = task_at s c).
  { rewrite Ht2. rewrite decide_False; [done|]. intros [_ E]. rewrite Hp in E. congruence. }
  assert (Hk2 : ∀ t, state (task_at s2 t) = state (task_at s t)).
  { intros t. rewrite Ht2. by destruct (decide (_ ∧ _)). }
  rewrite Ec2, Hp.
  set (s3 := if mv && bool_decide (Some p ≠ Some first_task)
             then if decide (state (task_at s2 first_task) = TASK_WAITING)
                  then task_set_ready first_task s2 else s2
             else s2).
  assert (H3 : ∀ t, parent (task_at s3 t) = parent (task_at s2 t)
                    ∧ pid (task_at s3 t) = pid (task_at s2 t)
                    ∧ status (task_at s3 t) = status (task_at s2 t)
                    ∧ (t ≠ first_task → task_at s3 t = task_at s2 t)).
  { intros t. unfold s3. destruct (mv && _); [|done].
    destruct (decide (state (task_at s2 first_task) = TASK_WAITING)); [|done].
    destruct (parent_task_set_ready first_task s2 t) as (? & ? & ? & H4).
    repeat split; try done. intros Hne. apply H4. congruence. }
  assert (H3p : state (task_at s3 p) = state (task_at s p)
                ∨ ¬ state (task_at s p) = TASK_WAITING).
  { destruct (decide (p = first_task)) as [->|Hne].
    - left. unfold s3. rewrite bool_decide_eq_false_2 by (intros Hn; by apply Hn).
      rewrite andb_false_r. apply Hk2.
    - left. rewrite (proj2 (proj2 (proj2 (H3 p)))) by done. apply Hk2. }
  set (s4 := if decide (state (task_at s3 p) = TASK_WAITING) then task_set_ready p s3 else s3).
  assert (H4 : ∀ t, parent (task_at s4 t) = parent (task_at s3 t)
                    ∧ pid (task_at s4 t) = pid (task_at s3 t)
                    ∧ status (task_at s4 t) = status (task_at s3 t)
                    ∧ (t ≠ p → task_at s4 t = task_at s3 t)).
  { intros t. unfold s4.
    destruct (decide (state (task_at s3 p) = TASK_WAITING)); [|done].
    destruct (parent_task_set_ready p s3 t) as (? & ? & ? & H4).
    repeat split; try done. intros Hne. apply H4. congruence. }
  set (s5 := upd_task c _ s4).
  assert (E5 : task_at s5 c
               = set_state TASK_ZOMBIE
                   (mk_task (state (task_at s c)) (name (task_at s c)) (pid (task_at s c))
                      (Some p) (heap_start (task_at s c)) (heap_end (task_at s c))
                      exit_status (sleep_ticks (task_at s c)) (time_slice (task_at s c))
                      (slice_ticks (task_at s c)) (file_table (task_at s c))
                      (tss (task_at s c)) (tss_sel (task_at s c)))).
  { unfold s5. rewrite task_at_upd_eq.
    rewrite (proj2 (proj2 (proj2 (H4 c)))) by congruence.
    rewrite (proj2 (proj2 (proj2 (H3 c)))) by done. by rewrite Ec2, Hp. }
  set (sb := task_set_block c s5).
  assert (Eb : ready_list sb = list_remove (ready_list s5) c
               ∧ ∀ t, task_at sb t = task_at s5 t).
  { unfold sb, task_set_block. by rewrite decide_True by done. }
  destruct Eb as [Ebr Ebt].
  assert (Hnr : c ∉ ready_list sb).
  { rewrite Ebr, elem_of_list_remove. by intros [_ ?]. }
  destruct (task_dispatch_queues sb) as (Edr & Eds & _).
  assert (Ed : ∀ t, t ≠ task_next_run sb →
            task_at (task_dispatch sb) t = task_at sb t).
  { intros t Ht. unfold task_dispatch.
    destruct (decide (Some (task_next_run sb) ≠ curr_task sb)); [|done].
    change (task_at (task_switch_from_to ?a ?x) t) with (task_at x t).
    by rewrite task_at_upd_ne. }
  assert (Hdp : ∀ t, parent (task_at (task_dispatch sb) t) = parent (task_at sb t)).
  { intros t. unfold task_dispatch.
    destruct (decide (Some (task_next_run sb) ≠ curr_task sb)); [|done].
    change (task_at (task_switch_from_to ?a ?x) t) with (task_at x t).
    destruct (decide (task_next_run sb = t)) as [->|Hne].
    - by rewrite task_at_upd_eq.
    - by rewrite task_at_upd_ne. }
  assert (Hto : c ≠ task_next_run sb).
  { unfold task_next_run. destruct (ready_list sb) as [|a r] eqn:E; [done|].
    intros ->. apply Hnr, list_elem_of_here. }
  assert (Ec1 : task_at (task_dispatch sb) c = task_at s5 c).
  { rewrite Ed by done. apply Ebt. }
  split; [|split; [|split; [|split; [|split; [|split]]]]].
  - unfold zombie_child. fold c. rewrite Ec1, E5. done.
  - by rewrite Ec1, E5.
  - by rewrite Ec1, E5.
  - by rewrite Edr.
  - intros j Hj Hpj. rewrite Hdp, Ebt. unfold s5.
    assert (Hjc : task_table j ≠ c).
    { intros E. rewrite E, Hp in Hpj. congruence. }
    rewrite task_at_upd_ne by congruence.
    rewrite (proj1 (H4 _)), (proj1 (H3 _)), Ht2.
    rewrite decide_True; [done|]. split; [|done].
    apply list_elem_of_fmap. exists j. split; [done|]. apply elem_of_seq.
    unfold TASK_NR, TASK_OFILE_NR in *. lia.
  - intros Hw Hpidle. rewrite Edr, Ebr, elem_of_list_remove. split; [|done].
    change (ready_list s5) with (ready_list s4).
    destruct H3p as [E3|Hn]; [|done].
    unfold s4. rewrite decide_True by congruence.
    unfold task_set_ready. rewrite decide_True by done.
    change (ready_list (upd_task ?a ?f (set_ready_list ?l ?x))) with l.
    unfold list_insert_last. apply elem_of_app. right. apply list_elem_of_here.
  - intros sw Hcw Esame Hlow. unfold sys_wait. rewrite Hcw.
    pose proof (find_seq_lowest
                  (λ k, bool_decide (parent (task_at sw (task_table k)) = Some p
                                     ∧ state (task_at sw (task_table k)) = TASK_ZOMBIE))
                  TASK_NR 0) as Hf.
    assert (Hzi : zombie_child sw p i).
    { unfold zombie_child. fold c. rewrite Esame, Ec1, E5. done. }
    destruct (find _ _) as [k|].
    + destruct Hf as (Hk & HP & Hklow). apply bool_decide_eq_true in HP.
      assert (k = i) as ->.
      { destruct (decide (k = i)) as [|Hne]; [done|]. exfalso.
        destruct (decide (k < i)%nat) as [Hlt|Hge].
        - by apply (Hlow k Hlt).
        - specialize (Hklow i ltac:(lia)). apply bool_decide_eq_false in Hklow.
          by apply Hklow. }
      cbn [fst snd]. fold c. rewrite Esame, Ec1, E5. split; [done|].
      change (panicked (upd_task ?a ?f ?x)) with (panicked x).
      cbn [tss set_state]. unfold memory_free_page.
      rewrite decide_True by exact Hstk.
      rewrite panicked_addr_free_page.
      by apply panicked_memory_destroy_uvm.
    + exfalso. specialize (Hf i ltac:(lia)). apply bool_decide_eq_false in Hf.
      by apply Hf.
Qed.

Lemma sys_exit_then_wait_witness :
  let s1 := sys_exit 7 example_exit_kernel in
  zombie_child s1 (task_table 0) 1
  ∧ task_table 0 ∈ ready_list s1
  ∧ curr_task s1 = Some (task_table 0)
  ∧ (sys_wait s1).1 = WaitReaped 134144 7
  ∧ panicked (sys_wait s1).2 = false.
Proof.
  destruct (sys_exit_then_wait 7 example_exit_kernel 1 (task_table 0)
              eq_refl ltac:(vm_compute; lia) eq_refl ltac:(done) eq_refl
              ltac:(by vm_compute) ltac:(by vm_compute))
    as (H1 & _ & _ & _ & _ & H6 & H7).
  cbv zeta. split; [exact H1|]. split; [by apply H6|]. split; [reflexivity|].
  destruct (H7 (sys_exit 7 example_exit_kernel)) as [H8 H9];
    [reflexivity|reflexivity| |].
  - intros j Hj [Hpar _]. assert (j = 0)%nat as -> by lia.
    vm_compute in Hpar. discriminate Hpar.
  - split; [exact H8|]. rewrite H9. reflexivity.
Defined.
(** ** sem.c and mutex.c *)

(** X18.  A semaphore stays well formed: if the counter is a non-negative
    [int] and tasks wait only while it is zero, the same holds after
    [sem_wait], and after [sem_notify] unless the counter is at [INT_MAX]. *)
Theorem sem_wf_preserved (sem : sem_t) (s : kernel) :
  sem_wf sem →
  sem_wf (sem_wait sem s).1
  ∧ (count sem < INT_MAX → sem_wf (sem_notify sem s).1).
Proof.
  intros [Hc Hw]. unfold INT_MAX in *. split.
  - unfold sem_wait. destruct (decide (count sem > 0)) as [Hpos|Hzero].
    + split; cbn; [rewrite s32_small by lia; unfold INT_MAX; lia|].
      intros Hne. specialize (Hw Hne). lia.
    + destruct (task_current s); [|by split].
      split; cbn; [done|]. intros _. lia.
  - intros Hlt. unfold sem_notify, list_count.
    destruct (decide (Z.of_nat (length (wait_list sem)) ≠ 0)) as [Hne|He].
    + destruct (wait_list sem) as [|h rest] eqn:E; [done|]. cbn.
      split; cbn; [done|]. intros _. by apply Hw.
    + split; cbn; [rewrite s32_small by lia; unfold INT_MAX; lia|].
      intros Hne. destruct (wait_list sem); [done|]. cbn in He. lia.
Qed.

Lemma sem_wf_preserved_witness :
  sem_wf (sem_wait (mk_sem 0 [task_table 1]) example_kernel).1
  ∧ sem_wf (sem_notify (mk_sem 0 [task_table 1]) example_kernel).1.
Proof.
  assert (Hwf : sem_wf (mk_sem 0 [task_table 1])).
  { split; cbn; [unfold INT_MAX; lia|done]. }
  destruct (sem_wf_preserved (mk_sem 0 [task_table 1]) example_kernel Hwf) as [H1 H2].
  split; [exact H1|]. apply H2. reflexivity.
Defined.

Lemma sem_notify_n_succ n sem s :
  sem_notify_n (S n) sem s
  = sem_notify_n n (sem_notify sem s).1 (sem_notify sem s).2.
Proof.
  unfold sem_notify_n. rewrite Nat.iter_succ_r. cbv beta. cbn [fst snd]. by destruct (sem_notify sem s).
Qed.

(** X19.  Wake order is arrival order.  Take a semaphore whose waiters are
    distinct tasks, none of them the idle task, all on neither run queue.  A
    [sem_wait] that blocks puts a caller that is not yet waiting at the tail
    of the wait queue; and as many [sem_notify] as there are waiters move
    them, in the order of the queue, to the tail of the ready list; the
    counter and the sleep list are not touched, and the ready list has no
    duplicates if it had none. *)
Theorem sem_wakes_in_arrival_order (sem : sem_t) (s : kernel) :
  idle_task ∉ wait_list sem →
  NoDup (wait_list sem) →
  waiters_parked s (wait_list sem) →
  (∀ c, task_current s = Some c → c ∉ wait_list sem → ¬ count sem > 0 →
     wait_list (sem_wait sem s).1 = wait_list sem ++ [c])
  ∧ let '(sem', s') := sem_notify_n (length (wait_list sem)) sem s in
    wait_list sem' = [] ∧ count sem' = count sem
    ∧ ready_list s' = ready_list s ++ wait_list sem
    ∧ sleep_list s' = sleep_list s
    ∧ (NoDup (ready_list s) → NoDup (ready_list s')).
Proof.
  intros Hidle Hnd Hpark. split.
  - intros c Hc _ Hz. unfold sem_wait. rewrite decide_False by done. by rewrite Hc.
  - destruct sem as [cnt ws]. cbn [wait_list count] in *.
    revert s Hpark. induction ws as [|h rest IH]; intros s Hpark.
    + cbn. rewrite app_nil_r. done.
    + apply not_elem_of_cons in Hidle as [Hh Hrest].
      apply NoDup_cons in Hnd as [Hhr Hnd].
      cbn [length]. rewrite sem_notify_n_succ.
      assert (E : sem_notify (mk_sem cnt (h :: rest)) s
                  = (mk_sem cnt rest, task_dispatch (task_set_ready h s))).
      { unfold sem_notify, list_count. cbn [wait_list length].
        rewrite decide_True by lia. done. }
      rewrite E. cbn [fst snd].
      set (s1 := task_dispatch (task_set_ready h s)).
      assert (Er1 : ready_list s1 = ready_list s ++ [h]).
      { unfold s1. rewrite (proj1 (task_dispatch_queues _)).
        unfold task_set_ready. rewrite decide_True by done. done. }
      assert (Es1 : sleep_list s1 = sleep_list s).
      { unfold s1. rewrite (proj1 (proj2 (task_dispatch_queues _))).
        unfold task_set_ready. by rewrite decide_True by done. }
      assert (Hpark1 : waiters_parked s1 rest).
      { intros t Ht. rewrite Er1, Es1. intros Hin.
        apply elem_of_app in Hin as [Hin|Hin].
        - apply elem_of_app in Hin as [Hin|Hin].
          + apply (Hpark t); [by apply list_elem_of_further|].
            apply elem_of_app. by left.
          + apply list_elem_of_singleton in Hin as ->. done.
        - apply (Hpark t); [by apply list_elem_of_further|].
          apply elem_of_app. by right. }
      specialize (IH Hrest Hnd s1 Hpark1).
      destruct (sem_notify_n _ _ _) as [sem' s'].
      destruct IH as (H1 & H2 & H3 & H4 & H5).
      split; [done|]. split; [done|].
      split; [by rewrite H3, Er1, <- app_assoc|].
      split; [by rewrite H4|].
      intros Hr. apply H5. rewrite Er1. apply NoDup_app.
      split; [done|]. split; [|apply NoDup_singleton].
      intros x Hx Hx'. apply list_elem_of_singleton in Hx' as ->.
      apply (Hpark h); [apply list_elem_of_here|]. apply elem_of_app. by left.
Qed.

Lemma sem_wakes_in_arrival_order_witness :
  ready_list (sem_notify_n 2 (mk_sem 0 [task_table 5; task_table 4]) example_kernel).2
  = [task_table 0; task_table 1; task_table 5; task_table 4].
Proof.
  assert (Hidle : idle_task ∉ wait_list (mk_sem 0 [task_table 5; task_table 4])).
  { apply (bool_decide_unpack _). by vm_compute. }
  assert (Hnd : NoDup (wait_list (mk_sem 0 [task_table 5; task_table 4]))).
  { apply (bool_decide_unpack _). by vm_compute. }
  assert (Hpark : waiters_parked example_kernel
                    (wait_list (mk_sem 0 [task_table 5; task_table 4]))).
  { intros t Ht. cbn [wait_list] in Ht.
    apply elem_of_cons in Ht as [->|Ht];
      [|apply list_elem_of_singleton in Ht as ->];
      apply (bool_decide_unpack _); by vm_compute. }
  destruct (sem_wakes_in_arrival_order (mk_sem 0 [task_table 5; task_table 4])
              example_kernel Hidle Hnd Hpark) as [_ H].
  cbn [wait_list length] in H. destruct (sem_notify_n 2 _ _) as [sem' s'].
  destruct H as (_ & _ & H3 & _). exact H3.
Defined.

Lemma mutex_lock_n_succ n m s :
  mutex_lock_n (S n) m s = mutex_lock_n n (mutex_lock m s).1 (mutex_lock m s).2.
Proof.
  unfold mutex_lock_n. rewrite Nat.iter_succ_r. cbv beta. cbn [fst snd]. by destruct (mutex_lock m s).
Qed.

Lemma mutex_unlock_n_succ n m s :
  mutex_unlock_n (S n) m s = mutex_unlock_n n (mutex_unlock m s).1 (mutex_unlock m s).2.
Proof.
  unfold mutex_unlock_n. rewrite Nat.iter_succ_r. cbv beta. cbn [fst snd]. by destruct (mutex_unlock m s).
Qed.

Lemma mutex_lock_n_owned n : ∀ k m s c ws,
  task_current s = Some c → (1 <= k)%nat → Z.of_nat (k + n) <= INT_MAX →
  m = mk_mutex (Some c) (Z.of_nat k) ws →
  mutex_lock_n n m s = (mk_mutex (Some c) (Z.of_nat (k + n)) ws, s).
Proof.
  induction n as [|n IH]; intros k m s c ws Hc Hk Hmax ->.
  - cbn. by rewrite Nat.add_0_r.
  - rewrite mutex_lock_n_succ.
    assert (E : mutex_lock (mk_mutex (Some c) (Z.of_nat k) ws) s
                = (mk_mutex (Some c) (Z.of_nat (S k)) ws, s)).
    { unfold mutex_lock. cbn [locked_count owner mutex_wait_list].
      rewrite decide_False by lia. rewrite Hc, decide_True by done.
      unfold INT_MAX in Hmax. rewrite s32_small by lia. do 3 f_equal. lia. }
    rewrite E. cbn [fst snd]. rewrite (IH (S k) _ s c ws Hc); [|lia|lia|done].
    do 3 f_equal. lia.
Qed.

Lemma mutex_unlock_n_owned n : ∀ k m s c ws,
  task_current s = Some c → (n < k)%nat → Z.of_nat k <= INT_MAX →
  m = mk_mutex (Some c) (Z.of_nat k) ws →
  mutex_unlock_n n m s = (mk_mutex (Some c) (Z.of_nat (k - n)) ws, s).
Proof.
  induction n as [|n IH]; intros k m s c ws Hc Hk Hmax ->.
  - cbn. by rewrite Nat.sub_0_r.
  - rewrite mutex_unlock_n_succ.
    assert (E : mutex_unlock (mk_mutex (Some c) (Z.of_nat k) ws) s
                = (mk_mutex (Some c) (Z.of_nat (k - 1)) ws, s)).
    { unfold mutex_unlock. cbn [locked_count owner mutex_wait_list].
      rewrite Hc, decide_True by done.
      unfold INT_MAX in Hmax. rewrite s32_small by lia.
      rewrite decide_False by lia. do 3 f_equal. lia. }
    rewrite E. cbn [fst snd]. rewrite (IH (k - 1)%nat _ s c ws Hc); [|lia|lia|done].
    do 3 f_equal. lia.
Qed.

(** X20.  A mutex is recursive and balanced: a task that takes a free mutex
    [n] times owns it with count [n] and is never blocked; it still owns it
    after fewer than [n] unlocks; the [n]-th unlock releases it; and an
    unlock by a task that is not the owner changes nothing. *)
Theorem mutex_recursive_balance (n : nat) (s : kernel) (c : nat) :
  task_current s = Some c → (1 <= n)%nat → Z.of_nat n <= INT_MAX →
  let held := mk_mutex (Some c) (Z.of_nat n) [] in
  mutex_lock_n n mutex_init s = (held, s)
  ∧ (∀ k, (k < n)%nat →
       mutex_unlock_n k held s = (mk_mutex (Some c) (Z.of_nat (n - k)) [], s))
  ∧ mutex_unlock_n n held s = (mutex_init, s)
  ∧ ∀ s', task_current s' ≠ Some c → mutex_unlock held s' = (held, s').
Proof.
  intros Hc Hn Hmax held. split; [|split; [|split]].
  - destruct n as [|n]; [lia|]. rewrite mutex_lock_n_succ.
    assert (E : mutex_lock mutex_init s = (mk_mutex (Some c) 1 [], s)).
    { unfold mutex_lock, mutex_init. cbn. by rewrite Hc. }
    rewrite E. cbn [fst snd].
    rewrite (mutex_lock_n_owned n 1 _ s c [] Hc); [done|lia|lia|done].
  - intros k Hk. by apply mutex_unlock_n_owned.
  - destruct n as [|n]; [lia|].
    change (S n) with (1 + n)%nat at 1. unfold mutex_unlock_n.
    rewrite Nat.iter_add. fold (mutex_unlock_n n held s).
    rewrite (mutex_unlock_n_owned n (S n) held s c [] Hc); [|lia|lia|done].
    replace (S n - n)%nat with 1%nat by lia. cbn.
    unfold mutex_unlock. cbn. rewrite Hc, decide_True by done. cbn. done.
  - intros s' Hne. unfold mutex_unlock. cbn [owner held].
    rewrite decide_False; [done|]. congruence.
Qed.

Lemma mutex_recursive_balance_witness :
  mutex_lock_n 3 mutex_init example_kernel
  = (mk_mutex (Some (task_table 0)) 3 [], example_kernel)
  ∧ mutex_unlock_n 3 (mk_mutex (Some (task_table 0)) 3 []) example_kernel
    = (mutex_init, example_kernel).
Proof.
  destruct (mutex_recursive_balance 3 example_kernel (task_table 0) eq_refl
              ltac:(lia) ltac:(by vm_compute)) as (H1 & _ & H3 & _).
  split; [exact H1|exact H3].
Defined.

(** ** task.c: the task table *)

Lemma task_table_inj i j : task_table i = task_table j → i = j.
Proof. unfold task_table. lia. Qed.

(** X21.  [alloc_task] returns the lowest slot of [task_table] whose name is
    empty, and the null pointer exactly when no slot is free; it reserves
    nothing, so the slot is returned again until a name is written into it;
    once named it is not returned, and after [free_task] it is returned
    again. *)
Theorem alloc_task_lowest_free (s : kernel) :
  match alloc_task s with
  | Some t =>
      ∃ i, (i < TASK_NR)%nat ∧ t = task_table i
           ∧ name (task_at s t) = EmptyString
           ∧ (∀ j, (j < i)%nat → name (task_at s (task_table j)) ≠ EmptyString)
           ∧ ∀ nm, nm ≠ EmptyString →
               alloc_task (upd_task t (set_name nm) s) ≠ Some t
               ∧ alloc_task (free_task t (upd_task t (set_name nm) s)) = Some t
  | None =>
      ∀ j, (j < TASK_NR)%nat → name (task_at s (task_table j)) ≠ EmptyString
  end.
Proof.
  unfold alloc_task at 1.
  pose proof (find_seq_lowest
                (λ i, bool_decide (name (task_at s (task_table i)) = EmptyString))
                TASK_NR 0) as Hf.
  destruct (find _ _) as [i|]; cbn [fmap option_fmap option_map].
  - destruct Hf as (Hi & HP & Hlow). apply bool_decide_eq_true in HP.
    exists i. split; [lia|]. split; [done|]. split; [done|]. split.
    { intros j Hj. specialize (Hlow j ltac:(lia)). by apply bool_decide_eq_false in Hlow. }
    intros nm Hnm. split.
    + unfold alloc_task.
      pose proof (find_seq_lowest
                    (λ k, bool_decide (name (task_at (upd_task (task_table i) (set_name nm) s)
                                               (task_table k)) = EmptyString))
                    TASK_NR 0) as Hg.
      destruct (find _ _) as [k|]; [|done]. cbn.
      destruct Hg as (_ & HQ & _). apply bool_decide_eq_true in HQ.
      intros [= ->].
      rewrite task_at_upd_eq in HQ. by destruct (task_at s (task_table i)).
    + unfold alloc_task, free_task.
      set (s' := upd_task _ _ (upd_task _ _ s)).
      assert (Hs' : ∀ k, name (task_at s' (task_table k)) = EmptyString
                         ↔ k = i ∨ name (task_at s (task_table k)) = EmptyString).
      { intros k. unfold s'. destruct (decide (k = i)) as [->|Hne].
        - rewrite task_at_upd_eq. split; [by left|]. intros _.
          by destruct (task_at _ _).
        - rewrite !task_at_upd_ne by (intros E; by apply task_table_inj in E).
          split; [by right|]. by intros [|]. }
      pose proof (find_seq_lowest
                    (λ k, bool_decide (name (task_at s' (task_table k)) = EmptyString))
                    TASK_NR 0) as Hg.
      destruct (find _ _) as [k|]; cbn.
      * destruct Hg as (Hk & HQ & Hklow). apply bool_decide_eq_true in HQ.
        destruct (decide (k = i)) as [->|Hne]; [done|]. exfalso.
        destruct (decide (k < i)%nat) as [Hlt|Hge].
        -- apply Hs' in HQ as [|HQ]; [done|].
           specialize (Hlow k ltac:(lia)). by apply bool_decide_eq_false in Hlow.
        -- specialize (Hklow i ltac:(lia)). apply bool_decide_eq_false in Hklow.
           apply Hklow, Hs'. by left.
      * specialize (Hg i ltac:(lia)). apply bool_decide_eq_false in Hg.
        exfalso. apply Hg, Hs'. by left.
  - intros j Hj. specialize (Hf j ltac:(lia)). by apply bool_decide_eq_false in Hf.
Qed.

(** ** memory.c: page tables *)

Lemma entry_at_write_entry_eq pg idx v s : entry_at (write_entry pg idx v s) pg idx = v.
Proof.
  unfold entry_at, write_entry. cbn. rewrite lookup_insert_eq. cbn.
  by rewrite lookup_insert_eq.
Qed.

Lemma entry_at_write_entry_ne pg idx v s pg' idx' :
  (pg', idx') ≠ (pg, idx) →
  entry_at (write_entry pg idx v s) pg' idx' = entry_at s pg' idx'.
Proof.
  intros Hne. unfold entry_at, write_entry. cbn.
  destruct (decide (pg' = pg)) as [->|Hpg].
  - rewrite lookup_insert_eq. cbn. rewrite lookup_insert_ne by congruence.
    by destruct (pages s !! pg).
  - by rewrite lookup_insert_ne.
Qed.

Lemma entry_at_kassert b s pg idx : entry_at (kassert b s) pg idx = entry_at s pg idx.
Proof. by destruct b. Qed.

Lemma pte_paddr_of_entry (paddr perm : Z) :
  0 <= paddr → paddr mod 4096 = 0 → 0 <= perm < 4096 →
  pte_paddr (Z.lor (Z.lor paddr perm) PTE_P) = paddr.
Proof.
  intros Hp Hal Hperm. unfold pte_paddr, PTE_P.
  apply Z.bits_inj'. intros n Hn.
  destruct (decide (n < 12)) as [Hlt|Hge].
  - rewrite Z.shiftl_spec_low by lia.
    rewrite <- (Z.mod_pow2_bits_low paddr 12 n) by lia.
    change (2 ^ 12) with 4096. rewrite Hal. by rewrite Z.bits_0.
  - rewrite Z.shiftl_spec by lia. rewrite Z.shiftr_spec by lia.
    replace (n - 12 + 12) with n by lia. rewrite !Z.lor_spec.
    rewrite (testbit_small perm n 12) by (change (2 ^ 12) with 4096; lia).
    rewrite (testbit_small 1 n 12) by (change (2 ^ 12) with 4096; lia).
    by rewrite !orb_false_r.
Qed.

Lemma page_offset_range (v : Z) : 0 <= Z.land v (MEM_PAGE_SIZE - 1) < 4096.
Proof.
  change (MEM_PAGE_SIZE - 1) with (Z.ones 12). rewrite Z.land_ones by lia.
  change (2 ^ 12) with 4096. apply Z.mod_pos_bound. lia.
Qed.

(** X22.  Map, then translate: when the page table of [vaddr] exists, is
    not at address 0 (so that the entry pointer is not the null pointer) and
    its entry for [vaddr] is not present, [memory_create_map] of one page
    succeeds without allocating and without failing its ASSERT, writes one
    page-table entry and nothing else, and [memory_get_paddr] then
    translates every address of that page to the same offset in the frame
    [paddr]. *)
Theorem memory_map_then_translate (page_dir vaddr paddr perm : Z) (s : kernel) :
  let pde := entry_at s page_dir (pde_index vaddr) in
  present pde = true →
  pde_paddr pde ≠ 0 →
  present (entry_at s (pde_paddr pde) (pte_index vaddr)) = false →
  (pde_paddr pde, pte_index vaddr) ≠ (page_dir, pde_index vaddr) →
  0 <= paddr < 4294967296 → paddr mod 4096 = 0 → 0 <= perm < 4096 →
  let '(r, s') := memory_create_map page_dir vaddr paddr 1 perm s in
  r = 0
  ∧ panicked s' = panicked s
  ∧ paddr_alloc s' = paddr_alloc s
  ∧ (∀ pg i, (pg, i) ≠ (pde_paddr pde, pte_index vaddr) →
       entry_at s' pg i = entry_at s pg i)
  ∧ ∀ v, same_page v vaddr →
      memory_get_paddr page_dir v s' = paddr + Z.land v (MEM_PAGE_SIZE - 1).
Proof.
  intros pde Hpres Htbl Hfree Hslot Hp Hal Hperm.
  cbn [memory_create_map]. unfold find_pte. fold pde. rewrite Hpres, Hfree.
  cbn [negb]. change (kassert true s) with s.
  split; [done|]. split; [done|]. split; [done|]. split.
  - intros pg i Hne. by rewrite entry_at_write_entry_ne by done.
  - intros v [Hv1 Hv2]. unfold memory_get_paddr, find_pte. rewrite Hv1, Hv2.
    rewrite entry_at_write_entry_ne by congruence.
    fold pde. rewrite Hpres. cbn [fst].
    rewrite entry_at_write_entry_eq, pte_paddr_of_entry by (done || lia).
    pose proof (page_offset_range v). unfold u32.
    apply Z.mod_small. revert Hal. Z.to_euclidean_division_equations. lia.
Qed.

Lemma memory_map_then_translate_witness :
  memory_get_paddr 1060864 2147483700
    (memory_create_map 1060864 2147483648 1077248 1 6 example_paged_kernel).2
  = 1077248 + 52
  ∧ panicked (memory_create_map 1060864 2147483648 1077248 1 6 example_paged_kernel).2
    = false.
Proof.
  pose proof (memory_map_then_translate 1060864 2147483648 1077248 6 example_paged_kernel
                eq_refl ltac:(by vm_compute) eq_refl ltac:(by vm_compute) ltac:(lia)
                eq_refl ltac:(lia)) as H.
  destruct (memory_create_map _ _ _ _ _ _) as [r s'].
  destruct H as (_ & Hp & _ & _ & H). cbn [snd]. split.
  - apply (H 2147483700). by split.
  - rewrite Hp. reflexivity.
Defined.

(** X23.  Free, then translate: [memory_free_page] of a mapped user page of
    the current task (its page table exists and is not at address 0, its
    entry is present, so the ASSERT holds) releases the frame the entry
    names and zeroes the entry, leaving every other entry alone; since
    [memory_get_paddr] does not look at the present bit, an address of the
    freed page then translates to its bare page offset, which is 0 (the
    failure value) only for the first byte of the page. *)
Theorem memory_free_page_then_translate (addr : Z) (s : kernel) (curr : tid) :
  task_current s = Some curr →
  let page_dir := tss_cr3 (tss (task_at s curr)) in
  let pde := entry_at s page_dir (pde_index addr) in
  let pte := entry_at s (pde_paddr pde) (pte_index addr) in
  ¬ addr < MEMORY_TASK_BASE →
  present pde = true →
  pde_paddr pde ≠ 0 →
  present pte = true →
  (pde_paddr pde, pte_index addr) ≠ (page_dir, pde_index addr) →
  (page_index s (pte_paddr pte) < length (bitmap (paddr_alloc s)))%nat →
  let s' := memory_free_page addr s in
  panicked s' = panicked s
  ∧ page_is_free s' (pte_paddr pte)
  ∧ entry_at s' (pde_paddr pde) (pte_index addr) = 0
  ∧ (∀ pg i, (pg, i) ≠ (pde_paddr pde, pte_index addr) →
       entry_at s' pg i = entry_at s pg i)
  ∧ ∀ v, same_page v addr →
      memory_get_paddr page_dir v s' = Z.land v (MEM_PAGE_SIZE - 1).
Proof.
  intros Hc page_dir pde pte Hge Hpres Htbl Hpte Hslot Hidx s'.
  assert (Es' : s' = write_entry (pde_paddr pde) (pte_index addr) 0
                       (addr_free_page (pte_paddr pte) 1 s)).
  { unfold s', memory_free_page. rewrite decide_False by done. rewrite Hc.
    fold page_dir. unfold find_pte. fold pde. rewrite Hpres. cbn [fst].
    fold pte. by rewrite Hpte. }
  rewrite Es'. split; [done|]. split; [|split; [|split]].
  - unfold page_is_free.
    change (page_index (write_entry ?a ?b ?c ?x)) with (page_index x).
    change (paddr_alloc (write_entry ?a ?b ?c ?x)) with (paddr_alloc x).
    by apply addr_free_page_frees.
  - apply entry_at_write_entry_eq.
  - intros pg i Hne. by rewrite entry_at_write_entry_ne by done.
  - intros v [Hv1 Hv2]. unfold memory_get_paddr, find_pte. rewrite Hv1, Hv2.
    rewrite entry_at_write_entry_ne by congruence.
    change (entry_at (addr_free_page ?a ?n ?x) ?pg ?i) with (entry_at x pg i).
    fold pde. rewrite Hpres. cbn [fst]. rewrite entry_at_write_entry_eq.
    change (pte_paddr 0) with 0. pose proof (page_offset_range v).
    unfold u32. apply Z.mod_small. lia.
Qed.

Lemma memory_free_page_then_translate_witness :
  memory_get_paddr 1060864 2147483700 (memory_free_page 2147483648 example_mapped_kernel)
  = 52
  ∧ page_is_free (memory_free_page 2147483648 example_mapped_kernel) 1077248
  ∧ panicked (memory_free_page 2147483648 example_mapped_kernel) = false.
Proof.
  pose proof (memory_free_page_then_translate 2147483648 example_mapped_kernel
                (task_table 0) eq_refl ltac:(by vm_compute) eq_refl
                ltac:(by vm_compute) eq_refl
                ltac:(by vm_compute) ltac:(vm_compute; lia)) as (H0 & H1 & _ & _ & H4).
  split; [|split; [exact H1|]].
  - apply (H4 2147483700). by split.
  - rewrite H0. reflexivity.
Defined.

(** ** memory.c: address spaces *)

Lemma bitmap_lowest_run_clear bits : ∀ i,
  bitmap_lowest_run bits 1 = Some i → bits !! i = Some false.
Proof.
  induction bits as [|b rest IH]; intros i; cbn [bitmap_lowest_run]; [done|].
  destruct (run_is_clear (b :: rest) 1) eqn:E.
  - intros [= <-]. unfold run_is_clear in E. apply bool_decide_eq_true in E.
    cbn in E. by injection E as ->.
  - destruct (bitmap_lowest_run rest 1) as [j|]; [|done].
    cbn. intros [= <-]. by apply IH.
Qed.

(** The copy loop of [memory_create_uvm]. *)
Lemma create_uvm_fold dir l : ∀ st,
  let st' :=
    fold_left (λ st i, write_entry dir i (default 0 (kernel_page_dir st !! i)) st) l st in
  kernel_page_dir st' = kernel_page_dir st
  ∧ paddr_alloc st' = paddr_alloc st
  ∧ ∀ i, entry_at st' dir i
         = if decide (i ∈ l) then default 0 (kernel_page_dir st !! i)
           else entry_at st dir i.
Proof.
  induction l as [|a l IH]; intros st; cbn [fold_left].
  - split; [done|]. split; [done|]. intros i. rewrite decide_False; [done|].
    apply not_elem_of_nil.
  - destruct (IH (write_entry dir a (default 0 (kernel_page_dir st !! a)) st))
      as (H1 & H2 & H3).
    cbv zeta. split; [by rewrite H1|]. split; [by rewrite H2|].
    intros i. rewrite H3.
    change (kernel_page_dir (write_entry ?a ?b ?c ?x)) with (kernel_page_dir x).
    destruct (decide (i ∈ l)) as [Hin|Hnin].
    + rewrite decide_True; [done|]. by apply list_elem_of_further.
    + destruct (decide (i = a)) as [->|Hne].
      * rewrite decide_True by apply list_elem_of_here.
        apply entry_at_write_entry_eq.
      * rewrite decide_False.
        -- apply entry_at_write_entry_ne. congruence.
        -- intros Hin. apply elem_of_cons in Hin as [|]; done.
Qed.

(** The outer loop of [memory_destroy_uvm] over a directory without user
    page tables. *)
Lemma destroy_uvm_fold_empty dir l : ∀ st,
  (∀ i, i ∈ l → present (entry_at st dir i) = false) →
  fold_left
    (λ st i,
       let pde := entry_at st dir i in
       if present pde then
         addr_free_page (pde_paddr pde) 1 (destroy_table (pde_paddr pde) st)
       else st) l st = st.
Proof.
  induction l as [|a l IH]; intros st Hl; cbn [fold_left]; [done|].
  cbv zeta. rewrite (Hl a) by apply list_elem_of_here.
  apply IH. intros i Hi. apply Hl. by apply list_elem_of_further.
Qed.

(** X24.  A fresh address space and its disposal: the directory
    [memory_create_uvm] returns holds the kernel's entries in its lower half
    and no user page table, apart from page memory and the bitmap nothing
    changes, and [memory_destroy_uvm] of that directory gives the page back,
    so the allocator is as before. *)
Theorem memory_uvm_round_trip (s : kernel) :
  alloc_wf s →
  let '(dir, s1) := memory_create_uvm s in
  dir ≠ 0 →
  (∀ i, 0 <= i < 512 → entry_at s1 dir i = default 0 (kernel_page_dir s !! i))
  ∧ (∀ i, 512 <= i < 1024 → entry_at s1 dir i = 0)
  ∧ page_is_allocated s1 dir
  ∧ mem_only s s1
  ∧ paddr_alloc (memory_destroy_uvm dir s1) = paddr_alloc s.
Proof.
  intros Hwf.
  destruct (memory_create_uvm s) as [dir s1] eqn:Ec. intros Hne.
  pose proof (mem_only_memory_create_uvm s) as Hmo. rewrite Ec in Hmo. cbn [snd] in Hmo.
  destruct (memory_create_uvm_page s dir s1 Hwf Ec Hne) as [Hlt Hal].
  unfold memory_create_uvm in Ec.
  destruct (addr_alloc_page 1 s) as [d s0] eqn:Ea.
  destruct (decide (d = 0)) as [|Hd]; [congruence|].
  set (l := seqZ 0 (pde_index MEMORY_TASK_BASE)) in Ec.
  assert (Hl : ∀ i, i ∈ l ↔ 0 <= i < 512).
  { intros i. unfold l. rewrite elem_of_seqZ.
    change (pde_index MEMORY_TASK_BASE) with 512. lia. }
  clearbody l.
  pose proof (create_uvm_fold d l (clear_page d s0)) as Hfold. cbv zeta in Hfold.
  set (sf := fold_left _ l (clear_page d s0)) in *.
  destruct Hfold as (Hk & Hb & Hent). clearbody sf.
  assert (d = dir) as -> by congruence. assert (sf = s1) as -> by congruence. clear Ec.
  assert (Hlow : ∀ i, 0 <= i < 512 →
            entry_at s1 dir i = default 0 (kernel_page_dir s !! i)).
  { intros i Hi. rewrite Hent. rewrite decide_True by by apply Hl.
    change (kernel_page_dir (clear_page dir s0)) with (kernel_page_dir s0).
    pose proof (mem_only_addr_alloc_page 1 s) as Hm0. rewrite Ea in Hm0.
    cbn [snd] in Hm0. by rewrite (mo_kpd _ _ Hm0). }
  assert (Hhigh : ∀ i, 512 <= i < 1024 → entry_at s1 dir i = 0).
  { intros i Hi. rewrite Hent. rewrite decide_False by (rewrite Hl; lia).
    unfold entry_at, clear_page. cbn. by rewrite lookup_insert_eq. }
  split; [done|]. split; [done|]. split; [done|]. split; [done|].
  unfold memory_destroy_uvm. rewrite bool_decide_eq_true_2 by done.
  change (kassert true s1) with s1.
  set (l2 := seqZ _ _).
  assert (Hl2 : ∀ i, i ∈ l2 → 512 <= i < 1024).
  { intros i. unfold l2. rewrite elem_of_seqZ.
    change (pde_index MEMORY_TASK_BASE) with 512.
    change (Z.of_nat PDE_CNT) with 1024. lia. }
  clearbody l2.
  rewrite destroy_uvm_fold_empty.
  2:{ intros i Hi. by rewrite Hhigh by by apply Hl2. }
  unfold addr_free_page. cbn [paddr_alloc set_paddr_alloc]. rewrite Hb.
  change (paddr_alloc (clear_page dir s0)) with (paddr_alloc s0).
  clear Hent Hlow Hhigh Hal Hlt Hmo Hk Hb.
  revert Ea. unfold addr_alloc_page, bitmap_alloc_nbits.
  destruct (bitmap_lowest_run _ 1) as [i|] eqn:E; [|by intros [= <- <-]].
  intros [= <- <-]. cbn [paddr_alloc set_paddr_alloc alloc_start alloc_page_size
                          set_bitmap bitmap bitmap_set_bit].
  destruct Hwf as [Hps Hsz]. pose proof (bitmap_lowest_run_lt _ _ _ E) as Hi.
  apply bitmap_lowest_run_clear in E.
  destruct (paddr_alloc s) as [start size ps bits].
  cbn [alloc_start alloc_size alloc_page_size bitmap] in *.
  assert (Hidx : Z.to_nat (u32 (u32 (start + Z.of_nat i * ps) - start) / ps) = i).
  { unfold u32. rewrite Zminus_mod_idemp_l.
    replace (start + Z.of_nat i * ps - start) with (Z.of_nat i * ps) by lia.
    rewrite Z.mod_small by nia. rewrite Z.div_mul by lia. apply Nat2Z.id. }
  rewrite Hidx. unfold set_bitmap. cbn [alloc_start alloc_size alloc_page_size bitmap].
  rewrite list_insert_insert_eq. by rewrite list_insert_id.
Qed.

Lemma memory_uvm_round_trip_witness :
  (memory_create_uvm example_kernel).1 = 1073152
  ∧ paddr_alloc (memory_destroy_uvm 1073152 (memory_create_uvm example_kernel).2)
    = paddr_alloc example_kernel.
Proof.
  assert (Hwf : alloc_wf example_kernel) by (split; vm_compute; [done|discriminate]).
  pose proof (memory_uvm_round_trip example_kernel Hwf) as H.
  assert (Ed : (memory_create_uvm example_kernel).1 = 1073152) by (by vm_compute).
  destruct (memory_create_uvm example_kernel) as [dir s1]. cbn [fst snd] in *.
  subst dir. split; [done|]. by apply H.
Defined.

(** ** irq.c *)

Lemma inb_outb_eq port data c : Irq.inb port (Irq.outb port data c) = Irq.u8 data.
Proof.
  unfold Irq.inb, Irq.outb. cbn. rewrite lookup_insert_eq. cbn.
  unfold Irq.u8. by rewrite Z.mod_mod.
Qed.

Lemma inb_outb_ne port port' data c :
  port' ≠ port → Irq.inb port' (Irq.outb port data c) = Irq.inb port' c.
Proof. intros Hne. unfold Irq.inb, Irq.outb. cbn. by rewrite lookup_insert_ne. Qed.

Lemma u8_testbit (x k : Z) : 0 <= k < 8 → Z.testbit (Irq.u8 x) k = Z.testbit x k.
Proof. intros Hk. unfold Irq.u8. change 256 with (2 ^ 8). apply Z.mod_pow2_bits_low. lia. Qed.

Lemma shift_bit (n k : Z) : 0 <= n < 31 → 0 <= k →
  Z.testbit (s32 (Z.shiftl 1 n)) k = bool_decide (k = n).
Proof.
  intros Hn Hk.
  assert (0 < 2 ^ n < 2 ^ 31) by (split; [|apply Z.pow_lt_mono_r]; lia).
  rewrite Z.shiftl_1_l, s32_small by (change (2 ^ 31) with 2147483648 in *; lia).
  rewrite Z.pow2_bits_eqb by lia.
  destruct (Z.eqb_spec n k); [by rewrite bool_decide_eq_true_2|
                              by rewrite bool_decide_eq_false_2].
Qed.

Lemma inb_byte port c k : 8 <= k → Z.testbit (Irq.inb port c) k = false.
Proof.
  intros Hk. unfold Irq.inb, Irq.u8. change 256 with (2 ^ 8).
  apply Z.mod_pow2_bits_high. lia.
Qed.

(** X25.  [irq_enable] and [irq_disable] act on one line: for an interrupt
    number from 32 to 47 the line of that number is unmasked, respectively
    masked, and the other fifteen keep their state; a number below 32
    changes nothing; and a number from 48 to 70 is not refused but rewrites
    the second controller's mask unchanged. *)
Theorem irq_enable_disable_one_line (irq irq' : Z) (c : Irq.cpu_t) :
  32 <= irq' < 48 →
  (32 <= irq < 48 →
     irq_masked (Irq.irq_enable irq c) irq'
       = (if decide (irq' = irq) then false else irq_masked c irq')
     ∧ irq_masked (Irq.irq_disable irq c) irq'
       = (if decide (irq' = irq) then true else irq_masked c irq'))
  ∧ (irq < 32 → Irq.irq_enable irq c = c ∧ Irq.irq_disable irq c = c)
  ∧ (48 <= irq < 71 →
     irq_masked (Irq.irq_enable irq c) irq' = irq_masked c irq'
     ∧ irq_masked (Irq.irq_disable irq c) irq' = irq_masked c irq').
Proof.
  intros Hr'. unfold irq_masked, Irq.irq_enable, Irq.irq_disable, Irq.IRQ_PIC_START.
  split; [|split].
  - intros Hr. rewrite !(decide_False (P := irq < 32)) by lia.
    destruct (decide (irq - 32 < 8)) as [Hlo|Hhi];
      destruct (decide (irq' < 32 + 8)) as [Hlo'|Hhi'].
    + rewrite !inb_outb_eq, !u8_testbit by lia.
      rewrite Z.land_spec, Z.lor_spec, Z.lnot_spec, !shift_bit by lia.
      destruct (decide (irq' = irq)) as [->|Hne].
      * rewrite bool_decide_eq_true_2 by done. cbn. by rewrite andb_false_r, orb_true_r.
      * rewrite bool_decide_eq_false_2 by lia. cbn. by rewrite andb_true_r, orb_false_r.
    + rewrite !inb_outb_ne by done. by rewrite !decide_False by lia.
    + rewrite !inb_outb_ne by done. by rewrite !decide_False by lia.
    + rewrite !inb_outb_eq, !u8_testbit by lia.
      rewrite Z.land_spec, Z.lor_spec, Z.lnot_spec, !shift_bit by lia.
      destruct (decide (irq' = irq)) as [->|Hne].
      * rewrite bool_decide_eq_true_2 by done. cbn. by rewrite andb_false_r, orb_true_r.
      * rewrite bool_decide_eq_false_2 by lia. cbn. by rewrite andb_true_r, orb_false_r.
  - intros Hr. by rewrite !decide_True by done.
  - intros Hr. rewrite !(decide_False (P := irq < 32)) by lia.
    rewrite !(decide_False (P := irq - 32 < 8)) by lia.
    destruct (decide (irq' < 32 + 8)) as [Hlo'|Hhi'].
    + by rewrite !inb_outb_ne by done.
    + rewrite !inb_outb_eq, !u8_testbit by lia.
      rewrite Z.land_spec, Z.lor_spec, Z.lnot_spec, !shift_bit by lia.
      rewrite bool_decide_eq_false_2 by lia. cbn.
      by rewrite andb_true_r, orb_false_r.
Qed.

Lemma irq_enable_disable_one_line_witness :
  irq_masked (Irq.irq_enable 32 example_cpu) 32 = false
  ∧ irq_masked (Irq.irq_disable 32 (Irq.irq_enable 32 example_cpu)) 32 = true.
Proof.
  destruct (irq_enable_disable_one_line 32 32 example_cpu ltac:(lia)) as [H _].
  destruct (irq_enable_disable_one_line 32 32 (Irq.irq_enable 32 example_cpu) ltac:(lia))
    as [H' _].
  split; [exact (proj1 (H ltac:(lia)))|exact (proj2 (H' ltac:(lia)))].
Defined.

Lemma eflags_if_cleared (e k : Z) : 0 <= k →
  Z.testbit (Z.land e (Z.lnot EFLAGS_IF)) k = Z.testbit e k && negb (bool_decide (k = 9)).
Proof.
  intros Hk. rewrite Z.land_spec, Z.lnot_spec by done.
  change EFLAGS_IF with (2 ^ 9). rewrite Z.pow2_bits_eqb by lia.
  destruct (Z.eqb_spec 9 k); [by rewrite bool_decide_eq_true_2|
                              by rewrite bool_decide_eq_false_2].
Qed.

(** X26.  Protected sections nest: [irq_enter_protection] turns interrupts
    off and hands back the flags it found; [irq_leave_protection] of an
    inner section leaves interrupts off, and that of the outermost section
    puts the flags register back exactly as it was, whether interrupts were
    on or off. *)
Theorem irq_protection_nests (c : Irq.cpu_t) :
  0 <= Irq.eflags c < 4294967296 →
  let '(outer, c1) := Irq.irq_enter_protection c in
  let '(inner, c2) := Irq.irq_enter_protection c1 in
  let c3 := Irq.irq_leave_protection inner c2 in
  let c4 := Irq.irq_leave_protection outer c3 in
  interrupts_on c1 = false ∧ interrupts_on c2 = false ∧ interrupts_on c3 = false
  ∧ c3 = c1 ∧ c4 = c.
Proof.
  intros Hr. unfold Irq.irq_enter_protection, Irq.irq_leave_protection,
    Irq.irq_disable_global, Irq.read_eflags, Irq.write_eflags, Irq.cli, interrupts_on.
  cbn [Irq.eflags Irq.idt_table Irq.ports].
  set (e1 := Z.land (Irq.eflags c) (Z.lnot EFLAGS_IF)).
  assert (Hbit : Z.testbit e1 9 = false).
  { unfold e1. rewrite eflags_if_cleared by lia.
    rewrite bool_decide_eq_true_2 by done. apply andb_false_r. }
  assert (Hr1 : u32 e1 = e1).
  { apply Z.bits_inj'. intros k Hk. unfold u32. change 4294967296 with (2 ^ 32).
    destruct (decide (k < 32)) as [Hlt|Hge].
    - by rewrite Z.mod_pow2_bits_low by lia.
    - rewrite Z.mod_pow2_bits_high by lia. unfold e1.
      rewrite Z.land_spec, (testbit_small (Irq.eflags c) k 32); [done|done|lia]. }
  assert (Hidem : Z.land e1 (Z.lnot EFLAGS_IF) = e1).
  { apply Z.bits_inj'. intros k Hk. rewrite eflags_if_cleared by done.
    destruct (decide (k = 9)) as [->|Hne].
    - rewrite Hbit. done.
    - rewrite bool_decide_eq_false_2 by done. apply andb_true_r. }
  rewrite Hidem, Hr1. rewrite u32_small by lia.
  split; [done|]. split; [done|]. split; [done|]. split; [done|].
  by destruct c.
Qed.

Lemma irq_protection_nests_witness :
  Irq.irq_leave_protection (Irq.irq_enter_protection example_cpu).1
    (Irq.irq_leave_protection
       (Irq.irq_enter_protection (Irq.irq_enter_protection example_cpu).2).1
       (Irq.irq_enter_protection (Irq.irq_enter_protection example_cpu).2).2)
  = example_cpu.
Proof.
  assert (Hr : 0 <= Irq.eflags example_cpu < 4294967296) by (unfold example_cpu; cbn; lia).
  pose proof (irq_protection_nests example_cpu Hr) as H.
  destruct (Irq.irq_enter_protection example_cpu) as [outer c1]. cbn [fst snd].
  destruct (Irq.irq_enter_protection c1) as [inner c2]. cbn [fst snd].
  by destruct H as (_ & _ & _ & _ & H).
Defined.

Lemma gate_offset_decodes (h : Z) :
  Z.lor (Z.land (u32 h) 65535) (Z.shiftl (Z.land (Z.shiftr (u32 h) 16) 65535) 16) = u32 h.
Proof.
  assert (Hh : 0 <= u32 h < 2 ^ 32) by (unfold u32; apply Z.mod_pos_bound; lia).
  generalize dependent (u32 h). intros x Hx.
  apply Z.bits_inj'. intros k Hk.
  rewrite Z.lor_spec, Z.land_spec.
  change 65535 with (Z.ones 16). rewrite Z.testbit_ones_nonneg by lia.
  destruct (decide (k < 16)) as [Hlt|Hge].
  - rewrite Z.shiftl_spec_low by lia. rewrite (proj2 (Z.ltb_lt _ _)) by lia.
    by rewrite andb_true_r, orb_false_r.
  - rewrite (proj2 (Z.ltb_ge _ _)) by lia. rewrite andb_false_r. cbn [orb].
    rewrite Z.shiftl_spec by lia. rewrite Z.land_spec, Z.shiftr_spec by lia.
    replace (k - 16 + 16) with k by lia.
    rewrite Z.testbit_ones_nonneg by lia.
    destruct (decide (k < 32)) as [Hlt|Hge'].
    + rewrite (proj2 (Z.ltb_lt _ _)) by lia. apply andb_true_r.
    + rewrite (proj2 (Z.ltb_ge _ _)) by lia. rewrite andb_false_r.
      symmetry. apply (testbit_small x k 32); [done|lia].
Qed.

(** X27.  [irq_install] refuses a vector of 256 or more and leaves the table
    alone; for a vector of the table it returns 0 and stores a present
    ring-0 interrupt gate on the kernel code segment whose two offset fields
    put together are the handler's address; no other gate, flag or port
    changes. *)
Theorem irq_install_sets_gate (irq_num handler : Z) (c : Irq.cpu_t) :
  (irq_num >= 256 → Irq.irq_install irq_num handler c = (-1, c))
  ∧ (0 <= irq_num < 256 →
     let '(r, c') := Irq.irq_install irq_num handler c in
     r = 0
     ∧ gate_offset (Irq.gate_at c' irq_num) = u32 handler
     ∧ Irq.selector (Irq.gate_at c' irq_num) = KERNEL_SELECTOR_CS
     ∧ Irq.attr (Irq.gate_at c' irq_num) = 36352
     ∧ (∀ i, i ≠ irq_num → Irq.gate_at c' i = Irq.gate_at c i)
     ∧ Irq.eflags c' = Irq.eflags c ∧ Irq.ports c' = Irq.ports c).
Proof.
  unfold Irq.irq_install, Irq.IDT_TABLE_NR. split; intros Hr.
  - by rewrite decide_True by done.
  - rewrite decide_False by lia. split; [done|].
    unfold Irq.gate_desc_set, Irq.gate_at, gate_offset.
    cbn [Irq.idt_table Irq.eflags Irq.ports]. rewrite lookup_insert_eq.
    cbn [default Irq.offset15_0 Irq.offset31_16 Irq.selector Irq.attr].
    split; [apply gate_offset_decodes|]. split; [done|]. split; [done|].
    split; [|done]. intros i Hi. by rewrite lookup_insert_ne.
Qed.

Lemma irq_install_sets_gate_witness :
  gate_offset (Irq.gate_at (Irq.irq_install 32 1114112 example_cpu).2 32) = 1114112.
Proof.
  destruct (irq_install_sets_gate 32 1114112 example_cpu) as [_ H].
  specialize (H ltac:(lia)).
  destruct (Irq.irq_install 32 1114112 example_cpu) as [r c'].
  by destruct H as (_ & H & _).
Defined.

(** ** memory.c: the failure path of [memory_alloc_for_page_dir] *)

Lemma up2_one_page (size : Z) :
  0 < size <= MEM_PAGE_SIZE → up2 size MEM_PAGE_SIZE / MEM_PAGE_SIZE = 1.
Proof.
  unfold up2, down2, MEM_PAGE_SIZE. intros Hs.
  rewrite u32_small by lia. Z.to_euclidean_division_equations. lia.
Qed.

(** X28.  A frame is lost when mapping fails: if [memory_alloc_for_page_dir]
    takes the last free frame for a page whose page table does not exist
    yet, [memory_create_map] fails for want of a frame for the table; the
    call returns -1, and what it gives back to the allocator is the page
    index of the virtual address, not the frame it took, which stays
    allocated although no page-table entry was written. *)
Theorem memory_alloc_for_page_dir_loses_frame
    (page_dir vaddr size perm : Z) (s : kernel) (paddr : Z) (s1 : kernel) :
  alloc_wf s →
  0 < size <= MEM_PAGE_SIZE →
  addr_alloc_page 1 s = (paddr, s1) → paddr ≠ 0 →
  bitmap_lowest_run (bitmap (paddr_alloc s1)) 1 = None →
  present (entry_at s page_dir (pde_index vaddr)) = false →
  page_index s (down2 vaddr MEM_PAGE_SIZE) ≠ page_index s paddr →
  let '(r, s') := memory_alloc_for_page_dir page_dir vaddr size perm s in
  r = u32 (-1) ∧ pages s' = pages s ∧ page_is_allocated s' paddr.
Proof.
  intros Hwf Hsize Ea Hne Hfull Hpde Hidx.
  destruct (addr_alloc_page_index s paddr s1 Hwf Ea Hne) as [_ Hal].
  pose proof (mem_only_addr_alloc_page 1 s) as Hm. rewrite Ea in Hm. cbn [snd] in Hm.
  assert (Hpages : pages s1 = pages s).
  { revert Ea. unfold addr_alloc_page. destruct (bitmap_alloc_nbits _ _) as [[i bits]|];
      by intros [= _ <-]. }
  unfold memory_alloc_for_page_dir. rewrite up2_one_page by done.
  change (Z.to_nat (s32 1)) with 1%nat. cbn [memory_alloc_loop]. rewrite Ea.
  rewrite decide_False by done. cbn [memory_create_map]. unfold find_pte.
  assert (He : entry_at s1 page_dir (pde_index vaddr) = entry_at s page_dir (pde_index vaddr)).
  { unfold entry_at. by rewrite Hpages. }
  rewrite He, Hpde. cbn [negb].
  rewrite (addr_alloc_page_exhausted 1 s1 Hfull). rewrite decide_True by done.
  rewrite decide_True by lia.
  split; [done|]. split; [done|].
  unfold page_is_allocated, page_index in *. unfold addr_free_page.
  cbn [paddr_alloc set_paddr_alloc alloc_start alloc_page_size set_bitmap bitmap
       bitmap_set_bit].
  rewrite (mo_start _ _ Hm), (mo_page_size _ _ Hm) in *.
  change (0 + 1)%nat with 1%nat. cbn [bitmap_set_bit].
  rewrite list_lookup_insert_ne by done. exact Hal.
Qed.

Lemma memory_alloc_for_page_dir_loses_frame_witness :
  let s := set_paddr_alloc (example_alloc 16 15) example_kernel in
  (memory_alloc_for_page_dir 1060864 2147483648 4096 7 s).1 = u32 (-1)
  ∧ page_is_allocated (memory_alloc_for_page_dir 1060864 2147483648 4096 7 s).2 1110016.
Proof.
  cbv zeta. set (s := set_paddr_alloc (example_alloc 16 15) example_kernel).
  assert (Hwf : alloc_wf s) by (split; vm_compute; [done|discriminate]).
  assert (Hidx : page_index s (down2 2147483648 MEM_PAGE_SIZE) ≠ page_index s 1110016).
  { unfold page_index. intros H. apply Z2Nat.inj in H; [|by vm_compute..].
    by vm_compute in H. }
  pose proof (memory_alloc_for_page_dir_loses_frame 1060864 2147483648 4096 7 s
                1110016 (addr_alloc_page 1 s).2 Hwf ltac:(unfold MEM_PAGE_SIZE; lia)
                ltac:(by vm_compute) ltac:(lia) ltac:(by vm_compute)
                ltac:(by vm_compute) Hidx) as H.
  destruct (memory_alloc_for_page_dir 1060864 2147483648 4096 7 s) as [r s'].
  cbn [fst snd]. by destruct H as (H1 & _ & H3).
Defined.

(** ** task.c: [copy_opened_files] *)

Lemma file_at_upd_task s t g f : file_at (upd_task t g s) f = file_at s f.
Proof. done. Qed.

Lemma fd_count_cons tbl a l f :
  fd_count tbl (a :: l) f
  = (if decide (tbl !! a = Some f) then 1 else 0) + fd_count tbl l f.
Proof.
  unfold fd_count. rewrite filter_cons.
  destruct (decide (tbl !! a = Some f)); cbn [length]; lia.
Qed.

Lemma fd_count_nonneg tbl l f : 0 <= fd_count tbl l f.
Proof. unfold fd_count. lia. Qed.

Lemma copy_opened_files_fold (parent child : tid) (tbl : gmap nat nat) (l : list nat) :
  ∀ st,
  child ≠ parent → file_table (task_at st parent) = tbl →
  (∀ f, 0 <= f_ref (file_at st f)
        ∧ f_ref (file_at st f) + fd_count tbl l f <= INT_MAX) →
  let st' :=
    fold_left
      (λ st i,
         match file_table (task_at st parent) !! i with
         | Some file =>
             upd_task child
               (λ t, set_file_table (<[i := file]> (file_table t)) t)
               (file_inc_ref file st)
         | None => st
         end) l st in
  (∀ t, t ≠ child → task_at st' t = task_at st t)
  ∧ (∀ i, file_table (task_at st' child) !! i
          = match (if decide (i ∈ l) then tbl !! i else None) with
            | Some f => Some f
            | None => file_table (task_at st child) !! i
            end)
  ∧ ∀ f, file_at st' f
         = mk_file (f_data (file_at st f)) (f_pos (file_at st f))
             (f_ref (file_at st f) + fd_count tbl l f).
Proof.
  induction l as [|a l IH]; intros st Hne Htbl Href; cbn [fold_left].
  - cbv zeta. split; [done|]. split.
    + intros i. by rewrite decide_False by apply not_elem_of_nil.
    + intros f. unfold fd_count. cbn. rewrite Z.add_0_r. by destruct (file_at st f).
  - cbv zeta. rewrite Htbl.
    destruct (tbl !! a) as [file|] eqn:Ea.
    + set (st1 := upd_task child _ (file_inc_ref file st)).
      assert (Hoth1 : ∀ t, t ≠ child → task_at st1 t = task_at st t).
      { intros t Ht. unfold st1. by rewrite task_at_upd_ne by done. }
      assert (Hfile1 : ∀ f, file_at st1 f
                = if decide (f = file)
                  then mk_file (f_data (file_at st f)) (f_pos (file_at st f))
                         (f_ref (file_at st f) + 1)
                  else file_at st f).
      { intros f. unfold st1. rewrite file_at_upd_task. unfold file_inc_ref.
        destruct (decide (f = file)) as [->|Hf].
        - rewrite file_at_upd_file_eq. f_equal.
          destruct (Href file) as [H0 H1]. rewrite fd_count_cons, Ea in H1.
          rewrite decide_True in H1 by done.
          pose proof (fd_count_nonneg tbl l file). unfold INT_MAX in H1.
          apply s32_small. lia.
        - by rewrite file_at_upd_file_ne. }
      assert (Href1 : ∀ f, 0 <= f_ref (file_at st1 f)
                           ∧ f_ref (file_at st1 f) + fd_count tbl l f <= INT_MAX).
      { intros f. rewrite Hfile1. destruct (Href f) as [H0 H1].
        rewrite fd_count_cons, Ea in H1.
        destruct (decide (f = file)) as [->|Hf].
        - rewrite decide_True in H1 by done. cbn. lia.
        - rewrite decide_False in H1 by congruence. lia. }
      destruct (IH st1 Hne) as (H1 & H2 & H3); [by rewrite Hoth1|done|].
      split; [|split].
      * intros t Ht. by rewrite H1, Hoth1.
      * intros i. rewrite H2. unfold st1 at 1. rewrite task_at_upd_eq.
        change (task_at (file_inc_ref file st) child) with (task_at st child).
        cbn [file_table set_file_table].
        destruct (decide (i ∈ l)) as [Hin|Hnin].
        -- rewrite decide_True by by apply list_elem_of_further.
           destruct (tbl !! i) eqn:Ei; [done|].
           destruct (task_at st child). cbn.
           destruct (decide (i = a)) as [->|Hia]; [congruence|].
           by rewrite lookup_insert_ne.
        -- destruct (task_at st child) eqn:Ec. cbn.
           destruct (decide (i = a)) as [->|Hia].
           ++ rewrite decide_True by apply list_elem_of_here.
              by rewrite lookup_insert_eq, Ea.
           ++ rewrite decide_False.
              ** by rewrite lookup_insert_ne.
              ** intros Hin. apply elem_of_cons in Hin as [|]; done.
      * intros f. rewrite H3, Hfile1, fd_count_cons, Ea.
        destruct (decide (f = file)) as [->|Hf].
        -- rewrite decide_True by done. cbn. f_equal. lia.
        -- rewrite decide_False by congruence. f_equal.
    + assert (Href1 : ∀ f, 0 <= f_ref (file_at st f)
                           ∧ f_ref (file_at st f) + fd_count tbl l f <= INT_MAX).
      { intros f. destruct (Href f) as [H0 H1]. rewrite fd_count_cons, Ea in H1.
        rewrite decide_False in H1 by done. lia. }
      destruct (IH st Hne Htbl Href1) as (H1 & H2 & H3).
      split; [done|]. split.
      * intros i. rewrite H2. destruct (decide (i ∈ l)) as [Hin|Hnin].
        -- by rewrite decide_True by by apply list_elem_of_further.
        -- destruct (decide (i = a)) as [->|Hia].
           ++ rewrite decide_True by apply list_elem_of_here. by rewrite Ea.
           ++ rewrite decide_False; [done|].
              intros Hin. apply elem_of_cons in Hin as [|]; done.
      * intros f. rewrite H3, fd_count_cons, Ea. by rewrite decide_False by done.
Qed.

(** X29.  [copy_opened_files] makes the child share the parent's open
    files: a child that starts with an empty file table ends with the
    parent's table, every file gains one reference per descriptor of the
    parent that names it, file contents and positions are not copied or
    changed, and no task but the child is touched. *)
Theorem copy_opened_files_shares (child : tid) (s : kernel) (parent : tid) :
  task_current s = Some parent → child ≠ parent →
  file_table (task_at s child) = ∅ →
  (∀ i, (TASK_OFILE_NR <= i)%nat → file_table (task_at s parent) !! i = None) →
  (∀ f, 0 <= f_ref (file_at s f)
        ∧ f_ref (file_at s f)
          + fd_count (file_table (task_at s parent)) (seq 0 TASK_OFILE_NR) f <= INT_MAX) →
  let s' := copy_opened_files child s in
  file_table (task_at s' child) = file_table (task_at s parent)
  ∧ (∀ t, t ≠ child → task_at s' t = task_at s t)
  ∧ ∀ f, file_at s' f
         = mk_file (f_data (file_at s f)) (f_pos (file_at s f))
             (f_ref (file_at s f)
              + fd_count (file_table (task_at s parent)) (seq 0 TASK_OFILE_NR) f).
Proof.
  intros Hc Hne Hempty Hdom Href s'. unfold s', copy_opened_files, with_current.
  rewrite Hc.
  destruct (copy_opened_files_fold parent child (file_table (task_at s parent))
              (seq 0 TASK_OFILE_NR) s Hne eq_refl Href) as (H1 & H2 & H3).
  split; [|split; [done|done]].
  apply map_eq. intros i. rewrite H2, Hempty, lookup_empty.
  destruct (decide (i ∈ seq 0 TASK_OFILE_NR)) as [Hin|Hnin].
  - by destruct (file_table (task_at s parent) !! i).
  - symmetry. apply Hdom. rewrite elem_of_seq in Hnin. lia.
Qed.

Lemma fd_count_le tbl l f : fd_count tbl l f <= Z.of_nat (length l).
Proof. unfold fd_count. pose proof (length_filter (λ i, tbl !! i = Some f) l). lia. Qed.

Lemma copy_opened_files_shares_witness :
  let s' := copy_opened_files (task_table 1) example_files_kernel in
  file_table (task_at s' (task_table 1)) = file_table (task_at s' (task_table 0))
  ∧ f_ref (file_at s' 0) = 6 ∧ f_ref (file_at s' 3) = 2.
Proof.
  assert (Et : file_table (task_at example_files_kernel (task_table 0))
               = {[ 0%nat := 0%nat; 1%nat := 0%nat; 2%nat := 0%nat; 3%nat := 3%nat ]}).
  { by vm_compute. }
  assert (Hdom : ∀ i, (TASK_OFILE_NR <= i)%nat →
            file_table (task_at example_files_kernel (task_table 0)) !! i = None).
  { intros i Hi. unfold TASK_OFILE_NR in Hi. rewrite Et.
    rewrite !lookup_insert_ne by lia. apply lookup_singleton_ne. lia. }
  assert (Href : ∀ f, 0 <= f_ref (file_at example_files_kernel f)
            ∧ f_ref (file_at example_files_kernel f)
              + fd_count (file_table (task_at example_files_kernel (task_table 0)))
                  (seq 0 TASK_OFILE_NR) f <= INT_MAX).
  { intros f.
    pose proof (fd_count_le (file_table (task_at example_files_kernel (task_table 0)))
                  (seq 0 TASK_OFILE_NR) f) as Hle.
    rewrite length_seq in Hle. unfold TASK_OFILE_NR, INT_MAX in *.
    assert (Hr : 0 <= f_ref (file_at example_files_kernel f) <= 3); [|lia].
    unfold file_at, example_files_kernel.
    change (sys_file_table (set_sys_file_table ?v ?x)) with v.
    destruct (decide (f = 0%nat)) as [->|H0]; [by vm_compute|].
    destruct (decide (f = 3%nat)) as [->|H3]; [by vm_compute|].
    rewrite lookup_insert_ne by done. rewrite lookup_singleton_ne by done.
    by vm_compute. }
  pose proof (copy_opened_files_shares (task_table 1) example_files_kernel (task_table 0)
                eq_refl ltac:(done) eq_refl Hdom Href) as (H1 & H2 & H3).
  cbv zeta. split; [|split].
  - rewrite H1. by rewrite H2.
  - rewrite H3. by vm_compute.
  - rewrite H3. by vm_compute.
Defined.

(** ** memory.c: [sys_sbrk] inside a page *)

(** X30.  Growing the heap inside its last page: when the heap end is not
    page aligned and the increment fits into the rest of that page,
    [sys_sbrk] returns the old heap end, moves the heap end of the calling
    task by the increment and changes nothing else, in particular it
    allocates no page; [sys_sbrk(0)] changes nothing and reports the heap
    end, which after the first call is the new one. *)
Theorem sys_sbrk_within_page (incr : Z) (s : kernel) (task : tid) :
  task_current s = Some task →
  let he := heap_end (task_at s task) in
  he mod MEM_PAGE_SIZE ≠ 0 → 0 < incr → he mod MEM_PAGE_SIZE + incr <= MEM_PAGE_SIZE →
  sys_sbrk incr s = (he, upd_task task (set_heap_end (u32 (he + incr))) s)
  ∧ sys_sbrk 0 s = (he, s)
  ∧ sys_sbrk 0 (sys_sbrk incr s).2 = (u32 (he + incr), (sys_sbrk incr s).2).
Proof.
  intros Hc he Hoff Hpos Hfit.
  assert (E1 : sys_sbrk incr s = (he, upd_task task (set_heap_end (u32 (he + incr))) s)).
  { unfold sys_sbrk. rewrite Hc. rewrite bool_decide_eq_true_2 by lia.
    change (kassert true s) with s. fold he.
    rewrite decide_False by lia. rewrite decide_True by done.
    by rewrite decide_True by done. }
  assert (E0 : ∀ st, task_current st = Some task →
            sys_sbrk 0 st = (heap_end (task_at st task), st)).
  { intros st Hst. unfold sys_sbrk. rewrite Hst. by rewrite bool_decide_eq_true_2 by lia. }
  split; [done|]. split; [by apply E0|].
  rewrite E1. cbn [snd]. rewrite E0 by done.
  rewrite task_at_upd_eq. by destruct (task_at s task).
Qed.

Lemma sys_sbrk_within_page_witness :
  let s := upd_task (task_table 0) (set_heap_end 2147491940) example_kernel in
  (sys_sbrk 100 s).1 = 2147491940
  ∧ (sys_sbrk 0 (sys_sbrk 100 s).2).1 = 2147492040
  ∧ paddr_alloc (sys_sbrk 100 s).2 = paddr_alloc s.
Proof.
  cbv zeta. set (s := upd_task (task_table 0) (set_heap_end 2147491940) example_kernel).
  destruct (sys_sbrk_within_page 100 s (task_table 0) eq_refl) as (H1 & _ & H3);
    [by vm_compute|lia|by vm_compute|].
  rewrite H3, H1. split; [done|]. split; [by vm_compute|done].
Defined.

